(** * DES_BACKEND: the question-paper generator

    A shallow embedding of the exam-paper backend and the properties of its
    selection engine.

    Two variants of the server are embedded:
    - the Part A / Part B server (the file with [romanToInt], 17 slots),
      at top level: normalization, [generateQuestions] and both handlers;
    - [server.js] (6 questions, paper types mid1, mid2 and special), in
      [Module Legacy]: normalization and [generateQuestions] up to the
      call of [selectQuestions]; Step 5 ([selectQuestions]) and the result
      of [generateQuestions] are in [Module LegacySelection].
    [getDirectImageURL], the same in both, is in [Module Drive].

    Conventions.
    - JavaScript strings are [string]s of ASCII characters.
    - Spreadsheet cells are text or whole numbers ([Cell]). The numbers
      meant are those a double holds exactly and [String] writes out with
      all their digits, of magnitude up to 2^53; [JS.parseInt] gives the
      exact value of the digits it reads, which is the code's double in
      that range.
    - [unit] is a JS number that is always a whole number here: [Z].
      Array lengths, ids and counters are [nat].
    - The process-wide [questionBank] and the stream behind [Math.random]
      form the [World]; every function that reads either is written in the
      monad [M], which threads the world and carries thrown errors.
    - No code path assigns to a property of a question object (a selected
      entry is a fresh object, [{ ...q, label, part }]), so questions are
      plain values and the bank is a list of them. *)

From Stdlib Require Import ZArith Ascii String List Lia Sorted.
From stdpp Require Import base decidable option list numbers strings pretty gmap
  sorting.

Local Open Scope Z_scope.

(** ** JavaScript strings *)

Module JS.

Definition isWhiteSpace (c : ascii) : bool :=
  let n := nat_of_ascii c in
  ((9 <=? n)%nat && (n <=? 13)%nat) || (n =? 32)%nat.

Fixpoint trimStart (s : string) : string :=
  match s with
  | String c s' => if isWhiteSpace c then trimStart s' else s
  | EmptyString => EmptyString
  end.

(** [trimEndAux s] is [None] when [s] is all white space. *)
Fixpoint trimEndAux (s : string) : option string :=
  match s with
  | EmptyString => None
  | String c s' =>
      match trimEndAux s' with
      | Some t => Some (String c t)
      | None => if isWhiteSpace c then None else Some (String c EmptyString)
      end
  end.

Definition trimEnd (s : string) : string := default EmptyString (trimEndAux s).

(** [String.prototype.trim] *)
Definition trim (s : string) : string := trimEnd (trimStart s).

Definition upperChar (c : ascii) : ascii :=
  let n := nat_of_ascii c in
  if ((97 <=? n)%nat && (n <=? 122)%nat)%bool then ascii_of_nat (n - 32) else c.

(** [String.prototype.toUpperCase] *)
Fixpoint toUpperCase (s : string) : string :=
  match s with
  | EmptyString => EmptyString
  | String c s' => String (upperChar c) (toUpperCase s')
  end.

(** Value of a digit in the given radix (10 or 16). *)
Definition digitValue (radix : Z) (c : ascii) : option Z :=
  let n := Z.of_nat (nat_of_ascii c) in
  let v := if (48 <=? n) && (n <=? 57) then Some (n - 48)
           else if (97 <=? n) && (n <=? 102) then Some (n - 87)
           else if (65 <=? n) && (n <=? 70) then Some (n - 55)
           else None in
  match v with
  | Some d => if d <? radix then Some d else None
  | None => None
  end.

(** Longest prefix of digits, accumulated; [None] when there is no digit. *)
Fixpoint parseDigits (radix : Z) (acc : option Z) (s : string) : option Z :=
  match s with
  | EmptyString => acc
  | String c s' =>
      match digitValue radix c with
      | Some d => parseDigits radix (Some (default 0 acc * radix + d)) s'
      | None => acc
      end
  end.

Definition stripHexPrefix (s : string) : option string :=
  match s with
  | String "0" (String "x" s') => Some s'
  | String "0" (String "X" s') => Some s'
  | _ => None
  end.

Definition parseUnsigned (s : string) : option Z :=
  match stripHexPrefix s with
  | Some s' => parseDigits 16 None s'
  | None => parseDigits 10 None s
  end.

(** [parseInt(s)] with no radix argument; [None] is [NaN]. The result is
    the exact value of the digits read; the code's double is that value
    up to 2^53 and a rounding of it beyond. *)
Definition parseInt (s : string) : option Z :=
  match trimStart s with
  | String "-" s' => Z.opp <$> parseUnsigned s'
  | String "+" s' => parseUnsigned s'
  | s' => parseUnsigned s'
  end.

(** [s.replace(/^L/i, '')] *)
Definition stripLeadingL (s : string) : string :=
  match s with
  | String "L" s' => s'
  | String "l" s' => s'
  | _ => s
  end.

(** The property names every object literal inherits from
    [Object.prototype]. Under such a name [obj[name]] is there before
    anything is stored, and it is no array: a function, or the prototype
    itself for [__proto__]. *)
Definition inherited : list string :=
  ["constructor"; "hasOwnProperty"; "isPrototypeOf"; "propertyIsEnumerable";
   "toLocaleString"; "toString"; "valueOf"; "__proto__";
   "__defineGetter__"; "__defineSetter__"; "__lookupGetter__"; "__lookupSetter__"].

End JS.

(** ** Spreadsheet rows *)

Inductive Cell :=
| CUndefined
| CStr (s : string)
| CNum (n : Z).

(** Truthiness of a cell value. *)
Definition truthy (c : Cell) : bool :=
  match c with
  | CUndefined => false
  | CStr s => if decide (s = "") then false else true
  | CNum n => if decide (n = 0) then false else true
  end.

(** [String(c)]; a number is written with all its digits, as [String]
    does up to 1e21 for the whole numbers a double holds exactly. *)
Definition toString (c : Cell) : string :=
  match c with
  | CUndefined => "undefined"
  | CStr s => s
  | CNum n => pretty n
  end.

(** [String(c || '')] *)
Definition stringOr (c : Cell) : string :=
  if truthy c then toString c else "".

Record Row := {
  row_BTLevel : Cell;      (* row['B.T Level'] *)
  row_Question : Cell;
  row_Unit : Cell;
  row_Month : Cell;
  row_SubjectCode : Cell;  (* row['Subject Code'] *)
  row_Subject : Cell;
  row_Branch : Cell;
  row_Regulation : Cell;
  row_Year : Cell;
  row_Sem : Cell;
  row_ImageUrl : Cell;     (* row['Image Url'] *)
  row_SNO : Cell           (* row['S.NO'] *)
}.

(** ** Questions *)

Record Question := {
  id : nat;
  unit : Z;
  question : string;
  btLevel : string;
  subjectCode : string;
  subject : string;
  branch : string;
  regulation : string;
  year : string;
  semester : string;
  month : string;
  imageUrl : string;
  sno : string
}.

(** [romanMap[String(roman).toUpperCase()] || 0] *)
Definition romanToInt (roman : Cell) : Z :=
  let key := JS.toUpperCase (toString roman) in
  if decide (key = "I") then 1
  else if decide (key = "II") then 2
  else if decide (key = "III") then 3
  else if decide (key = "IV") then 4
  else if decide (key = "V") then 5
  else 0.

(** [btLevel] as [processExcelData] computes it, before [|| '0']. *)
Definition btLevelOf (c : Cell) : string :=
  JS.stripLeadingL (JS.trim (stringOr c)).

Definition orZero (s : string) : string :=
  if decide (s = "") then "0" else s.

(** The filter of [processExcelData]. *)
Definition keepQuestion (u : Z) (btl : string) : Prop :=
  1 <= u /\ u <= 5 /\ btl <> "0".

#[global] Instance keepQuestion_dec u btl : Decision (keepQuestion u btl).
Proof. unfold keepQuestion. apply _. Defined.

Section Normalizer.

(** Text helpers whose results the selection never reads: the line-break
    rewriting of the question text, [excelDateToString] and
    [getDirectImageURL]. *)
Variable formatQuestion : string -> string.
Variable excelDateToString : Cell -> string.
Variable getDirectImageURL : string -> string.

Definition makeQuestion (index : nat) (row : Row) : Question :=
  {| id := index + 1;
     unit := romanToInt (row_Unit row);
     question := formatQuestion (stringOr (row_Question row));
     btLevel := orZero (btLevelOf (row_BTLevel row));
     subjectCode := stringOr (row_SubjectCode row);
     subject := stringOr (row_Subject row);
     branch := stringOr (row_Branch row);
     regulation := stringOr (row_Regulation row);
     year := stringOr (row_Year row);
     semester := stringOr (row_Sem row);
     month := excelDateToString (row_Month row);
     imageUrl := if truthy (row_ImageUrl row)
                 then getDirectImageURL (toString (row_ImageUrl row)) else "";
     sno := stringOr (row_SNO row) |}.

Definition processExcelData (data : list Row) : list Question :=
  filter (fun q => keepQuestion (unit q) (btLevel q)) (imap makeQuestion data).

End Normalizer.

(** ** The world, errors and the monad *)

Record World := {
  questionBank : option (list Question);   (* [null] before any upload *)
  randomSource : list nat                  (* what [Math.random] will yield *)
}.

(** One constructor per [throw] of [generateQuestions]; [ETypeError] is the
    engine's own error: on reading a property of [null] or [undefined], or
    on calling [push] on what is no array. *)
Inductive Error :=
| EInsufficientBank (got : nat)
| EInvalidPaperType
| EInsufficientL1 (u : Z) (got need : nat)
| EInsufficientPartB (u : Z) (got need : nat)
| ENoValidBTL
| EUnsupportedCase (maxBTL : Z) (btls : list string)
| ENoL1ForUnit (u : Z)
| ENoQuestionsForUnit (u : Z)
| EUnitExactly (u : Z) (have : option nat) (need : nat)
| EUnitAtLeast (u : Z) (have : option nat) (need : nat)
| ENotFive
| ENotTwelve
| ETypeError.

Inductive Outcome (A : Type) :=
| Return (a : A)
| Throw (e : Error).
Arguments Return {A} a.
Arguments Throw {A} e.

Definition M (A : Type) : Type := World -> Outcome A * World.

Definition ret {A} (a : A) : M A := fun w => (Return a, w).
Definition throw {A} (e : Error) : M A := fun w => (Throw e, w).
Definition bind {A B} (m : M A) (k : A -> M B) : M B :=
  fun w => match m w with
           | (Return a, w') => k a w'
           | (Throw e, w') => (Throw e, w')
           end.

Declare Scope js_scope.
Delimit Scope js_scope with js.
Notation "x <- m ;; k" := (bind m (fun x => k))
  (at level 100, m at next level, right associativity) : js_scope.
Notation "m ;;; k" := (bind m (fun _ => k))
  (at level 100, right associativity) : js_scope.
Local Open Scope js_scope.

Definition getQuestionBank : M (option (list Question)) :=
  fun w => (Return (questionBank w), w).

(** [Math.floor(Math.random() * n)]: the next value of the random source,
    brought into [0, n). Every index below [n] is the result for some
    value; for [n = 0] the product is [0]. An exhausted source yields [0]. *)
Definition randomIndex (n : nat) : M nat :=
  fun w => match randomSource w with
           | [] => (Return 0%nat, w)
           | r :: rs =>
               (Return (match n with O => O | S _ => r mod n end)%nat,
                {| questionBank := questionBank w; randomSource := rs |})
           end.

(** [for (const x of xs) { body }] over a loop state. *)
Fixpoint forOf {A S} (xs : list A) (body : A -> S -> M S) (s : S) : M S :=
  match xs with
  | [] => ret s
  | x :: xs' => s' <- body x s ;; forOf xs' body s'
  end.

(** ** The requirement catalog *)

Record PartAUnitReq := { pa_unit : Z; pa_count : nat }.
Record UnitReq := { ur_unit : Z; minCount : nat; maxCount : nat }.
Record BtlReq := { level : string; options : list string; count : nat }.
Record Label := { label : string; l_unit : Z }.

Definition PA (u : Z) (c : nat) := {| pa_unit := u; pa_count := c |}.
Definition UR (u : Z) (mn mx : nat) := {| ur_unit := u; minCount := mn; maxCount := mx |}.
Definition Fixed (l : string) (c : nat) := {| level := l; options := []; count := c |}.
Definition Random (opts : list string) (c : nat) :=
  {| level := "random"; options := opts; count := c |}.
Definition LB (l : string) (u : Z) := {| label := l; l_unit := u |}.

Definition partAUnitRequirementsFor (paperType : string) : option (list PartAUnitReq) :=
  if decide (paperType = "mid1") then Some [PA 1 2; PA 2 2; PA 3 1]
  else if decide (paperType = "mid2") then Some [PA 3 1; PA 4 2; PA 5 2]
  else None.

Definition unitRequirementsFor (paperType : string) : option (list UnitReq) :=
  if decide (paperType = "mid1") then Some [UR 1 5 5; UR 2 5 5; UR 3 2 2]
  else if decide (paperType = "mid2") then Some [UR 3 2 2; UR 4 5 5; UR 5 5 5]
  else None.

Definition questionLabelsFor (paperType : string) : option (list Label) :=
  if decide (paperType = "mid1") then
    Some [LB "2a" 1; LB "2b" 1; LB "3a" 1; LB "3b" 1; LB "6b" 1;
          LB "4a" 2; LB "4b" 2; LB "5a" 2; LB "5b" 2; LB "7b" 2;
          LB "6a" 3; LB "7a" 3]
  else if decide (paperType = "mid2") then
    Some [LB "2a" 3; LB "2b" 3; LB "3a" 4; LB "3b" 4; LB "4a" 4;
          LB "4b" 4; LB "5a" 4; LB "5b" 5; LB "6a" 5; LB "6b" 5;
          LB "7a" 5; LB "7b" 5]
  else None.

Definition partALabelsFor (paperType : string) : option (list Label) :=
  if decide (paperType = "mid1") then
    Some [LB "1" 1; LB "2" 1; LB "3" 2; LB "4" 2; LB "5" 3]
  else if decide (paperType = "mid2") then
    Some [LB "1" 3; LB "2" 4; LB "3" 4; LB "4" 5; LB "5" 5]
  else None.

(** ** generateQuestions, before any random draw (Steps 1 to 6) *)

Definition inUnits (q : Question) : Prop := 1 <= unit q /\ unit q <= 5.

(** Step 1 *)
Definition partAQuestionsOf (bank : list Question) : list Question :=
  filter (fun q => btLevel q = "1" /\ inUnits q) bank.
Definition partBQuestionsOf (bank : list Question) : list Question :=
  filter (fun q => btLevel q <> "1" /\ inUnits q) bank.

Definition unitIs (u : Z) (q : Question) : Prop := unit q = u.
#[global] Instance unitIs_dec u q : Decision (unitIs u q).
Proof. unfold unitIs. apply _. Defined.

(** "Check Part A requirements" *)
Definition checkPartA (partAQuestions : list Question) (req : PartAUnitReq) (_ : ())
  : M () :=
  let count := length (filter (unitIs (pa_unit req)) partAQuestions) in
  if decide (count < pa_count req)%nat
  then throw (EInsufficientL1 (pa_unit req) count (pa_count req))
  else ret ().

(** "Check Part B requirements" *)
Definition checkPartB (partBQuestions : list Question) (req : UnitReq) (_ : ())
  : M () :=
  let count := length (filter (unitIs (ur_unit req)) partBQuestions) in
  if decide (count < minCount req)%nat
  then throw (EInsufficientPartB (ur_unit req) count (minCount req))
  else ret ().

(** A JS [Set] keeps insertion order: a duplicate-free list. *)
Definition setAdd (s : list string) (x : string) : list string :=
  if decide (x ∈ s) then s else s ++ [x].

(** Step 3 fills [availableByUnitAndBTL[unit][q.btLevel]], a property of
    an object literal, for every Part B question (their units are 1 to 5).
    Under an inherited name the property is already there, no array is
    stored, and the call of [push] is a TypeError. *)
Definition breaksStep3 (q : Question) : Prop := btLevel q ∈ JS.inherited.

(** Step 3: the levels met while walking units 1 to 5, each in bank order.
    ([availableByUnitAndBTL] itself is only logged.) *)
Definition availableBTLsOf (partBQuestions : list Question) : list string :=
  foldl (fun s u => foldl setAdd s (btLevel <$> filter (unitIs u) partBQuestions))
        [] [1; 2; 3; 4; 5].

(** Step 4: [partBQuestions.map(q => parseInt(q.btLevel) || 0).filter(btl => btl > 0)] *)
Definition btLevelsOf (partBQuestions : list Question) : list Z :=
  filter (fun btl => 0 < btl)
         ((fun q => default 0 (JS.parseInt (btLevel q))) <$> partBQuestions).

(** [Math.max(...xs)] on a non-empty array *)
Definition maxOf (xs : list Z) : Z :=
  match xs with
  | [] => 0
  | x :: xs' => foldl Z.max x xs'
  end.

(** Step 5 *)
Definition btlRequirementsOf (maxBTL : Z) (availableBTLs : list string)
  : M (list BtlReq) :=
  if decide (maxBTL = 6) then
    ret [Fixed "2" 4; Fixed "3" 4; Fixed "4" 2; Random ["5"; "6"] 2]
  else if decide (maxBTL = 5) then
    ret [Fixed "2" 4; Fixed "3" 4; Fixed "4" 2; Random ["5"; "3"] 2]
  else if decide (maxBTL = 4) then
    ret [Fixed "2" 4; Fixed "3" 4; Fixed "4" 2; Random ["3"; "4"] 2]
  else if decide (maxBTL = 3) then
    ret [Fixed "2" 5; Fixed "3" 5; Random ["2"; "3"] 2]
  else if decide (maxBTL = 2 /\ "2" ∈ availableBTLs) then
    ret [Fixed "2" 12]
  else match availableBTLs with
       | [only] => ret [Fixed only 12]
       | _ => throw (EUnsupportedCase maxBTL availableBTLs)
       end.

(** What Steps 1 to 6 hand to the selection. *)
Record Plan := {
  partAQuestions : list Question;
  partBQuestions : list Question;
  partAUnitRequirements : list PartAUnitReq;
  unitRequirements : list UnitReq;
  availableBTLs : list string;
  btlRequirements : list BtlReq;
  questionLabels : list Label;
  partALabels : list Label
}.

Definition prepare (paperType : string) : M Plan :=
  bank <- getQuestionBank ;;
  match bank with
  | None => throw ETypeError
  | Some questionBank =>
      if decide (length questionBank < 17)%nat
      then throw (EInsufficientBank (length questionBank))
      else
        let partAQuestions := partAQuestionsOf questionBank in
        let partBQuestions := partBQuestionsOf questionBank in
        match partAUnitRequirementsFor paperType, unitRequirementsFor paperType with
        | Some partAUnitRequirements, Some unitRequirements =>
            forOf partAUnitRequirements (checkPartA partAQuestions) () ;;;
            forOf unitRequirements (checkPartB partBQuestions) () ;;;
            if decide (Exists breaksStep3 partBQuestions) then throw ETypeError
            else
            let availableBTLs := availableBTLsOf partBQuestions in
            let btLevels := btLevelsOf partBQuestions in
            if decide (length btLevels = 0)%nat then throw ENoValidBTL
            else
              btlRequirements <- btlRequirementsOf (maxOf btLevels) availableBTLs ;;
              match questionLabelsFor paperType, partALabelsFor paperType with
              | Some questionLabels, Some partALabels =>
                  ret {| partAQuestions := partAQuestions;
                         partBQuestions := partBQuestions;
                         partAUnitRequirements := partAUnitRequirements;
                         unitRequirements := unitRequirements;
                         availableBTLs := availableBTLs;
                         btlRequirements := btlRequirements;
                         questionLabels := questionLabels;
                         partALabels := partALabels |}
              | _, _ => throw EInvalidPaperType
              end
        | _, _ => throw EInvalidPaperType
        end
  end.

(** ** Selection state shared by Part A and Part B *)

(** A counter of [unitCount]: a number, or [NaN] once a missing key has
    been incremented. *)
Inductive Num :=
| NaN
| Nat (n : nat).

(** [{ 1: 0, 2: 0, 3: 0, 4: 0, 5: 0 }] *)
Definition initialUnitCount : gmap Z Num :=
  <[1 := Nat 0]> (<[2 := Nat 0]> (<[3 := Nat 0]> (<[4 := Nat 0]> (<[5 := Nat 0]> ∅)))).

(** [unitCount[u]] as a number; [None] for [undefined] and [NaN], which
    make every comparison false. *)
Definition readCount (unitCount : gmap Z Num) (u : Z) : option nat :=
  match unitCount !! u with
  | Some (Nat n) => Some n
  | _ => None
  end.

(** [unitCount[u]++] *)
Definition increment (u : Z) (unitCount : gmap Z Num) : gmap Z Num :=
  <[u := match readCount unitCount u with
         | Some n => Nat (S n)
         | None => NaN
         end]> unitCount.

(** [btlCount[l] = (btlCount[l] || 0) + 1] *)
Definition incrementBtl (l : string) (btlCount : gmap string nat) : gmap string nat :=
  <[l := S (default O (btlCount !! l))]> btlCount.

(** [remainingQuestions.filter(r => r.id !== q.id)] *)
Definition removeById (q : Question) (remaining : list Question) : list Question :=
  filter (fun r => id r <> id q) remaining.

(** [{ ...q, label: label.label, part: ... }] *)
Record Selected := {
  picked : Question;
  sel_label : string;
  part : string
}.

(** ** Step 7: Part A *)

Record StateA := {
  a_selected : list Selected;
  a_unitCount : gmap Z Num;
  a_remaining : list Question
}.

Definition isL1Of (u : Z) (q : Question) : Prop := unit q = u /\ btLevel q = "1".
#[global] Instance isL1Of_dec u q : Decision (isL1Of u q).
Proof. unfold isL1Of. apply _. Defined.

Definition pickQuestionFromUnitA (u : Z) (st : StateA) : M (Question * StateA) :=
  let unitQuestions := filter (isL1Of u) (a_remaining st) in
  if decide (length unitQuestions = 0)%nat then throw (ENoL1ForUnit u)
  else
    idx <- randomIndex (length unitQuestions) ;;
    match unitQuestions !! idx with
    | None => throw ETypeError
    | Some q =>
        ret (q, {| a_selected := a_selected st;
                   a_unitCount := increment (unit q) (a_unitCount st);
                   a_remaining := removeById q (a_remaining st) |})
    end.

Definition fillSlotA (lb : Label) (st : StateA) : M StateA :=
  r <- pickQuestionFromUnitA (l_unit lb) st ;;
  let q := fst r in
  let st' := snd r in
  ret {| a_selected := a_selected st' ++
                         [{| picked := q; sel_label := label lb; part := "A" |}];
         a_unitCount := a_unitCount st';
         a_remaining := a_remaining st' |}.

Definition validateUnitA (unitCount : gmap Z Num) (req : PartAUnitReq) (_ : ()) : M () :=
  if decide (readCount unitCount (pa_unit req) = Some (pa_count req)) then ret ()
  else throw (EUnitExactly (pa_unit req) (readCount unitCount (pa_unit req)) (pa_count req)).

Definition selectPartAQuestions (partAQuestions : list Question)
    (unitReqs : list PartAUnitReq) (labels : list Label) : M (list Selected) :=
  st <- forOf labels fillSlotA
          {| a_selected := []; a_unitCount := initialUnitCount;
             a_remaining := partAQuestions |} ;;
  forOf unitReqs (validateUnitA (a_unitCount st)) () ;;;
  ret (a_selected st).

(** ** Step 8: Part B *)

Record StateB := {
  b_selected : list Selected;
  b_unitCount : gmap Z Num;
  b_btlCount : gmap string nat;
  b_remaining : list Question;
  b_btlReqs : list BtlReq        (* [req.count--] writes into these *)
}.

Definition hasLevel (btl : option string) (q : Question) : Prop := Some (btLevel q) = btl.
#[global] Instance hasLevel_dec btl q : Decision (hasLevel btl q).
Proof. unfold hasLevel. apply _. Defined.

(** [unitCount[unit] >= unitReqs.find(r => r.unit === unit).maxCount] *)
Definition unitIsFull (unitReqs : list UnitReq) (unitCount : gmap Z Num) (u : Z)
  : M bool :=
  match list_find (fun r => ur_unit r = u) unitReqs with
  | None => throw ETypeError
  | Some (_, r) =>
      ret (match readCount unitCount u with
           | Some c => bool_decide (maxCount r <= c)%nat
           | None => false
           end)
  end.

Definition pickQuestionFromUnitB (unitReqs : list UnitReq)
    (btl : option string) (u : Z) (st : StateB) : M (Question * StateB) :=
  let unitQuestions := filter (unitIs u) (b_remaining st) in
  let btlMatches := filter (hasLevel btl) unitQuestions in
  relaxed <- (if decide (length btlMatches = 0)%nat then ret true
              else unitIsFull unitReqs (b_unitCount st) u) ;;
  let btlMatches := if relaxed : bool then unitQuestions else btlMatches in
  if decide (length btlMatches = 0)%nat then throw (ENoQuestionsForUnit u)
  else
    idx <- randomIndex (length btlMatches) ;;
    match btlMatches !! idx with
    | None => throw ETypeError
    | Some q =>
        ret (q, {| b_selected := b_selected st;
                   b_unitCount := increment (unit q) (b_unitCount st);
                   b_btlCount := incrementBtl (btLevel q) (b_btlCount st);
                   b_remaining := removeById q (b_remaining st);
                   b_btlReqs := b_btlReqs st |})
    end.

(** The inner [for (const req of btlReqs)]: the level of the first rule
    with a positive count, which is decremented. *)
Fixpoint takeBtl (btlReqs : list BtlReq) : M (option string * list BtlReq) :=
  match btlReqs with
  | [] => ret (None, [])
  | req :: rest =>
      if decide (0 < count req)%nat then
        btl <- (if decide (level req = "random")
                then idx <- randomIndex (length (options req)) ;;
                     ret (options req !! idx)
                else ret (Some (level req))) ;;
        ret (btl, {| level := level req; options := options req;
                     count := (count req - 1)%nat |} :: rest)
      else
        r <- takeBtl rest ;;
        ret (fst r, req :: snd r)
  end.

(** [!btl] *)
Definition falsyBtl (btl : option string) : bool :=
  match btl with
  | None => true
  | Some s => bool_decide (s = "")
  end.

Definition neededBtl (availableBTLs : list string) (btlReqs : list BtlReq)
  : M (option string * list BtlReq) :=
  r <- takeBtl btlReqs ;;
  if falsyBtl (fst r) then
    idx <- randomIndex (length availableBTLs) ;;
    ret (availableBTLs !! idx, snd r)
  else ret r.

Definition fillSlotB (unitReqs : list UnitReq) (availableBTLs : list string)
    (lb : Label) (st : StateB) : M StateB :=
  n <- neededBtl availableBTLs (b_btlReqs st) ;;
  r <- pickQuestionFromUnitB unitReqs (fst n) (l_unit lb)
         {| b_selected := b_selected st; b_unitCount := b_unitCount st;
            b_btlCount := b_btlCount st; b_remaining := b_remaining st;
            b_btlReqs := snd n |} ;;
  let q := fst r in
  let st' := snd r in
  ret {| b_selected := b_selected st' ++
                         [{| picked := q; sel_label := label lb; part := "B" |}];
         b_unitCount := b_unitCount st';
         b_btlCount := b_btlCount st';
         b_remaining := b_remaining st';
         b_btlReqs := b_btlReqs st' |}.

Definition validateUnitB (unitCount : gmap Z Num) (req : UnitReq) (_ : ()) : M () :=
  match readCount unitCount (ur_unit req) with
  | Some c =>
      if decide (c < minCount req)%nat
      then throw (EUnitAtLeast (ur_unit req) (Some c) (minCount req))
      else ret ()
  | None => ret ()
  end.

Definition labelOrder : list string :=
  ["2a"; "2b"; "3a"; "3b"; "4a"; "4b"; "5a"; "5b"; "6a"; "6b"; "7a"; "7b"].

(** [xs.indexOf(x)] *)
Fixpoint indexOfFrom (i : Z) (xs : list string) (x : string) : Z :=
  match xs with
  | [] => -1
  | y :: xs' => if decide (y = x) then i else indexOfFrom (i + 1) xs' x
  end.
Definition indexOf (xs : list string) (x : string) : Z := indexOfFrom 0 xs x.

(** The comparator handed to [sort]. *)
Definition compareSelected (a b : Selected) : Z :=
  if decide (unit (picked a) <> unit (picked b))
  then unit (picked a) - unit (picked b)
  else indexOf labelOrder (sel_label a) - indexOf labelOrder (sel_label b).

(** [Array.prototype.sort(cmp)], a stable sort: each element is placed
    before the first later element it does not exceed. *)
Section Sort.
Context {A : Type} (cmp : A -> A -> Z).

Fixpoint insertSorted (x : A) (l : list A) : list A :=
  match l with
  | [] => [x]
  | y :: l' => if decide (cmp x y <= 0) then x :: y :: l' else y :: insertSorted x l'
  end.

Definition sortBy (l : list A) : list A := foldr insertSorted [] l.
End Sort.

(** Part B's loop state before the first slot. *)
Definition initialStateB (source : list Question) (btlReqs : list BtlReq) : StateB :=
  {| b_selected := []; b_unitCount := initialUnitCount; b_btlCount := ∅;
     b_remaining := source; b_btlReqs := btlReqs |}.

Definition selectPartBQuestions (partBQuestions : list Question)
    (availableBTLs : list string) (btlReqs : list BtlReq)
    (unitReqs : list UnitReq) (labels : list Label) : M (list Selected) :=
  st <- forOf labels (fillSlotB unitReqs availableBTLs)
          (initialStateB partBQuestions btlReqs) ;;
  forOf unitReqs (validateUnitB (b_unitCount st)) () ;;;
  ret (sortBy compareSelected (b_selected st)).

(** ** generateQuestions *)

Record Paper := { partA : list Selected; partB : list Selected }.

Definition select (plan : Plan) : M Paper :=
  partASelected <- selectPartAQuestions (partAQuestions plan)
                     (partAUnitRequirements plan) (partALabels plan) ;;
  partBSelected <- selectPartBQuestions (partBQuestions plan) (availableBTLs plan)
                     (btlRequirements plan) (unitRequirements plan)
                     (questionLabels plan) ;;
  if decide (length partASelected <> 5)%nat then throw ENotFive
  else if decide (length partBSelected <> 12)%nat then throw ENotTwelve
  else ret {| partA := partASelected; partB := partBSelected |}.

Definition generateQuestions (paperType : string) : M Paper :=
  plan <- prepare paperType ;;
  select plan.

(** ** The HTTP handlers *)

Inductive ClientError :=
| NoFileUploaded
| InsufficientQuestions (got : nat)
| MissingField (field : string)
| InvalidLevelsOrUnits (n : nat)
| NoQuestionsAvailable
| InvalidPaperTypeRequest
| MissingPaperDetail (field : string).

Record OutQuestion := {
  o_question : string;
  o_imageUrl : string;
  o_btLevel : string;
  o_unit : Z;
  o_label : string
}.

Record PaperDetails := {
  d_subjectCode : string;
  d_subject : string;
  d_branch : string;
  d_regulation : string;
  d_year : string;
  d_semester : string;
  d_month : string
}.

Inductive Response :=
| Status400 (e : ClientError)
| Status500 (e : Error)
| UploadOk (questionCount : nat)
| GenerateOk (partA partB : list OutQuestion) (details : PaperDetails).

Definition Handler : Type := World -> Response * World.

(** The first of the listed fields that is empty. *)
Fixpoint firstEmpty (fields : list (string * string)) : option string :=
  match fields with
  | [] => None
  | (name, value) :: rest =>
      if decide (value = "") then Some name else firstEmpty rest
  end.

(** [partA[0]?.f || partB[0]?.f || ''] *)
Definition detail (f : Question -> string) (partA partB : list Selected) : string :=
  let a := from_option (fun s => f (picked s)) "" (head partA) in
  if decide (a = "") then from_option (fun s => f (picked s)) "" (head partB) else a.

Definition toOut (s : Selected) : OutQuestion :=
  {| o_question := question (picked s);
     o_imageUrl := imageUrl (picked s);
     o_btLevel := btLevel (picked s);
     o_unit := unit (picked s);
     o_label := sel_label s |}.

(** [app.post('/api/generate', ...)] *)
Definition generateHandler (paperType : string) : Handler :=
  fun w =>
    match questionBank w with
    | None => (Status400 NoQuestionsAvailable, w)
    | Some _ =>
        if decide (paperType ∈ ["mid1"; "mid2"]) then
          match generateQuestions paperType w with
          | (Throw e, w') => (Status500 e, w')
          | (Return paper, w') =>
              let pa := partA paper in
              let pb := partB paper in
              let details :=
                {| d_subjectCode := detail subjectCode pa pb;
                   d_subject := detail subject pa pb;
                   d_branch := detail branch pa pb;
                   d_regulation := detail regulation pa pb;
                   d_year := detail year pa pb;
                   d_semester := detail semester pa pb;
                   d_month := detail month pa pb |} in
              match firstEmpty [("subjectCode", d_subjectCode details);
                                ("subject", d_subject details);
                                ("branch", d_branch details);
                                ("regulation", d_regulation details);
                                ("year", d_year details);
                                ("semester", d_semester details)] with
              | Some field => (Status400 (MissingPaperDetail field), w')
              | None => (GenerateOk (toOut <$> pa) (toOut <$> pb) details, w')
              end
          end
        else (Status400 InvalidPaperTypeRequest, w)
    end.

Definition validBTLevels : list string := ["1"; "2"; "3"; "4"; "5"; "6"].
Definition validUnits : list Z := [1; 2; 3; 4; 5].

Definition invalidQuestion (q : Question) : Prop :=
  btLevel q ∉ validBTLevels \/ unit q ∉ validUnits.

Section Upload.

Variable formatQuestion : string -> string.
Variable excelDateToString : Cell -> string.
Variable getDirectImageURL : string -> string.

(** [app.post('/api/upload', ...)]; [file] is the first sheet of the
    uploaded workbook as rows, [None] when the request has no file.
    (The per-unit and per-level tallies are only logged.) *)
Definition uploadHandler (file : option (list Row)) : Handler :=
  fun w =>
    match file with
    | None => (Status400 NoFileUploaded, w)
    | Some jsonData =>
        let bank := processExcelData formatQuestion excelDateToString
                      getDirectImageURL jsonData in
        let w' := {| questionBank := Some bank; randomSource := randomSource w |} in
        if decide (length bank < 17)%nat
        then (Status400 (InsufficientQuestions (length bank)), w')
        else
          match bank with
          | [] => (Status500 ETypeError, w')
          | sampleQuestion :: _ =>
              match firstEmpty [("subjectCode", subjectCode sampleQuestion);
                                ("subject", subject sampleQuestion);
                                ("branch", branch sampleQuestion);
                                ("regulation", regulation sampleQuestion);
                                ("year", year sampleQuestion);
                                ("semester", semester sampleQuestion)] with
              | Some field => (Status400 (MissingField field), w')
              | None =>
                  let invalidQuestions := filter invalidQuestion bank in
                  if decide (0 < length invalidQuestions)%nat
                  then (Status400 (InvalidLevelsOrUnits (length invalidQuestions)), w')
                  else (UploadOk (length bank), w')
              end
          end
    end.

End Upload.

(** ** server.js *)

Module Legacy.

Record Question := {
  id : nat;
  unit : Z;
  question : Cell;
  btLevel : string;
  subjectCode : Cell;
  subject : Cell;
  branch : Cell;
  regulation : Cell;
  year : Cell;
  semester : Cell;
  month : Cell;
  imageUrl : string
}.

(** [c || ''] *)
Definition orEmpty (c : Cell) : Cell := if truthy c then c else CStr "".

Section Normalizer.

Variable formatQuestion : string -> string.
Variable getDirectImageURL : string -> string.

(** [None] when [getDirectImageURL] is handed a number, whose [match]
    is not a function. *)
Definition makeQuestion (index : nat) (row : Row) : option Question :=
  imageUrl ← (if truthy (row_ImageUrl row) then
                match row_ImageUrl row with
                | CStr url => Some (getDirectImageURL url)
                | _ => None
                end
              else Some "") ;
  Some {| id := index + 1;
          unit := default 0 (JS.parseInt (toString (row_Unit row)));
          question := match orEmpty (row_Question row) with
                      | CStr s => CStr (formatQuestion s)
                      | c => c
                      end;
          btLevel := orZero (btLevelOf (row_BTLevel row));
          subjectCode := orEmpty (row_SubjectCode row);
          subject := orEmpty (row_Subject row);
          branch := orEmpty (row_Branch row);
          regulation := orEmpty (row_Regulation row);
          year := orEmpty (row_Year row);
          semester := orEmpty (row_Sem row);
          month := orEmpty (row_Month row);
          imageUrl := imageUrl |}.

Definition processExcelData (data : list Row) : option (list Question) :=
  filter (fun q => keepQuestion (unit q) (btLevel q))
    <$> mapM (fun ir => makeQuestion (fst ir) (snd ir)) (imap pair data).

End Normalizer.

(** One constructor per [throw] of Steps 1 to 4; [ETypeError] is the
    engine's own error. *)
Inductive Error :=
| EInsufficientBank
| ETypeError
| ENoValidBTL
| EUnsupportedCase (maxBTL : Z) (btls : list string)
| EInvalidPaperType.

(** Step 1 fills [availableByUnitAndBTL[unit][q.btLevel]], a property of
    an object literal, for every question of units 1 to 5. Under an
    inherited name the property is already there, no array is stored, and
    the call of [push] is a TypeError. *)
Definition breaksStep1 (q : Question) : Prop :=
  1 <= unit q <= 5 /\ btLevel q ∈ JS.inherited.

Definition availableBTLsOf (questionBank : list Question) : list string :=
  foldl (fun s u => foldl setAdd s
                      (btLevel <$> filter (fun q => unit q = u) questionBank))
        [] [1; 2; 3; 4; 5].

Definition btLevelsOf (questionBank : list Question) : list Z :=
  filter (fun btl => 0 < btl)
         ((fun q => default 0 (JS.parseInt (btLevel q))) <$> questionBank).

(** Step 3 *)
Definition btlRequirementsOf (maxBTL : Z) (availableBTLs : list string)
  : Error + list BtlReq :=
  if decide (maxBTL = 6) then
    inr [Fixed "1" 1; Fixed "2" 2; Fixed "3" 1; Fixed "4" 1; Random ["5"; "6"] 1]
  else if decide (maxBTL = 5) then
    inr [Fixed "1" 1; Fixed "2" 2; Fixed "3" 1; Fixed "4" 1; Random ["5"; "3"] 1]
  else if decide (maxBTL = 4) then
    inr [Fixed "1" 1; Fixed "2" 2; Fixed "3" 1; Fixed "4" 1; Random ["3"; "4"] 1]
  else if decide (maxBTL = 3) then
    inr [Fixed "1" 1; Fixed "2" 2; Fixed "3" 2; Random ["2"; "3"] 1]
  else if decide (maxBTL = 2 /\ "2" ∈ availableBTLs /\ "1" ∈ availableBTLs) then
    inr [Fixed "1" 1; Fixed "2" 5]
  else match availableBTLs with
       | [only] => inr [Fixed only 6]
       | _ => inl (EUnsupportedCase maxBTL availableBTLs)
       end.

(** Step 4 *)
Definition unitRequirementsFor (paperType : string) : option (list UnitReq) :=
  if decide (paperType = "mid1") then Some [UR 1 2 3; UR 2 2 3; UR 3 1 1]
  else if decide (paperType = "mid2") then Some [UR 3 1 1; UR 4 2 3; UR 5 2 3]
  else if decide (paperType = "special") then
    Some [UR 1 1 2; UR 2 1 2; UR 3 1 2; UR 4 1 2; UR 5 1 2]
  else None.

(** [generateQuestions] up to the call of [selectQuestions]: Steps 1 to 4.
    The selection itself (Step 5) starts only from a result [inr]. *)
Definition requirements (questionBank : option (list Question)) (paperType : string)
  : Error + (list BtlReq * list UnitReq) :=
  match questionBank with
  | None => inl EInsufficientBank
  | Some questionBank =>
      if decide (length questionBank < 6)%nat then inl EInsufficientBank
      else if decide (Exists breaksStep1 questionBank) then inl ETypeError
      else
        let availableBTLs := availableBTLsOf questionBank in
        let btLevels := btLevelsOf questionBank in
        if decide (length btLevels = 0)%nat then inl ENoValidBTL
        else
          match btlRequirementsOf (maxOf btLevels) availableBTLs with
          | inl e => inl e
          | inr btlRequirements =>
              match unitRequirementsFor paperType with
              | Some unitRequirements => inr (btlRequirements, unitRequirements)
              | None => inl EInvalidPaperType
              end
          end
  end.

End Legacy.

(** ** The earlier server: Step 5 and the result of generateQuestions *)

Module LegacySelection.

(** One constructor per [throw] of Step 5 on; [FRequirements] carries the
    errors of Steps 1 to 4, [FTypeError] is the engine's own error. *)
Inductive Failure :=
| FRequirements (e : Legacy.Error)
| FTypeError
| FNoRandomLevel (options : list string)
| FInsufficientRandom (btl : string)
| FInsufficientLevel (level : string) (need : nat) (found : Z)
| FFailedPick (level : string)
| FUnitMinimum (u : Z) (have : option nat) (need : nat)
| FDistribution
| FNoSixth
| FNotSix.

Inductive Result (A : Type) :=
| Ok (a : A)
| Fail (f : Failure).
Arguments Ok {A} a.
Arguments Fail {A} f.

(** The only state besides the locals of [selectQuestions] is what
    [Math.random] will yield. *)
Definition R (A : Type) : Type := list nat -> Result A * list nat.

Definition ret {A} (a : A) : R A := fun rs => (Ok a, rs).
Definition throw {A} (f : Failure) : R A := fun rs => (Fail f, rs).
Definition bind {A B} (m : R A) (k : A -> R B) : R B :=
  fun rs => match m rs with
            | (Ok a, rs') => k a rs'
            | (Fail f, rs') => (Fail f, rs')
            end.

Declare Scope legacy_scope.
Delimit Scope legacy_scope with legacy.
Notation "x <- m ;; k" := (bind m (fun x => k))
  (at level 100, m at next level, right associativity) : legacy_scope.
Notation "m ;;; k" := (bind m (fun _ => k))
  (at level 100, right associativity) : legacy_scope.
Local Open Scope legacy_scope.

(** [Math.floor(Math.random() * n)] *)
Definition randomIndex (n : nat) : R nat :=
  fun rs => match rs with
            | [] => (Ok 0%nat, [])
            | r :: rs' => (Ok (match n with O => O | S _ => r mod n end)%nat, rs')
            end.

Fixpoint forOf {A S} (xs : list A) (body : A -> S -> R S) (s : S) : R S :=
  match xs with
  | [] => ret s
  | x :: xs' => s' <- body x s ;; forOf xs' body s'
  end.

(** [while (count > 0) { body; count--; }], where [body] throws when it
    does not get to [count--]. *)
Fixpoint while {S} (count : nat) (body : S -> R S) (s : S) : R S :=
  match count with
  | O => ret s
  | S count' => s' <- body s ;; while count' body s'
  end.

(** [availableByUnitAndBTL[u]?.[btl]?.length || 0] *)
Definition lengthAt (questionBank : list Legacy.Question) (u : Z) (btl : string) : nat :=
  if decide (1 <= u <= 5) then
    length (filter (fun q => Legacy.unit q = u /\ Legacy.btLevel q = btl) questionBank)
  else 0.

Record State := {
  selectedQuestions : list Legacy.Question;
  unitCount : gmap Z Num;
  btlCount : gmap string nat;
  remainingQuestions : list Legacy.Question
}.

(** [unitReqs.find(r => r.unit === u)] *)
Definition findReq (unitReqs : list UnitReq) (u : Z) : option UnitReq :=
  snd <$> list_find (fun r => ur_unit r = u) unitReqs.

(** The filter of [pickQuestion]. [allowedUnits] holds the units of
    [unitReqs]; its sorting changes nothing for [includes]. *)
Definition canPick (unitReqs : list UnitReq) (unitCount : gmap Z Num) (btl : string)
    (q : Legacy.Question) : Prop :=
  match findReq unitReqs (Legacy.unit q) with
  | Some r =>
      Legacy.btLevel q = btl /\
      match readCount unitCount (Legacy.unit q) with
      | Some n => (n < maxCount r)%nat
      | None => False
      end
  | None => False
  end.

#[global] Instance canPick_dec unitReqs unitCount btl q :
  Decision (canPick unitReqs unitCount btl q).
Proof.
  unfold canPick. destruct (findReq unitReqs (Legacy.unit q)); [|apply _].
  destruct (readCount unitCount (Legacy.unit q)); apply _.
Defined.

(** [None] is [null]. *)
Definition pickQuestion (unitReqs : list UnitReq) (btl : string) (st : State)
  : R (option (Legacy.Question * State)) :=
  let available := filter (canPick unitReqs (unitCount st) btl) (remainingQuestions st) in
  if decide (length available = 0)%nat then ret None
  else
    idx <- randomIndex (length available) ;;
    match available !! idx with
    | None => throw FTypeError
    | Some q =>
        ret (Some (q, {| selectedQuestions := selectedQuestions st;
                         unitCount := increment (Legacy.unit q) (unitCount st);
                         btlCount := incrementBtl (Legacy.btLevel q) (btlCount st);
                         remainingQuestions :=
                           filter (fun r => Legacy.id r <> Legacy.id q)
                                  (remainingQuestions st) |}))
    end.

(** [selectedQuestions.push(q)] *)
Definition push (q : Legacy.Question) (st : State) : State :=
  {| selectedQuestions := selectedQuestions st ++ [q];
     unitCount := unitCount st;
     btlCount := btlCount st;
     remainingQuestions := remainingQuestions st |}.

(** One round of the loop of a rule with [options]. *)
Definition pickRandom (unitReqs : list UnitReq) (randomBTLs : list string) (st : State)
  : R State :=
  i <- randomIndex (length randomBTLs) ;;
  match randomBTLs !! i with
  | None => throw (FInsufficientRandom "undefined")
  | Some btl =>
      r <- pickQuestion unitReqs btl st ;;
      match r with
      | Some (q, st') => ret (push q st')
      | None => throw (FInsufficientRandom btl)
      end
  end.

(** One round of the loop of a rule with a fixed level. *)
Definition pickFixed (unitReqs : list UnitReq) (level : string) (st : State) : R State :=
  r <- pickQuestion unitReqs level st ;;
  match r with
  | Some (q, st') => ret (push q st')
  | None => throw (FFailedPick level)
  end.

Definition hasMore (questionBank : list Legacy.Question) (btlCount : gmap string nat)
    (btl : string) (u : UnitReq) : Prop :=
  (default O (btlCount !! btl) < lengthAt questionBank (ur_unit u) btl)%nat.

#[global] Instance hasMore_dec questionBank btlCount btl u :
  Decision (hasMore questionBank btlCount btl u).
Proof. unfold hasMore. apply _. Defined.

(** [unitReqs.reduce((sum, u) => sum + (... || 0) - (btlCount[level] || 0), 0)] *)
Definition availableCount (questionBank : list Legacy.Question) (unitReqs : list UnitReq)
    (btlCount : gmap string nat) (level : string) : Z :=
  foldl (fun sum u => sum + Z.of_nat (lengthAt questionBank (ur_unit u) level)
                      - Z.of_nat (default O (btlCount !! level)))
        0 unitReqs.

(** The body of [for (const req of btlReqs)]. A rule whose level is
    'random' and which has no options is the single-level rule
    [{ level: 'random', count: 6 }] of a bank whose one level is that text:
    it has no [options] property, and [req.options.filter] is a TypeError.
    The rules written out in Step 3 all have options. *)
Definition enforce (questionBank : list Legacy.Question) (unitReqs : list UnitReq)
    (req : BtlReq) (st : State) : R State :=
  if decide (level req = "random") then
    match options req with
    | [] => throw FTypeError
    | _ =>
        let randomBTLs :=
          filter (fun btl => Exists (hasMore questionBank (btlCount st) btl) unitReqs)
                 (options req) in
        if decide (length randomBTLs = 0)%nat then throw (FNoRandomLevel (options req))
        else while (count req) (pickRandom unitReqs randomBTLs) st
    end
  else
    let found := availableCount questionBank unitReqs (btlCount st) (level req) in
    if decide (found < Z.of_nat (count req)) then
      throw (FInsufficientLevel (level req) (count req) found)
    else while (count req) (pickFixed unitReqs (level req)) st.

(** Validate unit minimums: a missing counter compares false. *)
Definition validateUnit (req : UnitReq) (st : State) : R State :=
  match readCount (unitCount st) (ur_unit req) with
  | Some n =>
      if decide (n < minCount req)%nat then
        throw (FUnitMinimum (ur_unit req) (Some n) (minCount req))
      else ret st
  | None => ret st
  end.

Definition ofUnit (u : Z) (qs : list Legacy.Question) : list Legacy.Question :=
  filter (fun q => Legacy.unit q = u) qs.

(** The five [shift()]s and the sixth question, drawn from [rest]. The
    length checks before it make the three lists long enough, and the
    index drawn is below the length of [rest]: the two [FTypeError]
    branches are never taken. *)
Definition firstFive (first second third rest : list Legacy.Question)
  : R (list Legacy.Question) :=
  match first, second, third with
  | a :: b :: _, c :: d :: _, e :: _ =>
      if decide (0 < length rest)%nat then
        i <- randomIndex (length rest) ;;
        match rest !! i with
        | Some q => ret [a; b; c; d; e; q]
        | None => throw FTypeError
        end
      else throw FNoSixth
  | _, _, _ => throw FTypeError
  end.

(** Sort questions to match the order of the paper type. *)
Definition arrange (paperType : string) (selected : list Legacy.Question)
  : R (list Legacy.Question) :=
  if decide (paperType = "mid1") then
    let unit1Questions := ofUnit 1 selected in
    let unit2Questions := ofUnit 2 selected in
    let unit3Questions := ofUnit 3 selected in
    if decide (length unit1Questions < 2 \/ length unit2Questions < 2 \/
               length unit3Questions < 1)%nat then throw FDistribution
    else firstFive unit1Questions unit2Questions unit3Questions
           (drop 2 unit1Questions ++ drop 2 unit2Questions)
  else if decide (paperType = "mid2") then
    let unit3Questions := ofUnit 3 selected in
    let unit4Questions := ofUnit 4 selected in
    let unit5Questions := ofUnit 5 selected in
    if decide (length unit3Questions < 1 \/ length unit4Questions < 2 \/
               length unit5Questions < 2)%nat then throw FDistribution
    else
      match unit3Questions, unit4Questions, unit5Questions with
      | a :: _, b :: c :: _, d :: e :: _ =>
          let remainingMid2 := drop 2 unit4Questions ++ drop 2 unit5Questions in
          if decide (0 < length remainingMid2)%nat then
            i <- randomIndex (length remainingMid2) ;;
            match remainingMid2 !! i with
            | Some q => ret [a; b; c; d; e; q]
            | None => throw FTypeError
            end
          else throw FNoSixth
      | _, _, _ => throw FTypeError
      end
  else if decide (paperType = "special") then
    let unit1Questions := ofUnit 1 selected in
    let unit2Questions := ofUnit 2 selected in
    let unit3Questions := ofUnit 3 selected in
    let unit4Questions := ofUnit 4 selected in
    let unit5Questions := ofUnit 5 selected in
    if decide (length unit1Questions < 2 \/ length unit2Questions < 2 \/
               length unit3Questions < 1)%nat then throw FDistribution
    else firstFive unit1Questions unit2Questions unit3Questions
           (drop 2 unit1Questions ++ drop 2 unit2Questions ++
            unit4Questions ++ unit5Questions)
  else ret [].

Definition initialState (questionBank : list Legacy.Question) : State :=
  {| selectedQuestions := [];
     unitCount := initialUnitCount;
     btlCount := ∅;
     remainingQuestions := questionBank |}.

Definition selectQuestions (questionBank : list Legacy.Question) (paperType : string)
    (btlReqs : list BtlReq) (unitReqs : list UnitReq) : R (list Legacy.Question) :=
  st <- forOf btlReqs (enforce questionBank unitReqs) (initialState questionBank) ;;
  st <- forOf unitReqs validateUnit st ;;
  arrange paperType (selectedQuestions st).

(** [generateQuestions(paperType)] of server.js on the bank in memory:
    Steps 1 to 4 are [Legacy.requirements], then Step 5 and the final
    length check. *)
Definition generateQuestions (questionBank : option (list Legacy.Question))
    (paperType : string) : R (list Legacy.Question) :=
  match questionBank with
  | None => throw (FRequirements Legacy.EInsufficientBank)
  | Some bank =>
      match Legacy.requirements questionBank paperType with
      | inl e => throw (FRequirements e)
      | inr (btlRequirements, unitRequirements) =>
          selected <- selectQuestions bank paperType btlRequirements unitRequirements ;;
          if decide (length selected = 6)%nat then ret selected
          else throw FNotSix
      end
  end.

(** The answer to [POST /api/generate]. *)
Record OutQuestion := {
  o_question : Cell;
  o_imageUrl : string;
  o_btLevel : string;
  o_unit : Z
}.

Record PaperDetails := {
  d_subject : Cell;
  d_subjectCode : Cell;
  d_branch : Cell;
  d_regulation : Cell;
  d_year : Cell;
  d_semester : Cell
}.

Inductive Response :=
| NoQuestions400
| Error500 (f : Failure)
| Paper200 (questions : list OutQuestion) (paperDetails : PaperDetails).

Definition toOut (q : Legacy.Question) : OutQuestion :=
  {| o_question := Legacy.question q;
     o_imageUrl := Legacy.imageUrl q;
     o_btLevel := Legacy.btLevel q;
     o_unit := Legacy.unit q |}.

(** The handler of [POST /api/generate]; [selectedQuestions[0]] of an
    empty array is [undefined], whose [subject] is a TypeError. *)
Definition generateHandler (questionBank : option (list Legacy.Question))
    (paperType : string) (rs : list nat) : Response * list nat :=
  match questionBank with
  | None => (NoQuestions400, rs)
  | Some _ =>
      match generateQuestions questionBank paperType rs with
      | (Ok selectedQuestions, rs') =>
          match selectedQuestions with
          | q0 :: _ =>
              (Paper200 (toOut <$> selectedQuestions)
                 {| d_subject := Legacy.subject q0;
                    d_subjectCode := Legacy.subjectCode q0;
                    d_branch := Legacy.branch q0;
                    d_regulation := Legacy.regulation q0;
                    d_year := Legacy.year q0;
                    d_semester := Legacy.semester q0 |}, rs')
          | [] => (Error500 FTypeError, rs')
          end
      | (Fail f, rs') => (Error500 f, rs')
      end
  end.

End LegacySelection.

(** ** The server as a sequence of requests *)

(** The two POST routes; Express runs one handler at a time. *)
Inductive Request :=
| PostUpload (file : option (list Row))
| PostGenerate (paperType : string).

Section Server.

Variable formatQuestion : string -> string.
Variable excelDateToString : Cell -> string.
Variable getDirectImageURL : string -> string.

Definition route (r : Request) : Handler :=
  match r with
  | PostUpload file => uploadHandler formatQuestion excelDateToString getDirectImageURL file
  | PostGenerate paperType => generateHandler paperType
  end.

(** The responses to a sequence of requests, and the world they leave. *)
Fixpoint serve (rs : list Request) (w : World) : list Response * World :=
  match rs with
  | [] => ([], w)
  | r :: rs' =>
      let (resp, w1) := route r w in
      let (resps, w2) := serve rs' w1 in
      (resp :: resps, w2)
  end.

(** The sheet of the last upload that carried a file, if any. *)
Fixpoint lastSheet (rs : list Request) (before : option (list Question))
  : option (list Question) :=
  match rs with
  | [] => before
  | PostUpload (Some rows) :: rs' =>
      lastSheet rs'
        (Some (processExcelData formatQuestion excelDateToString getDirectImageURL rows))
  | _ :: rs' => lastSheet rs' before
  end.

End Server.

(** ** getDirectImageURL *)

Module Drive.

(** [Some rest] when [s] is [p] followed by [rest]. *)
Fixpoint startsWith (p s : string) : option string :=
  match p, s with
  | EmptyString, _ => Some s
  | String a p', String b s' => if decide (a = b) then startsWith p' s' else None
  | String _ _, EmptyString => None
  end.

(** The longest run of characters other than '/', and what follows it. *)
Fixpoint spanNonSlash (s : string) : string * string :=
  match s with
  | EmptyString => (EmptyString, EmptyString)
  | String c s' =>
      if decide (c = "/"%char) then (EmptyString, s)
      else let (run, rest) := spanNonSlash s' in (String c run, rest)
  end.

Definition sharePrefix : string := "https://drive.google.com/file/d/".
Definition directPrefix : string := "https://drive.google.com/uc?export=view&id=".

(** [/https:\/\/drive\.google\.com\/file\/d\/([^/]+)\/view/] tried at the
    start of [s]; the result is the captured group. The group cannot hold a
    '/', and a '/' must follow it, so it is the whole run up to the next
    '/'. *)
Definition matchHere (s : string) : option string :=
  match startsWith sharePrefix s with
  | Some rest =>
      let (fileId, after) := spanNonSlash rest in
      if decide (fileId = EmptyString) then None
      else match startsWith "/view" after with
           | Some _ => Some fileId
           | None => None
           end
  | None => None
  end.

(** [url.match(driveRegex)]: the leftmost position where it matches. *)
Fixpoint matchDrive (s : string) : option string :=
  match matchHere s with
  | Some fileId => Some fileId
  | None =>
      match s with
      | String _ s' => matchDrive s'
      | EmptyString => None
      end
  end.

Definition getDirectImageURL (url : string) : string :=
  match matchDrive url with
  | Some fileId => directPrefix +:+ fileId
  | None => url
  end.

Fixpoint hasSlash (s : string) : bool :=
  match s with
  | EmptyString => false
  | String c s' => if decide (c = "/"%char) then true else hasSlash s'
  end.

End Drive.

(** ** Sample data *)

Definition sampleRow (u level : string) : Row :=
  {| row_BTLevel := CStr level; row_Question := CStr "Define the term.";
     row_Unit := CStr u; row_Month := CUndefined;
     row_SubjectCode := CStr "CS301"; row_Subject := CStr "Operating Systems";
     row_Branch := CStr "CSE"; row_Regulation := CStr "R20";
     row_Year := CStr "III"; row_Sem := CNum 1;
     row_ImageUrl := CStr ""; row_SNO := CUndefined |}.

(** Five recall questions for mid1, and twelve questions of level 6. *)
Definition sampleRows : list Row :=
  [sampleRow "I" "L1"; sampleRow "I" "L1"; sampleRow "II" "L1";
   sampleRow "II" "L1"; sampleRow "III" "L1";
   sampleRow "I" "L6"; sampleRow "I" "L6"; sampleRow "I" "L6";
   sampleRow "I" "L6"; sampleRow "I" "L6";
   sampleRow "II" "L6"; sampleRow "II" "L6"; sampleRow "II" "L6";
   sampleRow "II" "L6"; sampleRow "II" "L6";
   sampleRow "III" "L6"; sampleRow "III" "L6"].

Definition samplePool : list Question :=
  processExcelData (fun s => s) (fun _ => "") (fun s => s) sampleRows.

Definition sampleWorld : World :=
  {| questionBank := Some samplePool;
     randomSource := [3; 1; 4; 1; 5; 9; 2; 6; 5; 3; 5; 8; 9; 7; 9]%nat |}.

(** Seven questions with numeric units, for the earlier server. *)
Definition legacyRows : list Row :=
  [sampleRow "1" "L1"; sampleRow "1" "L2"; sampleRow "1" "L3";
   sampleRow "2" "L2"; sampleRow "2" "L4"; sampleRow "2" "L5";
   sampleRow "3" "L6"].

Definition legacyBank : list Legacy.Question :=
  default [] (Legacy.processExcelData (fun s => s) (fun s => s) legacyRows).

(** * Properties *)

(** ** Vocabulary *)

(** A computation that never writes [questionBank]. *)
Definition keepsBank {A} (m : M A) : Prop :=
  forall w, questionBank (snd (m w)) = questionBank w.

(** A computation that neither draws a random number nor writes the bank,
    and whose outcome is a function of the bank alone. *)
Definition drawFree {A} (m : M A) : Prop :=
  (forall w, snd (m w) = w) /\
  (forall w1 w2, questionBank w1 = questionBank w2 -> fst (m w1) = fst (m w2)).

(** The slot a selected question fills, as (unit, label). *)
Definition slotKey (lb : Label) : Z * string := (l_unit lb, label lb).
Definition selKey (s : Selected) : Z * string := (unit (picked s), sel_label s).

(** Number of selected questions of a unit. *)
Definition countUnit (u : Z) (sel : list Selected) : nat :=
  length (filter (fun s => unit (picked s) = u) sel).

(** Number of slots of a unit. *)
Definition slotsOf (u : Z) (labels : list Label) : nat :=
  length (filter (fun lb => l_unit lb = u) labels).

Definition idsOf (sel : list Selected) : list nat := (fun s => id (picked s)) <$> sel.

(** The order the comparator of Part B induces. *)
Definition partBOrder (a b : Selected) : Prop :=
  unit (picked a) < unit (picked b) \/
  (unit (picked a) = unit (picked b) /\
   indexOf labelOrder (sel_label a) <= indexOf labelOrder (sel_label b)).

(** What holds between the slots already filled and the state of a
    selection loop that draws from [source]. *)
Record SlotInv (source : list Question) (partName : string) (pre : list Label)
    (selected : list Selected) (unitCount : gmap Z Num)
    (remaining : list Question) : Prop := {
  inv_remaining : remaining ⊆ source;
  inv_keys : selKey <$> selected = slotKey <$> pre;
  inv_from : Forall (fun s => picked s ∈ source /\ part s = partName) selected;
  inv_fresh : forall s r, s ∈ selected -> r ∈ remaining -> id r <> id (picked s);
  inv_nodup : NoDup (idsOf selected);
  inv_count : forall u, 1 <= u <= 5 -> readCount unitCount u = Some (slotsOf u pre)
}.

(** The comparator reads only the unit and the label. *)
Definition compareKeys (a b : Z * string) : Z :=
  if decide (fst a <> fst b) then fst a - fst b
  else indexOf labelOrder (snd a) - indexOf labelOrder (snd b).

Definition keysOrder (a b : Z * string) : Prop := compareKeys a b <= 0.

#[global] Instance keysOrder_dec a b : Decision (keysOrder a b).
Proof. unfold keysOrder. apply _. Defined.

(** What a plan that passed Steps 1 to 6 is made of. *)
Record PlanFor (paperType : string) (bank : list Question) (plan : Plan) : Prop := {
  pf_size : (17 <= length bank)%nat;
  pf_partA : partAQuestions plan = partAQuestionsOf bank;
  pf_partB : partBQuestions plan = partBQuestionsOf bank;
  pf_reqA : partAUnitRequirementsFor paperType = Some (partAUnitRequirements plan);
  pf_reqB : unitRequirementsFor paperType = Some (unitRequirements plan);
  pf_labelsB : questionLabelsFor paperType = Some (questionLabels plan);
  pf_labelsA : partALabelsFor paperType = Some (partALabels plan);
  pf_avail : availableBTLs plan = availableBTLsOf (partBQuestionsOf bank);
  pf_enoughA : Forall (fun req => pa_count req <=
                 length (filter (unitIs (pa_unit req)) (partAQuestionsOf bank)))%nat
                 (partAUnitRequirements plan);
  pf_enoughB : Forall (fun req => minCount req <=
                 length (filter (unitIs (ur_unit req)) (partBQuestionsOf bank)))%nat
                 (unitRequirements plan)
}.

(** What a returned paper is made of: both parts fill their slots from
    their own share of the bank, and Part B is then sorted. *)
Record PaperFor (bank : list Question) (labelsA labelsB : list Label)
    (unsorted : list Selected) (paper : Paper) : Prop := {
  pp_partA : exists unitCount remaining,
      SlotInv (partAQuestionsOf bank) "A" labelsA (partA paper) unitCount remaining;
  pp_partB : exists unitCount remaining,
      SlotInv (partBQuestionsOf bank) "B" labelsB unsorted unitCount remaining;
  pp_sorted : partB paper = sortBy compareSelected unsorted
}.



(** The questions a Part B slot may take: those left of the slot's unit
    and the wanted level or, when there is none, those left of the unit. *)
Definition strictMatches (btl : option string) (u : Z) (remaining : list Question)
  : list Question :=
  filter (fun q => unit q = u /\ Some (btLevel q) = btl) remaining.
Definition relaxedMatches (u : Z) (remaining : list Question) : list Question :=
  filter (fun q => unit q = u) remaining.
Definition eligible (btl : option string) (u : Z) (remaining : list Question)
  : list Question :=
  if decide (strictMatches btl u remaining = []) then relaxedMatches u remaining
  else strictMatches btl u remaining.

(** What the working copy still holds, when the ids of [source] are
    unique: each filled slot took exactly one question of its unit. *)
Record Avail (source : list Question) (pre : list Label)
    (remaining : list Question) : Prop := {
  av_nodup : NoDup (id <$> remaining);
  av_count : forall u,
      (length (filter (unitIs u) remaining) + slotsOf u pre =
       length (filter (unitIs u) source))%nat
}.

(** The per-unit counts Steps 2 asks of a bank for a paper type. *)
Definition enoughFor (paperType : string) (bank : list Question) : Prop :=
  exists reqsA reqsB,
    partAUnitRequirementsFor paperType = Some reqsA /\
    unitRequirementsFor paperType = Some reqsB /\
    Forall (fun req => pa_count req <=
              length (filter (unitIs (pa_unit req)) (partAQuestionsOf bank)))%nat reqsA /\
    Forall (fun req => minCount req <=
              length (filter (unitIs (ur_unit req)) (partBQuestionsOf bank)))%nat reqsB.

(** The six fields both handlers require. *)
Definition requiredFields (q : Question) : list string :=
  [subjectCode q; subject q; branch q; regulation q; year q; semester q].

(** A computation whose thrown errors all satisfy [P]. *)
Definition throwsOnly {A} (P : Error -> Prop) (m : M A) : Prop :=
  forall w e w', m w = (Throw e, w') -> P e.

(** The errors Steps 7 and 8 can throw. *)
Definition selectionError (e : Error) : Prop :=
  match e with
  | ENoL1ForUnit _ | ENoQuestionsForUnit _ | EUnitExactly _ _ _
  | EUnitAtLeast _ _ _ | ENotFive | ENotTwelve | ETypeError => True
  | _ => False
  end.

(** What a failing verdict of Steps 1 to 6 can be. *)
Inductive Verdict (paperType : string) (w : World) : Error -> Prop :=
| VNoBank : questionBank w = None -> Verdict paperType w ETypeError
| VSmall bank :
    questionBank w = Some bank -> (length bank < 17)%nat ->
    Verdict paperType w (EInsufficientBank (length bank))
| VPaperType bank :
    questionBank w = Some bank -> (17 <= length bank)%nat ->
    paperType ∉ ["mid1"; "mid2"] ->
    Verdict paperType w EInvalidPaperType
| VPartA bank pre req post :
    questionBank w = Some bank -> (17 <= length bank)%nat ->
    partAUnitRequirementsFor paperType = Some (pre ++ req :: post) ->
    Forall (fun r => pa_count r <=
              length (filter (unitIs (pa_unit r)) (partAQuestionsOf bank)))%nat pre ->
    (length (filter (unitIs (pa_unit req)) (partAQuestionsOf bank)) < pa_count req)%nat ->
    Verdict paperType w
      (EInsufficientL1 (pa_unit req)
         (length (filter (unitIs (pa_unit req)) (partAQuestionsOf bank))) (pa_count req))
| VPartB bank reqsA pre req post :
    questionBank w = Some bank -> (17 <= length bank)%nat ->
    partAUnitRequirementsFor paperType = Some reqsA ->
    Forall (fun r => pa_count r <=
              length (filter (unitIs (pa_unit r)) (partAQuestionsOf bank)))%nat reqsA ->
    unitRequirementsFor paperType = Some (pre ++ req :: post) ->
    Forall (fun r => minCount r <=
              length (filter (unitIs (ur_unit r)) (partBQuestionsOf bank)))%nat pre ->
    (length (filter (unitIs (ur_unit req)) (partBQuestionsOf bank)) < minCount req)%nat ->
    Verdict paperType w
      (EInsufficientPartB (ur_unit req)
         (length (filter (unitIs (ur_unit req)) (partBQuestionsOf bank))) (minCount req))
| VStep3 bank :
    questionBank w = Some bank -> enoughFor paperType bank ->
    Exists breaksStep3 (partBQuestionsOf bank) ->
    Verdict paperType w ETypeError
| VNoLevel bank :
    questionBank w = Some bank -> enoughFor paperType bank ->
    ~ Exists breaksStep3 (partBQuestionsOf bank) ->
    btLevelsOf (partBQuestionsOf bank) = [] ->
    Verdict paperType w ENoValidBTL
| VUnsupported bank :
    questionBank w = Some bank -> enoughFor paperType bank ->
    ~ Exists breaksStep3 (partBQuestionsOf bank) ->
    btLevelsOf (partBQuestionsOf bank) <> [] ->
    Verdict paperType w
      (EUnsupportedCase (maxOf (btLevelsOf (partBQuestionsOf bank)))
         (availableBTLsOf (partBQuestionsOf bank))).

(** What an accepted upload guarantees of the bank it stores. *)
Record AcceptedBank (bank : list Question) : Prop := {
  ab_size : (17 <= length bank)%nat;
  ab_valid : Forall (fun q => btLevel q ∈ validBTLevels /\ unit q ∈ validUnits) bank;
  ab_ids : NoDup (id <$> bank)
}.

(** The levels a rule can ask for, and the slots the rules cover. *)
Definition ruleLevels (req : BtlReq) : list string :=
  if decide (level req = "random") then options req else [level req].
Definition totalCount (reqs : list BtlReq) : nat := sum_list (count <$> reqs).

(** A rule that always yields a level: at least one, none empty. *)
Definition ruleOk (req : BtlReq) : Prop :=
  ruleLevels req <> [] /\ Forall (fun l => l <> "") (ruleLevels req).

(** The error of the first check of [server.js] before Step 4 that fails
    on a bank (the size, Step 1, Step 2, Step 3), and 'Invalid paper type'
    when none does. *)
Definition legacyFirstError (questionBank : option (list Legacy.Question)) : Legacy.Error :=
  match questionBank with
  | None => Legacy.EInsufficientBank
  | Some qs =>
      if decide (length qs < 6)%nat then Legacy.EInsufficientBank
      else if decide (Exists Legacy.breaksStep1 qs) then Legacy.ETypeError
      else if decide (length (Legacy.btLevelsOf qs) = 0)%nat then Legacy.ENoValidBTL
      else match Legacy.btlRequirementsOf (maxOf (Legacy.btLevelsOf qs))
                   (Legacy.availableBTLsOf qs) with
           | inl e => e
           | inr _ => Legacy.EInvalidPaperType
           end
  end.

(** *** The earlier server *)

(** The levels a rule asks for: [count] questions of its level, or of one
    of its [options] each. *)
Definition meetsRule (req : BtlReq) (levels : list string) : Prop :=
  length levels = count req /\
  Forall (fun l => if decide (level req = "random") then l ∈ options req
                   else l = level req) levels.

(** What the locals of [selectQuestions] satisfy between two picks. *)
Record LegacyInv (bank : list Legacy.Question) (unitReqs : list UnitReq)
    (st : LegacySelection.State) : Prop := {
  li_count : forall u n,
    readCount (LegacySelection.unitCount st) u = Some n ->
    n = length (LegacySelection.ofUnit u (LegacySelection.selectedQuestions st));
  li_keys : forall u, 1 <= u <= 5 -> is_Some (readCount (LegacySelection.unitCount st) u);
  li_units : forall q, q ∈ LegacySelection.selectedQuestions st ->
    is_Some (LegacySelection.findReq unitReqs (Legacy.unit q));
  li_max : forall u r, LegacySelection.findReq unitReqs u = Some r ->
    (length (LegacySelection.ofUnit u (LegacySelection.selectedQuestions st)) <= maxCount r)%nat;
  li_fresh : forall r, r ∈ LegacySelection.remainingQuestions st ->
    Legacy.id r ∉ Legacy.id <$> LegacySelection.selectedQuestions st;
  li_nodup : NoDup (Legacy.id <$> LegacySelection.selectedQuestions st);
  li_selected : forall q, q ∈ LegacySelection.selectedQuestions st -> q ∈ bank;
  li_remaining : forall q, q ∈ LegacySelection.remainingQuestions st -> q ∈ bank
}.

(** One successful round of a [while] loop of Step 5: a question [q] of a
    level satisfying [P] moves from the remaining ones to the selected. *)
Definition picks (unitReqs : list UnitReq) (P : string -> Prop)
    (st st' : LegacySelection.State) : Prop :=
  exists q,
    q ∈ LegacySelection.remainingQuestions st /\
    LegacySelection.canPick unitReqs (LegacySelection.unitCount st) (Legacy.btLevel q) q /\
    P (Legacy.btLevel q) /\
    st' = {| LegacySelection.selectedQuestions := LegacySelection.selectedQuestions st ++ [q];
             LegacySelection.unitCount :=
               increment (Legacy.unit q) (LegacySelection.unitCount st);
             LegacySelection.btlCount :=
               incrementBtl (Legacy.btLevel q) (LegacySelection.btlCount st);
             LegacySelection.remainingQuestions :=
               filter (fun r => Legacy.id r <> Legacy.id q)
                      (LegacySelection.remainingQuestions st) |}.

(** ** The monad *)

Lemma bind_Return {A B} (m : M A) (k : A -> M B) w b w' :
  bind m k w = (Return b, w') ->
  exists a w1, m w = (Return a, w1) /\ k a w1 = (Return b, w').
Proof.
  unfold bind. destruct (m w) as [[a|e] w1]; intros H; [eauto | discriminate].
Qed.

Lemma bind_Throw {A B} (m : M A) (k : A -> M B) w e w' :
  bind m k w = (Throw e, w') ->
  m w = (Throw e, w') \/ exists a w1, m w = (Return a, w1) /\ k a w1 = (Throw e, w').
Proof.
  unfold bind. destruct (m w) as [[a|e1] w1]; intros H; [right; eauto |].
  inversion H; subst. by left.
Qed.

Lemma ret_Return {A} (a b : A) w w' : ret a w = (Return b, w') -> a = b /\ w = w'.
Proof. unfold ret. intros H. by inversion H. Qed.

Lemma randomIndex_Return n w i w' :
  randomIndex n w = (Return i, w') ->
  questionBank w' = questionBank w /\ (n <> 0 -> i < n)%nat.
Proof.
  unfold randomIndex. destruct (randomSource w) as [|r rs]; intros H; inversion H; subst.
  - split; [done | lia].
  - split; [done |]. destruct n as [|n]; [lia | intros _; apply Nat.mod_upper_bound; lia].
Qed.

(** Every index below [n] is drawn for some value of the source. *)
Lemma randomIndex_covers n i bank rs :
  (i < n)%nat ->
  randomIndex n {| questionBank := bank; randomSource := i :: rs |} =
  (Return i, {| questionBank := bank; randomSource := rs |}).
Proof.
  intros Hi. unfold randomIndex. simpl. destruct n as [|n]; [lia|].
  by rewrite Nat.mod_small.
Qed.

(** Loop invariants indexed by the slots already handled. *)
Lemma forOf_invariant {A S} (I : list A -> S -> Prop) (body : A -> S -> M S) :
  (forall pre x s w s' w', I pre s -> body x s w = (Return s', w') -> I (pre ++ [x]) s') ->
  forall xs pre s w s' w',
    I pre s -> forOf xs body s w = (Return s', w') -> I (pre ++ xs) s'.
Proof.
  intros Hstep xs. induction xs as [|x xs IH]; intros pre s w s' w' HI Hrun; simpl in Hrun.
  - apply ret_Return in Hrun as [-> _]. by rewrite app_nil_r.
  - apply bind_Return in Hrun as (s1 & w1 & Hx & Hrest).
    replace (pre ++ x :: xs) with ((pre ++ [x]) ++ xs) by (by rewrite <- app_assoc).
    eapply IH; [|exact Hrest]. eapply Hstep; eauto.
Qed.

(** *** Nothing writes the bank *)

Lemma keepsBank_ret {A} (a : A) : keepsBank (ret a).
Proof. by intros w. Qed.

Lemma keepsBank_throw {A} e : keepsBank (@throw A e).
Proof. by intros w. Qed.

Lemma keepsBank_bind {A B} (m : M A) (k : A -> M B) :
  keepsBank m -> (forall a, keepsBank (k a)) -> keepsBank (bind m k).
Proof.
  intros Hm Hk w. unfold bind. specialize (Hm w).
  destruct (m w) as [[a|e] w1]; simpl in *; [|done].
  by rewrite Hk.
Qed.

Lemma keepsBank_getQuestionBank : keepsBank getQuestionBank.
Proof. by intros w. Qed.

Lemma keepsBank_randomIndex n : keepsBank (randomIndex n).
Proof. intros w. unfold randomIndex. by destruct (randomSource w). Qed.

Lemma keepsBank_forOf {A S} (xs : list A) (body : A -> S -> M S) s :
  (forall x s, keepsBank (body x s)) -> keepsBank (forOf xs body s).
Proof.
  intros Hb. revert s. induction xs as [|x xs IH]; intros s; simpl.
  - apply keepsBank_ret.
  - apply keepsBank_bind; auto.
Qed.

Create HintDb bank discriminated.
#[local] Hint Resolve keepsBank_ret keepsBank_throw keepsBank_getQuestionBank
  keepsBank_randomIndex : bank.

Ltac keeps_bank :=
  repeat first
    [ progress auto with bank
    | apply keepsBank_bind; [|intros ?]
    | apply keepsBank_forOf; intros ? ?
    | match goal with
      | |- keepsBank (if ?c then _ else _) => destruct c
      | |- keepsBank (match ?x with _ => _ end) => destruct x
      end ].

Lemma keepsBank_pickQuestionFromUnitA u st : keepsBank (pickQuestionFromUnitA u st).
Proof. unfold pickQuestionFromUnitA. keeps_bank. Qed.
#[local] Hint Resolve keepsBank_pickQuestionFromUnitA : bank.

Lemma keepsBank_selectPartAQuestions qs reqs labels :
  keepsBank (selectPartAQuestions qs reqs labels).
Proof. unfold selectPartAQuestions, fillSlotA, validateUnitA. keeps_bank. Qed.

Lemma keepsBank_takeBtl reqs : keepsBank (takeBtl reqs).
Proof. induction reqs as [|req rest IH]; simpl; keeps_bank. Qed.

Lemma keepsBank_unitIsFull unitReqs unitCount u :
  keepsBank (unitIsFull unitReqs unitCount u).
Proof. unfold unitIsFull. keeps_bank. Qed.
#[local] Hint Resolve keepsBank_takeBtl keepsBank_unitIsFull : bank.

Lemma keepsBank_pickQuestionFromUnitB unitReqs btl u st :
  keepsBank (pickQuestionFromUnitB unitReqs btl u st).
Proof. unfold pickQuestionFromUnitB. keeps_bank. Qed.
#[local] Hint Resolve keepsBank_pickQuestionFromUnitB : bank.

Lemma keepsBank_neededBtl avail reqs : keepsBank (neededBtl avail reqs).
Proof. unfold neededBtl. keeps_bank. Qed.
#[local] Hint Resolve keepsBank_neededBtl : bank.

Lemma keepsBank_selectPartBQuestions qs avail btlReqs unitReqs labels :
  keepsBank (selectPartBQuestions qs avail btlReqs unitReqs labels).
Proof. unfold selectPartBQuestions, fillSlotB, validateUnitB. keeps_bank. Qed.
#[local] Hint Resolve keepsBank_selectPartAQuestions keepsBank_selectPartBQuestions : bank.

Lemma keepsBank_prepare paperType : keepsBank (prepare paperType).
Proof. unfold prepare, checkPartA, checkPartB, btlRequirementsOf. keeps_bank. Qed.

Lemma keepsBank_select plan : keepsBank (select plan).
Proof. unfold select. keeps_bank. Qed.

Lemma keepsBank_generateQuestions paperType : keepsBank (generateQuestions paperType).
Proof.
  unfold generateQuestions.
  apply keepsBank_bind; [apply keepsBank_prepare | intros; apply keepsBank_select].
Qed.

(** *** Steps 1 to 6 draw nothing *)

Lemma drawFree_ret {A} (a : A) : drawFree (ret a).
Proof. by split. Qed.

Lemma drawFree_throw {A} e : drawFree (@throw A e).
Proof. by split. Qed.

Lemma drawFree_getQuestionBank : drawFree getQuestionBank.
Proof. split; [done|]. intros w1 w2 H. unfold getQuestionBank. simpl. by rewrite H. Qed.

Lemma drawFree_bind {A B} (m : M A) (k : A -> M B) :
  drawFree m -> (forall a, drawFree (k a)) -> drawFree (bind m k).
Proof.
  intros [Hm1 Hm2] Hk. split.
  - intros w. unfold bind. specialize (Hm1 w).
    destruct (m w) as [[a|e] w1]; simpl in *; subst; [apply Hk | done].
  - intros w1 w2 Hb. unfold bind.
    pose proof (Hm1 w1) as E1. pose proof (Hm1 w2) as E2. pose proof (Hm2 _ _ Hb) as E.
    destruct (m w1) as [[a1|e1] w1'], (m w2) as [[a2|e2] w2']; simpl in *; subst;
      try discriminate; inversion E; subst; [by apply Hk | done].
Qed.

Lemma drawFree_forOf {A S} (xs : list A) (body : A -> S -> M S) s :
  (forall x s, drawFree (body x s)) -> drawFree (forOf xs body s).
Proof.
  intros Hb. revert s. induction xs as [|x xs IH]; intros s; simpl.
  - apply drawFree_ret.
  - apply drawFree_bind; auto.
Qed.

Lemma drawFree_prepare paperType : drawFree (prepare paperType).
Proof.
  unfold prepare, checkPartA, checkPartB, btlRequirementsOf.
  repeat first
    [ apply drawFree_ret | apply drawFree_throw | apply drawFree_getQuestionBank
    | apply drawFree_bind; [|intros ?]
    | apply drawFree_forOf; intros ? ?
    | match goal with
      | |- drawFree (if ?c then _ else _) => destruct c
      | |- drawFree (match ?x with _ => _ end) => destruct x
      end ].
Qed.

Lemma generateQuestions_prepare_Throw paperType w e :
  fst (prepare paperType w) = Throw e -> generateQuestions paperType w = (Throw e, w).
Proof.
  intros H. unfold generateQuestions, bind.
  pose proof (proj1 (drawFree_prepare paperType) w) as Hw.
  destruct (prepare paperType w) as [[plan|e'] w1]; simpl in *; subst; congruence.
Qed.

(** *** Counters and the working copy *)

Lemma readCount_increment u v unitCount :
  readCount (increment u unitCount) v =
  if decide (u = v) then S <$> readCount unitCount u else readCount unitCount v.
Proof.
  unfold increment. unfold readCount at 1.
  case_decide as Huv.
  - subst v. rewrite lookup_insert_eq. by destruct (readCount unitCount u).
  - by rewrite lookup_insert_ne.
Qed.

Lemma readCount_initial u :
  1 <= u <= 5 -> readCount initialUnitCount u = Some 0%nat.
Proof.
  intros Hu. assert (u = 1 \/ u = 2 \/ u = 3 \/ u = 4 \/ u = 5) as H by lia.
  destruct H as [->|[->|[->|[->| ->]]]]; reflexivity.
Qed.

Lemma slotsOf_snoc u pre lb :
  slotsOf u (pre ++ [lb]) = (slotsOf u pre + if decide (l_unit lb = u) then 1 else 0)%nat.
Proof.
  unfold slotsOf. rewrite filter_app, length_app. f_equal.
  rewrite filter_cons, filter_nil. by case_decide.
Qed.

Lemma elem_of_removeById r q remaining :
  r ∈ removeById q remaining <-> id r <> id q /\ r ∈ remaining.
Proof. unfold removeById. by rewrite list_elem_of_filter. Qed.

Lemma idsOf_snoc sel s : idsOf (sel ++ [s]) = idsOf sel ++ [id (picked s)].
Proof. unfold idsOf. by rewrite fmap_app. Qed.

Lemma SlotInv_initial source partName :
  SlotInv source partName [] [] initialUnitCount source.
Proof.
  split; try done.
  - intros s r Hs. by apply elem_of_nil in Hs.
  - constructor.
  - intros u Hu. by rewrite readCount_initial.
Qed.

(** One more slot filled with a question of the working copy. *)
Lemma SlotInv_step source partName pre sel unitCount remaining lb q :
  SlotInv source partName pre sel unitCount remaining ->
  q ∈ remaining -> unit q = l_unit lb ->
  SlotInv source partName (pre ++ [lb])
    (sel ++ [{| picked := q; sel_label := label lb; part := partName |}])
    (increment (unit q) unitCount) (removeById q remaining).
Proof.
  intros [Hrem Hkeys Hfrom Hfresh Hnd Hcount] Hq Hu. split.
  - intros r Hr. apply elem_of_removeById in Hr as [_ Hr]. by apply Hrem.
  - rewrite !fmap_app, Hkeys. simpl. unfold selKey, slotKey. simpl. by rewrite Hu.
  - apply Forall_app. split; [done|]. repeat constructor. simpl. by apply Hrem.
  - intros s r Hs Hr. apply elem_of_removeById in Hr as [Hne Hr].
    apply elem_of_app in Hs as [Hs|Hs]; [by apply Hfresh|].
    apply list_elem_of_singleton in Hs. by subst s.
  - rewrite idsOf_snoc. apply NoDup_app. split; [done|]. split; [|apply NoDup_singleton].
    intros i Hi Hi'. apply list_elem_of_singleton in Hi'. subst i.
    unfold idsOf in Hi. apply list_elem_of_fmap in Hi as (s & Hid & Hs).
    simpl in Hid. by apply (Hfresh s q Hs Hq).
  - intros u Hu5. rewrite readCount_increment, slotsOf_snoc, <- Hu.
    case_decide as E.
    + subst u. rewrite Hcount by done. simpl. f_equal. lia.
    + rewrite Hcount by done. f_equal. lia.
Qed.

(** *** Part A *)

Lemma pickQuestionFromUnitA_Return u st w q st' w' :
  pickQuestionFromUnitA u st w = (Return (q, st'), w') ->
  q ∈ a_remaining st /\ unit q = u /\ btLevel q = "1" /\
  st' = {| a_selected := a_selected st;
           a_unitCount := increment (unit q) (a_unitCount st);
           a_remaining := removeById q (a_remaining st) |}.
Proof.
  unfold pickQuestionFromUnitA. case_decide as Hn; [discriminate|].
  intros H. apply bind_Return in H as (idx & w1 & _ & H).
  destruct (filter (isL1Of u) (a_remaining st) !! idx) as [q0|] eqn:Hq; [|discriminate].
  apply ret_Return in H as [H _]. inversion H; subst q0 st'.
  apply list_elem_of_lookup_2, list_elem_of_filter in Hq as [[Hu Hl] Hin]. done.
Qed.

Lemma fillSlotA_invariant source pre lb st w st' w' :
  SlotInv source "A" pre (a_selected st) (a_unitCount st) (a_remaining st) ->
  fillSlotA lb st w = (Return st', w') ->
  SlotInv source "A" (pre ++ [lb]) (a_selected st') (a_unitCount st') (a_remaining st').
Proof.
  intros Hinv H. unfold fillSlotA in H.
  apply bind_Return in H as ([q st1] & w1 & Hpick & H).
  apply ret_Return in H as [<- _]. simpl.
  apply pickQuestionFromUnitA_Return in Hpick as (Hq & Hu & _ & ->). simpl.
  by apply SlotInv_step.
Qed.

Lemma selectPartAQuestions_Return source unitReqs labels w sel w' :
  selectPartAQuestions source unitReqs labels w = (Return sel, w') ->
  exists unitCount remaining, SlotInv source "A" labels sel unitCount remaining.
Proof.
  unfold selectPartAQuestions. intros H.
  apply bind_Return in H as (st & w1 & Hloop & H).
  apply bind_Return in H as (? & w2 & _ & H).
  apply ret_Return in H as [<- _].
  exists (a_unitCount st), (a_remaining st).
  eapply (forOf_invariant
            (fun pre st => SlotInv source "A" pre (a_selected st) (a_unitCount st)
                             (a_remaining st))) with (pre := []) in Hloop; [exact Hloop| |].
  - intros. by eapply fillSlotA_invariant.
  - apply SlotInv_initial.
Qed.

(** *** Part B *)

Lemma pickQuestionFromUnitB_Return unitReqs btl u st w q st' w' :
  pickQuestionFromUnitB unitReqs btl u st w = (Return (q, st'), w') ->
  q ∈ b_remaining st /\ unit q = u /\
  st' = {| b_selected := b_selected st;
           b_unitCount := increment (unit q) (b_unitCount st);
           b_btlCount := incrementBtl (btLevel q) (b_btlCount st);
           b_remaining := removeById q (b_remaining st);
           b_btlReqs := b_btlReqs st |}.
Proof.
  unfold pickQuestionFromUnitB. intros H.
  apply bind_Return in H as (relaxed & w1 & _ & H).
  case_decide as Hn; [discriminate|].
  apply bind_Return in H as (idx & w2 & _ & H).
  match type of H with
  | context [?l !! idx] => destruct (l !! idx) as [q0|] eqn:Hq; [|discriminate]
  end.
  apply ret_Return in H as [H _]. inversion H; subst q0 st'.
  apply list_elem_of_lookup_2 in Hq.
  assert (q ∈ filter (unitIs u) (b_remaining st)) as Hin.
  { destruct relaxed; [done|]. by apply list_elem_of_filter in Hq as [_ Hq]. }
  apply list_elem_of_filter in Hin as [Hu Hin]. done.
Qed.

Lemma fillSlotB_invariant source unitReqs avail pre lb st w st' w' :
  SlotInv source "B" pre (b_selected st) (b_unitCount st) (b_remaining st) ->
  fillSlotB unitReqs avail lb st w = (Return st', w') ->
  SlotInv source "B" (pre ++ [lb]) (b_selected st') (b_unitCount st') (b_remaining st').
Proof.
  intros Hinv H. unfold fillSlotB in H.
  apply bind_Return in H as (n & w1 & _ & H).
  apply bind_Return in H as ([q st1] & w2 & Hpick & H).
  apply ret_Return in H as [<- _]. simpl.
  apply pickQuestionFromUnitB_Return in Hpick as (Hq & Hu & ->). simpl in *.
  by apply SlotInv_step.
Qed.

Lemma selectPartBQuestions_Return source avail btlReqs unitReqs labels w sel w' :
  selectPartBQuestions source avail btlReqs unitReqs labels w = (Return sel, w') ->
  exists sel0 unitCount remaining,
    SlotInv source "B" labels sel0 unitCount remaining /\
    sel = sortBy compareSelected sel0.
Proof.
  unfold selectPartBQuestions. intros H.
  apply bind_Return in H as (st & w1 & Hloop & H).
  apply bind_Return in H as (? & w2 & _ & H).
  apply ret_Return in H as [<- _].
  exists (b_selected st), (b_unitCount st), (b_remaining st). split; [|done].
  eapply (forOf_invariant
            (fun pre st => SlotInv source "B" pre (b_selected st) (b_unitCount st)
                             (b_remaining st))) with (pre := []) in Hloop; [exact Hloop| |].
  - intros. by eapply fillSlotB_invariant.
  - apply SlotInv_initial.
Qed.

(** *** The sort *)

Section SortFacts.
Context {A : Type} (cmp : A -> A -> Z).
Let R (a b : A) : Prop := cmp a b <= 0.

Lemma insertSorted_Permutation x l : insertSorted cmp x l ≡ₚ x :: l.
Proof.
  induction l as [|y l IH]; simpl; [done|].
  case_decide; [done|]. rewrite IH. apply Permutation_swap.
Qed.

Lemma sortBy_Permutation l : sortBy cmp l ≡ₚ l.
Proof.
  induction l as [|x l IH]; simpl; [done|].
  by rewrite insertSorted_Permutation, IH.
Qed.

Hypothesis R_total : forall a b, R a b \/ R b a.
Hypothesis R_trans : forall a b c, R a b -> R b c -> R a c.

Lemma insertSorted_StronglySorted x l :
  StronglySorted R l -> StronglySorted R (insertSorted cmp x l).
Proof.
  induction 1 as [|y l Hl IH Hy]; simpl.
  - repeat constructor.
  - case_decide as Hxy.
    + constructor; [by constructor|]. constructor; [done|].
      eapply Forall_impl; [exact Hy|]. intros z Hz. by eapply R_trans.
    + constructor; [done|].
      rewrite insertSorted_Permutation. constructor; [|done].
      destruct (R_total x y); [done | done].
Qed.

Lemma sortBy_StronglySorted l : StronglySorted R (sortBy cmp l).
Proof.
  induction l as [|x l IH]; simpl; [constructor|].
  by apply insertSorted_StronglySorted.
Qed.

(** Sorting a sorted array changes nothing. *)
Lemma sortBy_Sorted_id l : Sorted R l -> sortBy cmp l = l.
Proof.
  induction 1 as [|x l Hl IH Hx]; simpl; [done|].
  rewrite IH. destruct Hx as [|y l' Hxy]; simpl; [done|]. by rewrite decide_True.
Qed.
End SortFacts.

(** *** The comparator *)

Lemma compareSelected_le a b : compareSelected a b <= 0 <-> partBOrder a b.
Proof.
  unfold compareSelected, partBOrder. case_decide as Hu; [lia|].
  assert (unit (picked a) = unit (picked b)) by (destruct (decide (unit (picked a) = unit (picked b))); [done | contradiction]).
  lia.
Qed.

Lemma compareSelected_total a b : compareSelected a b <= 0 \/ compareSelected b a <= 0.
Proof. rewrite !compareSelected_le. unfold partBOrder. lia. Qed.

Lemma compareSelected_trans a b c :
  compareSelected a b <= 0 -> compareSelected b c <= 0 -> compareSelected a c <= 0.
Proof. rewrite !compareSelected_le. unfold partBOrder. lia. Qed.

Lemma compareSelected_keys a b : compareSelected a b = compareKeys (selKey a) (selKey b).
Proof. done. Qed.

Lemma Sorted_selKey sel :
  Sorted keysOrder (selKey <$> sel) ->
  Sorted (fun a b => compareSelected a b <= 0) sel.
Proof.
  induction sel as [|s sel IH]; simpl; intros H; [constructor|].
  inversion H as [|? ? Hs Hhd]; subst. constructor; [by apply IH|].
  destruct sel as [|s' sel]; constructor. inversion Hhd; subst.
  by rewrite compareSelected_keys.
Qed.

(** *** Steps 1 to 6 *)

Lemma forOf_checkPartA_Return qs reqs w w' :
  forOf reqs (checkPartA qs) () w = (Return (), w') ->
  Forall (fun req => pa_count req <= length (filter (unitIs (pa_unit req)) qs))%nat reqs.
Proof.
  revert w. induction reqs as [|req reqs IH]; intros w H; simpl in H; [constructor|].
  apply bind_Return in H as ([] & w1 & Hc & H).
  unfold checkPartA in Hc. case_decide; [discriminate|].
  constructor; [lia | eauto].
Qed.

Lemma forOf_checkPartB_Return qs reqs w w' :
  forOf reqs (checkPartB qs) () w = (Return (), w') ->
  Forall (fun req => minCount req <= length (filter (unitIs (ur_unit req)) qs))%nat reqs.
Proof.
  revert w. induction reqs as [|req reqs IH]; intros w H; simpl in H; [constructor|].
  apply bind_Return in H as ([] & w1 & Hc & H).
  unfold checkPartB in Hc. case_decide; [discriminate|].
  constructor; [lia | eauto].
Qed.

Lemma prepare_Return paperType w plan w' :
  prepare paperType w = (Return plan, w') ->
  w' = w /\ exists bank, questionBank w = Some bank /\ PlanFor paperType bank plan.
Proof.
  intros H. split.
  { pose proof (proj1 (drawFree_prepare paperType) w) as E. by rewrite H in E. }
  unfold prepare in H.
  apply bind_Return in H as (ob & w1 & Hb & H).
  apply ret_Return in Hb as [<- <-].
  destruct (questionBank w) as [bank|]; [|discriminate].
  exists bank. split; [done|].
  case_decide as Hsz; [discriminate|].
  destruct (partAUnitRequirementsFor paperType) as [reqA|] eqn:EA; [|discriminate].
  destruct (unitRequirementsFor paperType) as [reqB|] eqn:EB; [|discriminate].
  apply bind_Return in H as ([] & w2 & HcA & H).
  apply bind_Return in H as ([] & w3 & HcB & H).
  case_decide as Hstep3; [discriminate|].
  case_decide as Hlv; [discriminate|].
  apply bind_Return in H as (btlReqs & w4 & Hbtl & H).
  destruct (questionLabelsFor paperType) as [lbB|] eqn:ELB; [|discriminate].
  destruct (partALabelsFor paperType) as [lbA|] eqn:ELA; [|discriminate].
  apply ret_Return in H as [<- _].
  split; simpl; try done; [lia | by eapply forOf_checkPartA_Return
                               | by eapply forOf_checkPartB_Return].
Qed.

(** *** A returned paper *)

Lemma generateQuestions_Return paperType w paper w' :
  generateQuestions paperType w = (Return paper, w') ->
  exists bank labelsA labelsB unsorted,
    questionBank w = Some bank /\ (17 <= length bank)%nat /\
    partALabelsFor paperType = Some labelsA /\
    questionLabelsFor paperType = Some labelsB /\
    PaperFor bank labelsA labelsB unsorted paper.
Proof.
  unfold generateQuestions. intros H.
  apply bind_Return in H as (plan & w1 & Hp & H).
  apply prepare_Return in Hp as [-> (bank & Hb & Hplan)].
  unfold select in H.
  apply bind_Return in H as (selA & w2 & HA & H).
  apply bind_Return in H as (selB & w3 & HB & H).
  case_decide; [discriminate|]. case_decide; [discriminate|].
  apply ret_Return in H as [<- _].
  apply selectPartAQuestions_Return in HA.
  apply selectPartBQuestions_Return in HB as (sel0 & uc & rem & HinvB & Hsort).
  rewrite (pf_partA _ _ _ Hplan) in HA. rewrite (pf_partB _ _ _ Hplan) in HinvB.
  exists bank, (partALabels plan), (questionLabels plan), sel0.
  repeat split; try apply Hplan; eauto.
Qed.

(** *** Counting and identity *)


Lemma countUnit_Permutation u sel sel' :
  sel ≡ₚ sel' -> countUnit u sel = countUnit u sel'.
Proof. intros H. unfold countUnit. by rewrite H. Qed.

Lemma NoDup_fmap_eq {A B} (f : A -> B) (l : list A) x y :
  NoDup (f <$> l) -> x ∈ l -> y ∈ l -> f x = f y -> x = y.
Proof.
  induction l as [|a l IH]; simpl; intros Hnd Hx Hy Hf; [by apply elem_of_nil in Hx|].
  apply NoDup_cons in Hnd as [Ha Hnd].
  apply elem_of_cons in Hx as [->|Hx]; apply elem_of_cons in Hy as [->|Hy]; auto.
  - exfalso. apply Ha. rewrite Hf. by apply list_elem_of_fmap_2.
  - exfalso. apply Ha. rewrite <- Hf. by apply list_elem_of_fmap_2.
Qed.

Lemma processExcelData_ids f g h rows :
  NoDup (id <$> processExcelData f g h rows).
Proof.
  unfold processExcelData.
  eapply sublist_NoDup; [|apply fmap_sublist, sublist_filter].
  rewrite fmap_imap.
  rewrite (imap_ext _ (fun j _ => (j + 1)%nat)) by done.
  rewrite imap_seq_0. apply NoDup_fmap_2; [|apply NoDup_seq].
  intros a b. lia.
Qed.

Lemma selected_ids_distinct_of_unique_ids paperType w bank paper w' :
  questionBank w = Some bank -> NoDup (id <$> bank) ->
  generateQuestions paperType w = (Return paper, w') ->
  NoDup (idsOf (partA paper ++ partB paper)).
Proof.
  intros Hbank Hnd H.
  apply generateQuestions_Return in H
    as (bank' & lA & lB & sel0 & Hb & _ & _ & _ & [HA HB Hsort]).
  rewrite Hbank in Hb. inversion Hb; subst bank'. clear Hb.
  destruct HA as (ucA & remA & HA). destruct HB as (ucB & remB & HB).
  assert (partB paper ≡ₚ sel0) as HpB by (rewrite Hsort; apply sortBy_Permutation).
  unfold idsOf. rewrite fmap_app. apply NoDup_app. repeat split.
  - apply (inv_nodup _ _ _ _ _ _ HA).
  - intros i Hi Hi'.
    apply list_elem_of_fmap in Hi as (sa & -> & Hsa).
    apply list_elem_of_fmap in Hi' as (sb & Hid & Hsb).
    rewrite HpB in Hsb.
    pose proof (inv_from _ _ _ _ _ _ HA) as FA. pose proof (inv_from _ _ _ _ _ _ HB) as FB.
    rewrite Forall_forall in FA, FB.
    destruct (FA _ Hsa) as [Ha _]. destruct (FB _ Hsb) as [Hb _].
    apply list_elem_of_filter in Ha as [[Hla _] Ha].
    apply list_elem_of_filter in Hb as [[Hlb _] Hb].
    apply Hlb. rewrite <- (NoDup_fmap_eq id bank _ _ Hnd Ha Hb Hid). done.
  - change (NoDup (idsOf (partB paper))). unfold idsOf. rewrite HpB.
    apply (inv_nodup _ _ _ _ _ _ HB).
Qed.

(** *** The catalog *)


Lemma questionLabels_sorted paperType labels :
  questionLabelsFor paperType = Some labels ->
  Sorted keysOrder (slotKey <$> labels).
Proof.
  unfold questionLabelsFor.
  repeat case_decide; intros Hcat; inversion Hcat; subst labels;
    apply (bool_decide_unpack _); vm_compute; exact I.
Qed.

(** For both paper types the slots are listed in sorted order already, so
    the sort of Part B leaves every question in its slot. *)
Lemma partB_in_slot_order paperType bank labelsA labelsB unsorted paper :
  questionLabelsFor paperType = Some labelsB ->
  PaperFor bank labelsA labelsB unsorted paper ->
  partB paper = unsorted /\ selKey <$> partB paper = slotKey <$> labelsB.
Proof.
  intros Hcat [_ (uc & rem & HB) Hsort].
  pose proof (inv_keys _ _ _ _ _ _ HB) as Hkeys.
  assert (partB paper = unsorted) as E.
  { rewrite Hsort. apply sortBy_Sorted_id, Sorted_selKey. rewrite Hkeys.
    by eapply questionLabels_sorted. }
  by rewrite E.
Qed.

Lemma StronglySorted_impl {A} (R1 R2 : A -> A -> Prop) l :
  (forall a b, R1 a b -> R2 a b) -> StronglySorted R1 l -> StronglySorted R2 l.
Proof.
  intros HR. induction 1 as [|x l Hl IH Hx]; constructor; [done|].
  eapply Forall_impl; [exact Hx | apply HR].
Qed.

(** *** Normalization *)

Lemma processExcelData_elem f g h rows q :
  q ∈ processExcelData f g h rows <->
  exists i row, rows !! i = Some row /\ q = makeQuestion f g h i row /\
                1 <= unit q <= 5 /\ btLevel q <> "0".
Proof.
  unfold processExcelData. rewrite list_elem_of_filter, elem_of_lookup_imap.
  unfold keepQuestion. split.
  - intros [(H1 & H5 & Hl) (i & row & -> & Hrow)]. exists i, row. eauto.
  - intros (i & row & Hrow & -> & [H1 H5] & Hl). eauto 10.
Qed.

Lemma legacy_processExcelData_elem f h rows pool q :
  Legacy.processExcelData f h rows = Some pool ->
  q ∈ pool <->
  exists i row, rows !! i = Some row /\ Legacy.makeQuestion f h i row = Some q /\
                1 <= Legacy.unit q <= 5 /\ Legacy.btLevel q <> "0".
Proof.
  unfold Legacy.processExcelData. intros H.
  apply fmap_Some in H as (made & Hmade & ->).
  apply mapM_Some in Hmade.
  rewrite list_elem_of_filter. unfold keepQuestion. split.
  - intros [(H1 & H5 & Hl) Hq]. apply list_elem_of_lookup in Hq as [i Hq].
    destruct (Forall2_lookup_r _ _ _ _ _ Hmade Hq) as ([j row] & Hrow & Hmk).
    rewrite list_lookup_imap in Hrow.
    destruct (rows !! i) as [row'|] eqn:E; simpl in Hrow; [|discriminate].
    inversion Hrow; subst j row'. simpl in Hmk. exists i, row. eauto.
  - intros (i & row & Hrow & Hmk & [H1 H5] & Hl). split; [done|].
    assert (imap pair rows !! i = Some (i, row)) as Hi
      by (by rewrite list_lookup_imap, Hrow).
    destruct (Forall2_lookup_l _ _ _ _ _ Hmade Hi) as (q' & Hq' & Hmk').
    simpl in Hmk'. rewrite Hmk in Hmk'. inversion Hmk'; subst q'.
    by eapply list_elem_of_lookup_2.
Qed.

(** *** The size gate *)

Lemma generateQuestions_small_bank paperType w bank :
  questionBank w = Some bank -> (length bank < 17)%nat ->
  generateQuestions paperType w = (Throw (EInsufficientBank (length bank)), w).
Proof.
  intros Hb Hlen. unfold generateQuestions, prepare, bind, getQuestionBank.
  rewrite Hb. by rewrite decide_True.
Qed.

(** *** Unknown paper types *)

Lemma unknown_catalog paperType :
  paperType ∉ ["mid1"; "mid2"] ->
  partAUnitRequirementsFor paperType = None /\ unitRequirementsFor paperType = None.
Proof.
  intros Hn. unfold partAUnitRequirementsFor, unitRequirementsFor.
  repeat case_decide; subst; try done; exfalso; apply Hn; set_solver.
Qed.

Lemma legacy_unknown_catalog paperType :
  paperType ∉ ["mid1"; "mid2"; "special"] ->
  Legacy.unitRequirementsFor paperType = None.
Proof.
  intros Hn. unfold Legacy.unitRequirementsFor.
  repeat case_decide; subst; try done; exfalso; apply Hn; set_solver.
Qed.

(** *** Filling one Part B slot *)

Lemma app_cons_lookup {A} (l pre post : list A) x :
  l = pre ++ x :: post ->
  l !! length pre = Some x /\ pre = take (length pre) l /\ (length pre < length l)%nat.
Proof.
  intros ->. split; [by rewrite list_lookup_middle|].
  split; [by rewrite take_app_length|]. rewrite length_app. simpl. lia.
Qed.

(** When a slot comes up, its unit has not reached its maximum. *)
Lemma slot_below_max paperType unitReqs pre lb post :
  unitRequirementsFor paperType = Some unitReqs ->
  questionLabelsFor paperType = Some (pre ++ lb :: post) ->
  1 <= l_unit lb <= 5 /\
  exists i r, list_find (fun r => ur_unit r = l_unit lb) unitReqs = Some (i, r) /\
              (slotsOf (l_unit lb) pre < maxCount r)%nat.
Proof.
  unfold unitRequirementsFor, questionLabelsFor.
  repeat case_decide; intros HU HL; try discriminate;
    inversion HU; subst unitReqs; inversion HL as [Hsplit];
    apply app_cons_lookup in Hsplit as (Hlb & Hpre & Hlen);
    simpl in Hlen; rewrite Hpre; clear Hpre HL HU;
    generalize dependent (length pre); clear pre; intros n Hlb Hlen;
    (do 12 (destruct n as [|n];
            [inversion Hlb; subst lb; split;
             [vm_compute; split; discriminate
             | eexists _, _; split; [vm_compute; reflexivity | vm_compute; lia]]|]));
    exfalso; lia.
Qed.

Lemma strictMatches_nested btl u remaining :
  filter (hasLevel btl) (filter (unitIs u) remaining) = strictMatches btl u remaining.
Proof.
  unfold strictMatches, hasLevel, unitIs.
  induction remaining as [|q l IH]; [done|].
  rewrite !filter_cons. repeat case_decide; try rewrite !filter_cons;
    repeat case_decide; rewrite ?IH; try done; tauto.
Qed.

Lemma strictMatches_relaxed btl u remaining :
  relaxedMatches u remaining = [] -> strictMatches btl u remaining = [].
Proof.
  unfold relaxedMatches, strictMatches.
  induction remaining as [|q l IH]; [done|].
  rewrite !filter_cons. repeat case_decide; try done; tauto.
Qed.

Lemma eligible_nil btl u remaining :
  eligible btl u remaining = [] <-> relaxedMatches u remaining = [].
Proof.
  unfold eligible. case_decide as Hs; [done|].
  split; [done|]. intros Hr. by apply (strictMatches_relaxed btl) in Hr.
Qed.

Lemma randomIndex_returns n w :
  exists idx w', randomIndex n w = (Return idx, w') /\ (n <> 0 -> idx < n)%nat.
Proof.
  destruct (randomIndex n w) as [[idx|e] w'] eqn:H.
  - exists idx, w'. split; [done|]. by apply randomIndex_Return in H as [_ H].
  - unfold randomIndex in H. by destruct (randomSource w).
Qed.

Lemma takeBtl_returns btlReqs w : exists n w', takeBtl btlReqs w = (Return n, w').
Proof.
  revert w. induction btlReqs as [|req rest IH]; intros w; simpl; [by eexists _, _|].
  case_decide.
  - case_decide.
    + unfold bind. destruct (randomIndex_returns (length (options req)) w)
        as (idx & w' & -> & _). by eexists _, _.
    + by eexists _, _.
  - unfold bind. destruct (IH w) as (n & w' & ->). by eexists _, _.
Qed.

Lemma neededBtl_returns avail btlReqs w :
  exists btl reqs' w', neededBtl avail btlReqs w = (Return (btl, reqs'), w').
Proof.
  unfold neededBtl, bind. destruct (takeBtl_returns btlReqs w) as ([btl reqs'] & w1 & ->).
  destruct (falsyBtl _).
  - destruct (randomIndex_returns (length avail) w1) as (idx & w2 & -> & _).
    by eexists _, _, _.
  - by eexists _, _, _.
Qed.

(** With the unit below its maximum, the pick is from [eligible]. *)
Lemma pickQuestionFromUnitB_eligible unitReqs btl u st w i r c :
  list_find (fun r => ur_unit r = u) unitReqs = Some (i, r) ->
  readCount (b_unitCount st) u = Some c -> (c < maxCount r)%nat ->
  pickQuestionFromUnitB unitReqs btl u st w =
  let cands := eligible btl u (b_remaining st) in
  if decide (length cands = 0)%nat then (Throw (ENoQuestionsForUnit u), w)
  else bind (randomIndex (length cands))
         (fun idx =>
            match cands !! idx with
            | None => throw ETypeError
            | Some q =>
                ret (q, {| b_selected := b_selected st;
                           b_unitCount := increment (unit q) (b_unitCount st);
                           b_btlCount := incrementBtl (btLevel q) (b_btlCount st);
                           b_remaining := removeById q (b_remaining st);
                           b_btlReqs := b_btlReqs st |})
            end) w.
Proof.
  intros Hfind Hcount Hlt. unfold pickQuestionFromUnitB.
  rewrite strictMatches_nested. unfold eligible.
  fold (relaxedMatches u (b_remaining st)).
  destruct (decide (length (strictMatches btl u (b_remaining st)) = 0)%nat) as [Hz|Hnz].
  - apply length_zero_iff_nil in Hz. rewrite (decide_True _ _ Hz).
    unfold bind at 1. simpl.
    change (relaxedMatches u (b_remaining st)) with (filter (unitIs u) (b_remaining st)).
    by case_decide.
  - assert (strictMatches btl u (b_remaining st) <> []) as Hne
      by (intros E; apply Hnz; by rewrite E).
    rewrite (decide_False _ _ Hne).
    unfold unitIsFull. rewrite Hfind, Hcount.
    rewrite bool_decide_eq_false_2 by lia.
    unfold bind at 1. simpl. by case_decide.
Qed.

(** A slot whose unit is below its maximum. *)
Lemma fillSlotB_eligible unitReqs avail lb st w i r c :
  list_find (fun r => ur_unit r = l_unit lb) unitReqs = Some (i, r) ->
  readCount (b_unitCount st) (l_unit lb) = Some c -> (c < maxCount r)%nat ->
  exists btl reqs' w1,
    neededBtl avail (b_btlReqs st) w = (Return (btl, reqs'), w1) /\
    match eligible btl (l_unit lb) (b_remaining st) with
    | [] => fillSlotB unitReqs avail lb st w = (Throw (ENoQuestionsForUnit (l_unit lb)), w1)
    | q0 :: cands' =>
        exists idx q w2,
          randomIndex (length (q0 :: cands')) w1 = (Return idx, w2) /\
          (q0 :: cands') !! idx = Some q /\
          fillSlotB unitReqs avail lb st w =
            (Return {| b_selected := b_selected st ++
                         [{| picked := q; sel_label := label lb; part := "B" |}];
                       b_unitCount := increment (unit q) (b_unitCount st);
                       b_btlCount := incrementBtl (btLevel q) (b_btlCount st);
                       b_remaining := removeById q (b_remaining st);
                       b_btlReqs := reqs' |}, w2)
    end.
Proof.
  intros Hfind Hcount Hlt.
  destruct (neededBtl_returns avail (b_btlReqs st) w) as (btl & reqs' & w1 & Hneed).
  exists btl, reqs', w1. split; [done|].
  assert (fillSlotB unitReqs avail lb st w =
          let cands := eligible btl (l_unit lb) (b_remaining st) in
          if decide (length cands = 0)%nat
          then (Throw (ENoQuestionsForUnit (l_unit lb)), w1)
          else match randomIndex (length cands) w1 with
               | (Return idx, w2) =>
                   match cands !! idx with
                   | Some q =>
                       (Return {| b_selected := b_selected st ++
                                    [{| picked := q; sel_label := label lb; part := "B" |}];
                                  b_unitCount := increment (unit q) (b_unitCount st);
                                  b_btlCount := incrementBtl (btLevel q) (b_btlCount st);
                                  b_remaining := removeById q (b_remaining st);
                                  b_btlReqs := reqs' |}, w2)
                   | None => (Throw ETypeError, w2)
                   end
               | (Throw e, w2) => (Throw e, w2)
               end) as Hfill.
  { unfold fillSlotB. unfold bind at 1. rewrite Hneed. unfold bind at 1. simpl.
    erewrite pickQuestionFromUnitB_eligible; [|exact Hfind|exact Hcount|exact Hlt].
    simpl. case_decide; [done|]. unfold bind.
    destruct (randomIndex _ w1) as [[idx|e] w2]; [|done].
    by destruct (eligible btl (l_unit lb) (b_remaining st) !! idx). }
  rewrite Hfill. clear Hfill. simpl.
  destruct (eligible btl (l_unit lb) (b_remaining st)) as [|q0 cands] eqn:Hc.
  - done.
  - rewrite decide_False by (simpl; lia).
    destruct (randomIndex_returns (length (q0 :: cands)) w1) as (idx & w2 & Hidx & Hb).
    destruct (lookup_lt_is_Some_2 (q0 :: cands) idx) as [q Hq]; [apply Hb; simpl; lia|].
    exists idx, q, w2. split; [done|]. split; [done|].
    by rewrite Hidx, Hq.
Qed.

Lemma partB_loop_invariant source unitReqs avail btlReqs pre w0 st w :
  forOf pre (fillSlotB unitReqs avail) (initialStateB source btlReqs) w0 = (Return st, w) ->
  SlotInv source "B" pre (b_selected st) (b_unitCount st) (b_remaining st).
Proof.
  intros Hloop.
  eapply (forOf_invariant
            (fun pre st => SlotInv source "B" pre (b_selected st) (b_unitCount st)
                             (b_remaining st))) with (pre := []) in Hloop;
    [exact Hloop | intros; by eapply fillSlotB_invariant | apply SlotInv_initial].
Qed.

(** ** When the checks pass, a paper is returned *)

Lemma forOf_progress {A S} (I : list A -> S -> Prop) (body : A -> S -> M S)
    (all : list A) :
  (forall pre x s w s' w', I pre s -> body x s w = (Return s', w') -> I (pre ++ [x]) s') ->
  (forall pre x post s w, all = pre ++ x :: post -> I pre s ->
                          exists s' w', body x s w = (Return s', w')) ->
  forall xs pre s w, all = pre ++ xs -> I pre s ->
    exists s' w', forOf xs body s w = (Return s', w') /\ I all s'.
Proof.
  intros Hstep Hprog xs. induction xs as [|x xs IH]; intros pre s w Hall HI; simpl.
  - rewrite app_nil_r in Hall. subst all. by eexists _, _.
  - destruct (Hprog pre x xs s w Hall HI) as (s1 & w1 & Hx).
    unfold bind. rewrite Hx.
    apply (IH (pre ++ [x])); [by rewrite <- app_assoc | by eapply Hstep].
Qed.

Lemma length_filter_removeById (P : Question -> Prop) `{!forall q, Decision (P q)}
    (l : list Question) q :
  NoDup (id <$> l) -> q ∈ l ->
  length (filter P l) =
  (length (filter P (removeById q l)) + if decide (P q) then 1 else 0)%nat.
Proof.
  unfold removeById. induction l as [|a l IH]; intros Hnd Hq; [by apply elem_of_nil in Hq|].
  rewrite fmap_cons in Hnd. apply NoDup_cons in Hnd as [Ha Hnd].
  apply elem_of_cons in Hq as [->|Hq].
  - rewrite (filter_cons_False (fun r => id r <> id a)) by tauto.
    assert (filter (fun r => id r <> id a) l = l) as ->.
    { clear IH Hnd. induction l as [|b l IH]; [done|].
      rewrite filter_cons_True.
      - f_equal. apply IH. intros Hin. apply Ha. rewrite fmap_cons. by right.
      - intros E. apply Ha. rewrite fmap_cons, E. left. }
    rewrite filter_cons. case_decide; simpl; lia.
  - assert (id a <> id q) as Hne.
    { intros E. apply Ha. rewrite E. by apply list_elem_of_fmap_2. }
    rewrite (filter_cons_True (fun r => id r <> id q)) by done.
    rewrite !(filter_cons P). specialize (IH Hnd Hq).
    destruct (decide (P a)); simpl; lia.
Qed.

Lemma Avail_initial source : NoDup (id <$> source) -> Avail source [] source.
Proof. intros Hnd. split; [done|]. intros u. unfold slotsOf. simpl. lia. Qed.

Lemma Avail_step source pre remaining lb q :
  Avail source pre remaining -> q ∈ remaining -> unit q = l_unit lb ->
  Avail source (pre ++ [lb]) (removeById q remaining).
Proof.
  intros [Hnd Hcount] Hq Hu. split.
  - eapply sublist_NoDup; [exact Hnd|]. apply fmap_sublist, sublist_filter.
  - intros u. specialize (Hcount u).
    rewrite (length_filter_removeById (unitIs u) remaining q Hnd Hq) in Hcount.
    rewrite slotsOf_snoc. unfold unitIs in *. rewrite <- Hu.
    repeat case_decide; try lia; congruence.
Qed.

(** A slot of a unit that still has as many questions as slots finds one. *)
Lemma Avail_nonempty source all pre lb post remaining :
  all = pre ++ lb :: post -> Avail source pre remaining ->
  (slotsOf (l_unit lb) all <= length (filter (unitIs (l_unit lb)) source))%nat ->
  filter (unitIs (l_unit lb)) remaining <> [].
Proof.
  intros -> [_ Hcount] Hle E. specialize (Hcount (l_unit lb)).
  rewrite E in Hcount. simpl in Hcount.
  unfold slotsOf in Hle. rewrite filter_app, length_app, filter_cons_True in Hle by done.
  unfold slotsOf in Hcount. simpl in Hle. lia.
Qed.

Lemma catalog_slots paperType reqsA reqsB labelsA labelsB :
  partAUnitRequirementsFor paperType = Some reqsA ->
  unitRequirementsFor paperType = Some reqsB ->
  partALabelsFor paperType = Some labelsA ->
  questionLabelsFor paperType = Some labelsB ->
  Forall (fun req => 1 <= pa_unit req <= 5 /\
                     slotsOf (pa_unit req) labelsA = pa_count req) reqsA /\
  Forall (fun req => 1 <= ur_unit req <= 5 /\
                     slotsOf (ur_unit req) labelsB = minCount req) reqsB /\
  Forall (fun lb => Exists (fun req => pa_unit req = l_unit lb) reqsA) labelsA /\
  Forall (fun lb => Exists (fun req => ur_unit req = l_unit lb) reqsB) labelsB.
Proof.
  unfold partAUnitRequirementsFor, unitRequirementsFor, partALabelsFor, questionLabelsFor.
  repeat case_decide; intros E1 E2 E3 E4; try discriminate;
    inversion E1; inversion E2; inversion E3; inversion E4; subst;
    (split; [|split; [|split]]); apply (bool_decide_unpack _); vm_compute; exact I.
Qed.

Lemma catalog_lengths paperType labelsA labelsB :
  partALabelsFor paperType = Some labelsA ->
  questionLabelsFor paperType = Some labelsB ->
  length labelsA = 5%nat /\ length labelsB = 12%nat.
Proof.
  unfold partALabelsFor, questionLabelsFor.
  repeat case_decide; intros E1 E2; try discriminate; inversion E1; inversion E2; done.
Qed.

Lemma forOf_validateUnitA_returns unitCount reqs w :
  Forall (fun req => readCount unitCount (pa_unit req) = Some (pa_count req)) reqs ->
  forOf reqs (validateUnitA unitCount) () w = (Return (), w).
Proof.
  induction 1 as [|req reqs Hreq _ IH]; simpl; [done|].
  unfold bind, validateUnitA. by rewrite decide_True.
Qed.

Lemma forOf_validateUnitB_returns unitCount reqs w :
  Forall (fun req => exists c, readCount unitCount (ur_unit req) = Some c /\
                               (minCount req <= c)%nat) reqs ->
  forOf reqs (validateUnitB unitCount) () w = (Return (), w).
Proof.
  induction 1 as [|req reqs (c & Hc & Hle) _ IH]; simpl; [done|].
  unfold bind, validateUnitB. rewrite Hc. by rewrite decide_False by lia.
Qed.

Lemma pickQuestionFromUnitA_returns u st w :
  filter (isL1Of u) (a_remaining st) <> [] ->
  exists r w', pickQuestionFromUnitA u st w = (Return r, w').
Proof.
  intros Hne. unfold pickQuestionFromUnitA.
  rewrite decide_False by (by rewrite length_zero_iff_nil).
  destruct (randomIndex_returns (length (filter (isL1Of u) (a_remaining st))) w)
    as (idx & w' & Hidx & Hb).
  unfold bind. rewrite Hidx.
  destruct (lookup_lt_is_Some_2 (filter (isL1Of u) (a_remaining st)) idx) as [q Hq].
  { apply Hb. by rewrite length_zero_iff_nil. }
  rewrite Hq. by eexists _, _.
Qed.

Lemma selectPartAQuestions_returns source reqs labels w :
  NoDup (id <$> source) -> Forall (fun q => btLevel q = "1") source ->
  Forall (fun lb => slotsOf (l_unit lb) labels <=
                    length (filter (unitIs (l_unit lb)) source))%nat labels ->
  Forall (fun req => 1 <= pa_unit req <= 5 /\
                     slotsOf (pa_unit req) labels = pa_count req) reqs ->
  exists sel w', selectPartAQuestions source reqs labels w = (Return sel, w') /\
                 length sel = length labels.
Proof.
  intros Hnd HL1 Hslots Hreqs. unfold selectPartAQuestions.
  destruct (forOf_progress
              (fun pre st => SlotInv source "A" pre (a_selected st) (a_unitCount st)
                               (a_remaining st) /\ Avail source pre (a_remaining st))
              fillSlotA labels) with (xs := labels) (pre := @nil Label)
              (s := {| a_selected := []; a_unitCount := initialUnitCount;
                       a_remaining := source |}) (w := w)
    as (st & w1 & Hloop & Hinv & _).
  - intros pre lb st0 w0 st1 w1 [Hinv Hav] Hfill.
    split; [by eapply fillSlotA_invariant|].
    unfold fillSlotA in Hfill. apply bind_Return in Hfill as ([q st2] & w2 & Hpick & Hret).
    apply ret_Return in Hret as [<- _]. simpl.
    apply pickQuestionFromUnitA_Return in Hpick as (Hq & Hu & _ & ->). simpl.
    by apply Avail_step.
  - intros pre lb post st0 w0 Hall [Hinv Hav].
    assert (lb ∈ labels) as Hlb by (rewrite Hall; set_solver).
    rewrite Forall_forall in Hslots. specialize (Hslots lb Hlb).
    pose proof (Avail_nonempty _ _ _ _ _ _ Hall Hav Hslots) as Hne.
    destruct (filter (unitIs (l_unit lb)) (a_remaining st0)) as [|q qs] eqn:E; [done|].
    assert (q ∈ filter (unitIs (l_unit lb)) (a_remaining st0)) as Hq by (rewrite E; left).
    apply list_elem_of_filter in Hq as [Hu Hq].
    assert (btLevel q = "1") as Hl.
    { rewrite Forall_forall in HL1. apply HL1. by apply (inv_remaining _ _ _ _ _ _ Hinv). }
    destruct (pickQuestionFromUnitA_returns (l_unit lb) st0 w0) as (r & w' & Hpick).
    { intros E'. assert (q ∈ filter (isL1Of (l_unit lb)) (a_remaining st0)) as Hin
        by (apply list_elem_of_filter; split; [split|]; done).
      rewrite E' in Hin. by apply elem_of_nil in Hin. }
    unfold fillSlotA, bind. rewrite Hpick. by eexists _, _.
  - done.
  - split; [apply SlotInv_initial | by apply Avail_initial].
  - unfold bind at 1. rewrite Hloop. unfold bind.
    rewrite forOf_validateUnitA_returns.
    + eexists _, _. split; [done|].
      by rewrite <- (length_fmap selKey), (inv_keys _ _ _ _ _ _ Hinv), length_fmap.
    + eapply Forall_impl; [exact Hreqs|]. intros req [Hu Hc]. cbv beta.
      by rewrite (inv_count _ _ _ _ _ _ Hinv _ Hu), Hc.
Qed.

Lemma selectPartBQuestions_returns paperType source avail btlReqs unitReqs labels w :
  unitRequirementsFor paperType = Some unitReqs ->
  questionLabelsFor paperType = Some labels ->
  NoDup (id <$> source) ->
  Forall (fun lb => slotsOf (l_unit lb) labels <=
                    length (filter (unitIs (l_unit lb)) source))%nat labels ->
  Forall (fun req => 1 <= ur_unit req <= 5 /\
                     slotsOf (ur_unit req) labels = minCount req) unitReqs ->
  exists sel w', selectPartBQuestions source avail btlReqs unitReqs labels w
                 = (Return sel, w') /\
                 length sel = length labels.
Proof.
  intros HU HL Hnd Hslots Hreqs. unfold selectPartBQuestions.
  destruct (forOf_progress
              (fun pre st => SlotInv source "B" pre (b_selected st) (b_unitCount st)
                               (b_remaining st) /\ Avail source pre (b_remaining st))
              (fillSlotB unitReqs avail) labels) with (xs := labels) (pre := @nil Label)
              (s := initialStateB source btlReqs) (w := w)
    as (st & w1 & Hloop & Hinv & _).
  - intros pre lb st0 w0 st1 w1 [Hinv Hav] Hfill.
    split; [by eapply fillSlotB_invariant|].
    unfold fillSlotB in Hfill. apply bind_Return in Hfill as (n & w2 & _ & Hfill).
    apply bind_Return in Hfill as ([q st2] & w3 & Hpick & Hret).
    apply ret_Return in Hret as [<- _]. simpl.
    apply pickQuestionFromUnitB_Return in Hpick as (Hq & Hu & ->). simpl in *.
    by apply Avail_step.
  - intros pre lb post st0 w0 Hall [Hinv Hav].
    assert (lb ∈ labels) as Hlb by (rewrite Hall; set_solver).
    rewrite Forall_forall in Hslots. specialize (Hslots lb Hlb).
    pose proof (Avail_nonempty _ _ _ _ _ _ Hall Hav Hslots) as Hne.
    rewrite Hall in HL.
    destruct (slot_below_max _ _ _ _ _ HU HL) as (Hu5 & i & r & Hfind & Hlt).
    pose proof (inv_count _ _ _ _ _ _ Hinv _ Hu5) as Hcount.
    destruct (fillSlotB_eligible unitReqs avail lb st0 w0 i r _ Hfind Hcount Hlt)
      as (btl & reqs' & w1 & _ & Hpick).
    destruct (eligible btl (l_unit lb) (b_remaining st0)) as [|q0 cands] eqn:E.
    + apply eligible_nil in E. by destruct Hne.
    + destruct Hpick as (idx & q & w2 & _ & _ & ->). by eexists _, _.
  - done.
  - split; [apply SlotInv_initial | by apply Avail_initial].
  - unfold bind at 1. rewrite Hloop. unfold bind.
    rewrite forOf_validateUnitB_returns.
    + eexists _, _. split; [done|].
      rewrite sortBy_Permutation.
      by rewrite <- (length_fmap selKey), (inv_keys _ _ _ _ _ _ Hinv), length_fmap.
    + eapply Forall_impl; [exact Hreqs|]. intros req [Hu Hc]. cbv beta.
      exists (minCount req). split; [|lia].
      by rewrite (inv_count _ _ _ _ _ _ Hinv _ Hu), Hc.
Qed.

(** On a bank with unique ids, a passing verdict of Steps 1 to 6 means a
    paper: the selection cannot fail, whatever the random source yields. *)
Lemma generate_succeeds paperType w bank plan :
  questionBank w = Some bank -> NoDup (id <$> bank) ->
  prepare paperType w = (Return plan, w) ->
  exists paper w', generateQuestions paperType w = (Return paper, w').
Proof.
  intros Hbank Hnd Hprep.
  destruct (prepare_Return _ _ _ _ Hprep) as [_ (bank' & Hb' & HP)].
  rewrite Hbank in Hb'. inversion Hb'; subst bank'. clear Hb'.
  destruct HP as [Hsz HpA HpB HrA HrB HlB HlA Hav HeA HeB].
  destruct (catalog_slots _ _ _ _ _ HrA HrB HlA HlB) as (HcA & HcB & HxA & HxB).
  assert (NoDup (id <$> partAQuestions plan)) as HndA.
  { rewrite HpA. eapply sublist_NoDup; [exact Hnd|]. apply fmap_sublist, sublist_filter. }
  assert (NoDup (id <$> partBQuestions plan)) as HndB.
  { rewrite HpB. eapply sublist_NoDup; [exact Hnd|]. apply fmap_sublist, sublist_filter. }
  destruct (selectPartAQuestions_returns (partAQuestions plan)
              (partAUnitRequirements plan) (partALabels plan) w)
    as (selA & w1 & HA & HlenA); try done.
  { rewrite HpA. apply Forall_forall. intros q Hq.
    by apply list_elem_of_filter in Hq as [[Hq _] _]. }
  { rewrite Forall_forall in HxA |- *. intros lb Hlb.
    pose proof (HxA lb Hlb) as Hex. apply Exists_exists in Hex as (req & Hreq & Hu).
    rewrite Forall_forall in HcA, HeA.
    destruct (HcA req Hreq) as [_ Hc]. specialize (HeA req Hreq). cbv beta in HeA.
    rewrite <- Hu, Hc, HpA. exact HeA. }
  destruct (selectPartBQuestions_returns paperType (partBQuestions plan)
              (availableBTLs plan) (btlRequirements plan)
              (unitRequirements plan) (questionLabels plan) w1)
    as (selB & w2 & HB & HlenB); try done.
  { rewrite Forall_forall in HxB |- *. intros lb Hlb.
    pose proof (HxB lb Hlb) as Hex. apply Exists_exists in Hex as (req & Hreq & Hu).
    rewrite Forall_forall in HcB, HeB.
    destruct (HcB req Hreq) as [_ Hc]. specialize (HeB req Hreq). cbv beta in HeB.
    rewrite <- Hu, Hc, HpB. exact HeB. }
  unfold generateQuestions, bind. rewrite Hprep. unfold select, bind.
  rewrite HA, HB.
  assert (length (partALabels plan) = 5%nat /\ length (questionLabels plan) = 12%nat)
    as [H5 H12].
  { by eapply catalog_lengths. }
  rewrite decide_False by lia. rewrite decide_False by lia. by eexists _, _.
Qed.

(** On an uploaded bank the outcome of a generate call follows the verdict
    of Steps 1 to 6: a paper if and only if they pass. *)
Lemma generate_returns_iff_feasible f g h rows paperType w :
  questionBank w = Some (processExcelData f g h rows) ->
  (exists paper w', generateQuestions paperType w = (Return paper, w')) <->
  (exists plan, prepare paperType w = (Return plan, w)).
Proof.
  intros Hbank. split.
  - intros (paper & w' & H). unfold generateQuestions in H.
    apply bind_Return in H as (plan & w1 & Hp & _).
    destruct (prepare_Return _ _ _ _ Hp) as [-> _]. by exists plan.
  - intros (plan & Hp). eapply generate_succeeds; [exact Hbank| |exact Hp].
    apply processExcelData_ids.
Qed.

(** ** The claims *)



(** C2. When a Part B slot comes up in a run of the loop, the question is
    the one at the drawn index of the eligible list: the questions left of
    the slot's unit and the wanted level, or, exactly when there is none,
    the questions left of the slot's unit; the slot fails exactly when
    that second list is empty too. The index is the random draw taken over
    the length of the eligible list. *)
Theorem partB_slot_pick paperType unitReqs pre lb post source avail btlReqs w0 st w :
  unitRequirementsFor paperType = Some unitReqs ->
  questionLabelsFor paperType = Some (pre ++ lb :: post) ->
  forOf pre (fillSlotB unitReqs avail) (initialStateB source btlReqs) w0 = (Return st, w) ->
  exists btl reqs' w1,
    neededBtl avail (b_btlReqs st) w = (Return (btl, reqs'), w1) /\
    let cands := eligible btl (l_unit lb) (b_remaining st) in
    (cands = [] <-> relaxedMatches (l_unit lb) (b_remaining st) = []) /\
    match cands with
    | [] => fillSlotB unitReqs avail lb st w = (Throw (ENoQuestionsForUnit (l_unit lb)), w1)
    | _ :: _ =>
        exists idx q w2,
          randomIndex (length cands) w1 = (Return idx, w2) /\
          cands !! idx = Some q /\
          fillSlotB unitReqs avail lb st w =
            (Return {| b_selected := b_selected st ++
                         [{| picked := q; sel_label := label lb; part := "B" |}];
                       b_unitCount := increment (unit q) (b_unitCount st);
                       b_btlCount := incrementBtl (btLevel q) (b_btlCount st);
                       b_remaining := removeById q (b_remaining st);
                       b_btlReqs := reqs' |}, w2)
    end.
Proof.
  intros HU HL Hloop.
  destruct (slot_below_max _ _ _ _ _ HU HL) as (Hu5 & i & r & Hfind & Hlt).
  apply partB_loop_invariant in Hloop.
  pose proof (inv_count _ _ _ _ _ _ Hloop _ Hu5) as Hcount.
  destruct (fillSlotB_eligible unitReqs avail lb st w i r _ Hfind Hcount Hlt)
    as (btl & reqs' & w1 & Hneed & Hpick).
  exists btl, reqs', w1. split; [done|]. split; [apply eligible_nil|].
  simpl. by destruct (eligible btl (l_unit lb) (b_remaining st)).
Qed.

Lemma partB_slot_pick_witness :
  exists st w st' w',
    forOf [LB "2a" 1; LB "2b" 1] (fillSlotB [UR 1 5 5; UR 2 5 5; UR 3 2 2] ["6"])
      (initialStateB (partBQuestionsOf samplePool) [Fixed "6" 12]) sampleWorld
      = (Return st, w) /\
    fillSlotB [UR 1 5 5; UR 2 5 5; UR 3 2 2] ["6"] (LB "3a" 1) st w = (Return st', w') /\
    idsOf (b_selected st') = [9; 7; 8]%nat.
Proof.
  edestruct (partB_slot_pick "mid1" [UR 1 5 5; UR 2 5 5; UR 3 2 2]
               [LB "2a" 1; LB "2b" 1] (LB "3a" 1)
               [LB "3b" 1; LB "6b" 1; LB "4a" 2; LB "4b" 2; LB "5a" 2; LB "5b" 2;
                LB "7b" 2; LB "6a" 3; LB "7a" 3]
               (partBQuestionsOf samplePool) ["6"] [Fixed "6" 12] sampleWorld)
    as (btl & reqs' & w1 & Hneed & _ & Hpick);
    [reflexivity | reflexivity | vm_compute; reflexivity |].
  vm_compute in Hneed. inversion Hneed; subst btl reqs' w1. clear Hneed.
  match type of Hpick with
  | match ?c with _ => _ end => let c' := eval vm_compute in c in change c with c' in Hpick
  end.
  destruct Hpick as (idx & q & w2 & Hidx & Hq & Hfill).
  vm_compute in Hidx. inversion Hidx; subst idx w2. clear Hidx.
  vm_compute in Hq. inversion Hq; subst q. clear Hq.
  eexists _, _, _, _.
  split; [vm_compute; reflexivity|]. split; [exact Hfill|]. by vm_compute.
Defined.

(** C3. No question is selected twice: whatever sheet was uploaded, the ids
    of a returned paper, Part A and Part B together, are pairwise distinct. *)
Theorem selected_ids_distinct f g h rows paperType w paper w' :
  questionBank w = Some (processExcelData f g h rows) ->
  generateQuestions paperType w = (Return paper, w') ->
  NoDup (idsOf (partA paper ++ partB paper)).
Proof.
  intros Hbank. eapply selected_ids_distinct_of_unique_ids; [exact Hbank|].
  apply processExcelData_ids.
Qed.

Lemma selected_ids_distinct_witness :
  exists paper w',
    generateQuestions "mid1" sampleWorld = (Return paper, w') /\
    NoDup (idsOf (partA paper ++ partB paper)).
Proof.
  eexists _, _. split; [vm_compute; reflexivity|].
  eapply (selected_ids_distinct (fun s => s) (fun _ => "") (fun s => s) sampleRows
            "mid1" sampleWorld); [reflexivity | vm_compute; reflexivity].
Defined.

(** C4. The feasibility verdict (Steps 1 to 6, all that precedes the first
    random draw) is a function of the bank and the paper type: two worlds
    with the same bank get the same verdict whatever their random sources,
    the check leaves the world as it was, so running it again gives the
    same verdict, and a failing verdict is what the generate call throws,
    in both worlds, with no draw made. *)
Theorem feasibility_verdict_deterministic paperType w1 w2 :
  questionBank w1 = questionBank w2 ->
  fst (prepare paperType w1) = fst (prepare paperType w2) /\
  snd (prepare paperType w1) = w1 /\
  fst (prepare paperType (snd (prepare paperType w1))) = fst (prepare paperType w1) /\
  forall e, fst (prepare paperType w1) = Throw e ->
            generateQuestions paperType w1 = (Throw e, w1) /\
            generateQuestions paperType w2 = (Throw e, w2).
Proof.
  intros Hb. destruct (drawFree_prepare paperType) as [Hsame Hfun].
  pose proof (Hfun w1 w2 Hb) as E.
  repeat split; auto.
  - by rewrite Hsame.
  - by apply generateQuestions_prepare_Throw.
  - apply generateQuestions_prepare_Throw. by rewrite <- E.
Qed.

Lemma feasibility_verdict_deterministic_witness :
  let w1 := sampleWorld in
  let w2 := {| questionBank := Some samplePool; randomSource := [7; 7; 7]%nat |} in
  fst (prepare "mid2" w1) = fst (prepare "mid2" w2) /\
  snd (prepare "mid2" w1) = w1 /\
  fst (prepare "mid2" (snd (prepare "mid2" w1))) = fst (prepare "mid2" w1) /\
  forall e, fst (prepare "mid2" w1) = Throw e ->
            generateQuestions "mid2" w1 = (Throw e, w1) /\
            generateQuestions "mid2" w2 = (Throw e, w2).
Proof.
  intros w1 w2. apply (feasibility_verdict_deterministic "mid2" w1 w2). reflexivity.
Defined.

(** C5. Part B of a returned paper is sorted by unit ascending, ties broken
    by the position of the label in [labelOrder]. (The label order is a
    constant of the code, so it is always defined; for both paper types the
    sorted sequence is the slot sequence.) *)
Theorem partB_sorted paperType w paper w' :
  generateQuestions paperType w = (Return paper, w') ->
  StronglySorted partBOrder (partB paper) /\
  exists labels, questionLabelsFor paperType = Some labels /\
                 selKey <$> partB paper = slotKey <$> labels.
Proof.
  intros H.
  apply generateQuestions_Return in H
    as (bank & lA & lB & sel0 & Hb & _ & HcA & HcB & HP).
  split.
  - rewrite (pp_sorted _ _ _ _ _ HP).
    eapply StronglySorted_impl; [intros a b; apply compareSelected_le|].
    apply sortBy_StronglySorted;
      [apply compareSelected_total | apply compareSelected_trans].
  - exists lB. split; [done|]. by eapply partB_in_slot_order.
Qed.

Lemma partB_sorted_witness :
  exists paper w',
    generateQuestions "mid1" sampleWorld = (Return paper, w') /\
    StronglySorted partBOrder (partB paper) /\
    exists labels, questionLabelsFor "mid1" = Some labels /\
                   selKey <$> partB paper = slotKey <$> labels.
Proof.
  eexists _, _. split; [vm_compute; reflexivity|].
  eapply (partB_sorted "mid1" sampleWorld). vm_compute. reflexivity.
Defined.

(** C6 as the specification states it fails: with an empty bank stored,
    [server.js] answers a request for the unknown paper type 'final' with
    the bank-size error; and before any upload the Part A / Part B handler
    answers it with 'No questions available'. *)
Lemma unknown_paper_type_counterexample :
  ("final" ∉ ["mid1"; "mid2"; "special"]) /\
  LegacySelection.generateQuestions (Some []) "final" [] =
    (LegacySelection.Fail (LegacySelection.FRequirements Legacy.EInsufficientBank), []) /\
  generateHandler "final" {| questionBank := None; randomSource := [] |} =
    (Status400 NoQuestionsAvailable, {| questionBank := None; randomSource := [] |}).
Proof.
  split; [|split; reflexivity].
  intros Hin. repeat (apply elem_of_cons in Hin as [Hin|Hin]; [discriminate|]).
  by apply elem_of_nil in Hin.
Qed.

(** C6, amended. A generate request for a paper type outside the catalog
    fails without any selection being attempted (no random number is drawn,
    the bank and the random source are left as they were), and the error
    is the one of the first check that fails.
    - Part A / Part B server: the handler answers 400 'No questions
      available' when no bank is stored and 400 'Invalid paper type'
      otherwise, and does not call [generateQuestions];
      [generateQuestions] itself throws the bank-size error for a bank
      under 17 questions and 'Invalid paper type' otherwise.
    - [server.js]: the handler answers 400 'No questions available' when no
      bank is stored and otherwise 500 with the error of
      [generateQuestions]: the bank-size check, Step 1 (a TypeError for a
      level named like an inherited property), the level check and the
      BTL-case check come first; 'Invalid paper type' is thrown when the
      bank passes all four. *)
Theorem unknown_paper_type_fails paperType :
  (paperType ∉ ["mid1"; "mid2"] ->
   forall w,
     (is_Some (questionBank w) ->
      generateHandler paperType w = (Status400 InvalidPaperTypeRequest, w)) /\
     (questionBank w = None ->
      generateHandler paperType w = (Status400 NoQuestionsAvailable, w)) /\
     generateQuestions paperType w =
       (Throw match questionBank w with
              | None => ETypeError
              | Some bank =>
                  if decide (length bank < 17)%nat then EInsufficientBank (length bank)
                  else EInvalidPaperType
              end, w)) /\
  (paperType ∉ ["mid1"; "mid2"; "special"] ->
   forall bank rs,
     LegacySelection.generateQuestions bank paperType rs =
       (LegacySelection.Fail (LegacySelection.FRequirements (legacyFirstError bank)), rs) /\
     LegacySelection.generateHandler bank paperType rs =
       (match bank with
        | None => LegacySelection.NoQuestions400
        | Some _ =>
            LegacySelection.Error500 (LegacySelection.FRequirements (legacyFirstError bank))
        end, rs)).
Proof.
  split.
  - intros Hn w. split; [|split].
    + intros [bank Hb]. unfold generateHandler. rewrite Hb. by rewrite decide_False.
    + intros Hb. unfold generateHandler. by rewrite Hb.
    + destruct (unknown_catalog _ Hn) as [HA HB].
      unfold generateQuestions, prepare, bind, getQuestionBank.
      destruct (questionBank w) as [bank|]; [|done].
      case_decide; [done|]. by rewrite HA.
  - intros Hn bank rs. pose proof (legacy_unknown_catalog _ Hn) as Hc.
    assert (Legacy.requirements bank paperType = inl (legacyFirstError bank)) as Hreq.
    { unfold Legacy.requirements, legacyFirstError. destruct bank as [qs|]; [|done].
      repeat case_decide; try done.
      destruct (Legacy.btlRequirementsOf _ _); [done|]. by rewrite Hc. }
    assert (LegacySelection.generateQuestions bank paperType rs =
              (LegacySelection.Fail
                 (LegacySelection.FRequirements (legacyFirstError bank)), rs)) as Hgen.
    { unfold LegacySelection.generateQuestions. destruct bank as [qs|]; [|done].
      by rewrite Hreq. }
    split; [done|]. unfold LegacySelection.generateHandler.
    destruct bank as [qs|]; [|done]. by rewrite Hgen.
Qed.

Lemma unknown_paper_type_fails_witness :
  generateHandler "final" sampleWorld = (Status400 InvalidPaperTypeRequest, sampleWorld) /\
  generateQuestions "final" sampleWorld = (Throw EInvalidPaperType, sampleWorld) /\
  LegacySelection.generateQuestions (Some legacyBank) "final" [3; 1]%nat =
    (LegacySelection.Fail (LegacySelection.FRequirements Legacy.EInvalidPaperType),
     [3; 1]%nat) /\
  LegacySelection.generateHandler (Some legacyBank) "final" [3; 1]%nat =
    (LegacySelection.Error500 (LegacySelection.FRequirements Legacy.EInvalidPaperType),
     [3; 1]%nat).
Proof.
  destruct (unknown_paper_type_fails "final") as [HA HL].
  assert ("final" ∉ ["mid1"; "mid2"]) as H2.
  { intros Hin. repeat (apply elem_of_cons in Hin as [Hin|Hin]; [discriminate|]).
    by apply elem_of_nil in Hin. }
  assert ("final" ∉ ["mid1"; "mid2"; "special"]) as H3.
  { intros Hin. repeat (apply elem_of_cons in Hin as [Hin|Hin]; [discriminate|]).
    by apply elem_of_nil in Hin. }
  destruct (HA H2 sampleWorld) as (Hh & _ & Hg).
  destruct (HL H3 (Some legacyBank) [3; 1]%nat) as [Hlg Hlh].
  split; [apply Hh; by eexists|]. split; [exact Hg|].
  split; [exact Hlg | exact Hlh].
Defined.

(** C7. A generate call that throws leaves [questionBank] as it was. *)
Theorem failed_generate_keeps_bank paperType w e w' :
  generateQuestions paperType w = (Throw e, w') ->
  questionBank w' = questionBank w.
Proof.
  intros H. pose proof (keepsBank_generateQuestions paperType w) as K.
  by rewrite H in K.
Qed.

Lemma failed_generate_keeps_bank_witness :
  exists e w',
    generateQuestions "mid2" sampleWorld = (Throw e, w') /\
    questionBank w' = questionBank sampleWorld.
Proof.
  eexists _, _. split; [vm_compute; reflexivity|].
  eapply (failed_generate_keeps_bank "mid2" sampleWorld). vm_compute. reflexivity.
Defined.

(** C8 as the specification states it fails: a row of unit I whose level
    reads L9 comes out of the normalizer, with a level that is none of
    '1' to '6'. *)
Lemma normalizer_keeps_unrecognized_level :
  exists q,
    q ∈ processExcelData (fun s => s) (fun _ => "") (fun s => s) [sampleRow "I" "L9"] /\
    btLevel q ∉ validBTLevels.
Proof.
  eexists. split; [vm_compute; left|].
  simpl. unfold validBTLevels. intros Hin.
  repeat (apply elem_of_cons in Hin as [Hin|Hin]; [discriminate|]).
  by apply elem_of_nil in Hin.
Qed.

(** C8, amended. The normalized pool holds exactly the questions made from
    the rows whose unit is in 1 to 5 and whose level is not '0' (the value
    given to an empty level), in both servers; a level outside '1' to '6'
    is not a reason for exclusion. *)
Theorem normalized_pool f g h rows :
  (forall q, q ∈ processExcelData f g h rows <->
     exists i row, rows !! i = Some row /\ q = makeQuestion f g h i row /\
                   1 <= unit q <= 5 /\ btLevel q <> "0") /\
  (forall pool q, Legacy.processExcelData f h rows = Some pool ->
     q ∈ pool <->
     exists i row, rows !! i = Some row /\ Legacy.makeQuestion f h i row = Some q /\
                   1 <= Legacy.unit q <= 5 /\ Legacy.btLevel q <> "0").
Proof.
  split.
  - intros q. apply processExcelData_elem.
  - intros pool q. apply legacy_processExcelData_elem.
Qed.

Lemma normalized_pool_witness :
  exists q,
    q ∈ processExcelData (fun s => s) (fun _ => "") (fun s => s)
          [sampleRow "VI" "L2"; sampleRow "II" " "; sampleRow "iv" " l3 "] /\
    unit q = 4 /\ btLevel q = "3" /\ id q = 3%nat.
Proof.
  exists (makeQuestion (fun s => s) (fun _ => "") (fun s => s) 2 (sampleRow "iv" " l3 ")).
  split; [|by vm_compute].
  apply (proj1 (normalized_pool (fun s => s) (fun _ => "") (fun s => s)
                  [sampleRow "VI" "L2"; sampleRow "II" " "; sampleRow "iv" " l3 "])).
  exists 2%nat, (sampleRow "iv" " l3 "). by vm_compute.
Defined.

(** C9. The gate does not keep a refused pool from the core. While the
    accepted sample bank is in memory, a sheet of two valid rows is
    uploaded: the answer is 400 'Insufficient questions', yet the two
    questions have replaced the bank, since the assignment to
    [questionBank] precedes the check. The next generate request passes the
    handler's checks and calls [generateQuestions] on the refused pool,
    which throws its own bank-size error (answer 500), where the same
    request was answered with a paper before the upload. *)
Lemma refused_upload_reaches_core :
  (exists pa pb details w1,
     generateHandler "mid1" sampleWorld = (GenerateOk pa pb details, w1)) /\
  uploadHandler (fun s => s) (fun _ => "") (fun s => s)
    (Some [sampleRow "I" "L1"; sampleRow "II" "L2"]) sampleWorld =
    (Status400 (InsufficientQuestions 2),
     {| questionBank :=
          Some (processExcelData (fun s => s) (fun _ => "") (fun s => s)
                  [sampleRow "I" "L1"; sampleRow "II" "L2"]);
        randomSource := randomSource sampleWorld |}) /\
  generateQuestions "mid1"
    {| questionBank :=
         Some (processExcelData (fun s => s) (fun _ => "") (fun s => s)
                 [sampleRow "I" "L1"; sampleRow "II" "L2"]);
       randomSource := randomSource sampleWorld |} =
    (Throw (EInsufficientBank 2),
     {| questionBank :=
          Some (processExcelData (fun s => s) (fun _ => "") (fun s => s)
                  [sampleRow "I" "L1"; sampleRow "II" "L2"]);
        randomSource := randomSource sampleWorld |}) /\
  fst (generateHandler "mid1"
         {| questionBank :=
              Some (processExcelData (fun s => s) (fun _ => "") (fun s => s)
                      [sampleRow "I" "L1"; sampleRow "II" "L2"]);
            randomSource := randomSource sampleWorld |}) =
    Status500 (EInsufficientBank 2).
Proof.
  split; [eexists _, _, _, _; vm_compute; reflexivity|].
  split; [reflexivity|]. split; [reflexivity|]. vm_compute. reflexivity.
Qed.

(** C10. In a returned paper every Part A question has level '1' and every
    Part B question a level other than '1'; each part is drawn from its own
    share of the bank. *)
Theorem parts_split_by_level paperType w paper w' :
  generateQuestions paperType w = (Return paper, w') ->
  exists bank, questionBank w = Some bank /\
    Forall (fun s => picked s ∈ bank /\ btLevel (picked s) = "1") (partA paper) /\
    Forall (fun s => picked s ∈ bank /\ btLevel (picked s) <> "1") (partB paper).
Proof.
  intros H.
  apply generateQuestions_Return in H
    as (bank & lA & lB & sel0 & Hb & _ & _ & _ & [HA HB Hsort]).
  exists bank. split; [done|].
  destruct HA as (ucA & remA & HA). destruct HB as (ucB & remB & HB).
  split.
  - eapply Forall_impl; [apply (inv_from _ _ _ _ _ _ HA)|].
    intros s [Hs _]. apply list_elem_of_filter in Hs as [[Hl _] Hs]. done.
  - rewrite Hsort, sortBy_Permutation.
    eapply Forall_impl; [apply (inv_from _ _ _ _ _ _ HB)|].
    intros s [Hs _]. apply list_elem_of_filter in Hs as [[Hl _] Hs]. done.
Qed.

Lemma parts_split_by_level_witness :
  exists paper w',
    generateQuestions "mid1" sampleWorld = (Return paper, w') /\
    exists bank, questionBank sampleWorld = Some bank /\
      Forall (fun s => picked s ∈ bank /\ btLevel (picked s) = "1") (partA paper) /\
      Forall (fun s => picked s ∈ bank /\ btLevel (picked s) <> "1") (partB paper).
Proof.
  eexists _, _. split; [vm_compute; reflexivity|].
  eapply (parts_split_by_level "mid1" sampleWorld). vm_compute. reflexivity.
Defined.

(** * Further properties *)

(** ** The upload handler *)

Lemma firstEmpty_None fields :
  firstEmpty fields = None -> Forall (fun p => snd p <> "") fields.
Proof.
  induction fields as [|[name value] rest IH]; simpl; [constructor|].
  case_decide; [discriminate|]. intros Hn. constructor; auto.
Qed.

Lemma firstEmpty_Some fields name :
  firstEmpty fields = Some name -> (name, "") ∈ fields.
Proof.
  induction fields as [|[n v] rest IH]; simpl; [discriminate|].
  case_decide as E.
  - intros Hs. inversion Hs; subst. left.
  - intros Hs. right. auto.
Qed.

(** An upload that carries a file puts the normalized sheet in
    [questionBank] whatever it answers, a refusal included; a request
    without a file changes nothing. The random source is never touched. *)
Lemma upload_always_stores f g h file w :
  snd (uploadHandler f g h file w) =
  match file with
  | None => w
  | Some rows =>
      {| questionBank := Some (processExcelData f g h rows);
         randomSource := randomSource w |}
  end.
Proof.
  unfold uploadHandler. destruct file as [rows|]; [|done].
  case_decide; [done|].
  destruct (processExcelData f g h rows) as [|q0 bank]; [done|].
  destruct (firstEmpty _); [done|]. by case_decide.
Qed.

Lemma uploadHandler_UploadOk f g h file w n w' :
  uploadHandler f g h file w = (UploadOk n, w') ->
  exists rows q0,
    file = Some rows /\
    questionBank w' = Some (processExcelData f g h rows) /\
    n = length (processExcelData f g h rows) /\ (17 <= n)%nat /\
    Forall (fun q => btLevel q ∈ validBTLevels /\ unit q ∈ validUnits)
           (processExcelData f g h rows) /\
    head (processExcelData f g h rows) = Some q0 /\
    Forall (fun v => v <> "") (requiredFields q0).
Proof.
  unfold uploadHandler. destruct file as [rows|]; [|discriminate].
  case_decide as Hlen; [discriminate|].
  destruct (processExcelData f g h rows) as [|q0 bank] eqn:E; [discriminate|].
  destruct (firstEmpty _) eqn:Hf; [discriminate|].
  case_decide as Hinv; [discriminate|].
  intros Hresp. inversion Hresp; subst. exists rows, q0. rewrite E.
  repeat split; try done; [simpl in *; lia| |].
  - apply Forall_forall. intros q Hq.
    assert (filter invalidQuestion (q0 :: bank) = []) as Hnil.
    { destruct (filter invalidQuestion (q0 :: bank)); [done | simpl in Hinv; lia]. }
    destruct (decide (invalidQuestion q)) as [Hbad|Hok].
    + exfalso. eapply filter_nil_not_elem_of; [exact Hnil | exact Hbad | exact Hq].
    + unfold invalidQuestion in Hok.
      split; [destruct (decide (btLevel q ∈ validBTLevels)) | destruct (decide (unit q ∈ validUnits))];
        tauto.
  - apply firstEmpty_None in Hf. unfold requiredFields.
    repeat match goal with
           | H : Forall _ (_ :: _) |- _ => apply Forall_cons in H as [? H]
           end.
    simpl in *. repeat constructor; done.
Qed.

(** X1. An upload is accepted only when the stored bank has at least 17
    questions, all with a level from '1' to '6' and a unit from 1 to 5, and
    its first question has the six required fields; the count it reports is
    the size of the bank. *)
Theorem upload_ok_bank f g h file w n w' :
  uploadHandler f g h file w = (UploadOk n, w') ->
  exists rows q0,
    file = Some rows /\
    questionBank w' = Some (processExcelData f g h rows) /\
    n = length (processExcelData f g h rows) /\ (17 <= n)%nat /\
    Forall (fun q => btLevel q ∈ validBTLevels /\ unit q ∈ validUnits)
           (processExcelData f g h rows) /\
    head (processExcelData f g h rows) = Some q0 /\
    Forall (fun v => v <> "") (requiredFields q0).
Proof. apply uploadHandler_UploadOk. Qed.

Lemma upload_ok_bank_witness :
  exists q0,
    questionBank (snd (uploadHandler (fun s => s) (fun _ => "") (fun s => s)
                         (Some sampleRows) sampleWorld)) = Some samplePool /\
    head samplePool = Some q0 /\ Forall (fun v => v <> "") (requiredFields q0).
Proof.
  edestruct (upload_ok_bank (fun s => s) (fun _ => "") (fun s => s) (Some sampleRows)
               sampleWorld) as (rows & q0 & Hrows & Hb & _ & _ & _ & Hh & Hf);
    [vm_compute; reflexivity|].
  inversion Hrows; subst rows. exists q0. by repeat split.
Defined.

(** X13. An upload whose normalized pool has fewer than 17 questions is
    answered with status 400 and the size of the pool, and
    [generateQuestions] checks the same bound itself: on a bank of fewer
    than 17 questions, the one such an upload leaves behind included, it
    throws the bank-size error before it looks at the paper type or draws
    a random number. *)
Theorem small_pool_rejected f g h rows w :
  let bank := processExcelData f g h rows in
  (length bank < 17)%nat ->
  fst (uploadHandler f g h (Some rows) w) = Status400 (InsufficientQuestions (length bank)) /\
  (forall paperType w2 bank2,
     questionBank w2 = Some bank2 -> (length bank2 < 17)%nat ->
     generateQuestions paperType w2 = (Throw (EInsufficientBank (length bank2)), w2)) /\
  (forall paperType,
     generateQuestions paperType (snd (uploadHandler f g h (Some rows) w)) =
     (Throw (EInsufficientBank (length bank)), snd (uploadHandler f g h (Some rows) w))).
Proof.
  intros bank Hlen. unfold uploadHandler. fold bank. rewrite decide_True by done.
  simpl. split; [done|]. split.
  - intros. by apply generateQuestions_small_bank.
  - intros. by apply generateQuestions_small_bank.
Qed.

Lemma small_pool_rejected_witness :
  let rows := [sampleRow "I" "L1"; sampleRow "II" "L2"] in
  let w' := {| questionBank :=
                 Some (processExcelData (fun s => s) (fun _ => "") (fun s => s) rows);
               randomSource := randomSource sampleWorld |} in
  uploadHandler (fun s => s) (fun _ => "") (fun s => s) (Some rows) sampleWorld =
    (Status400 (InsufficientQuestions 2), w') /\
  generateQuestions "mid1" w' = (Throw (EInsufficientBank 2), w').
Proof.
  intros rows w'.
  destruct (small_pool_rejected (fun s => s) (fun _ => "") (fun s => s) rows sampleWorld)
    as (Hup & _ & Hgen); [vm_compute; lia|].
  split; [reflexivity | exact (Hgen "mid1")].
Defined.

(** ** The generate handler *)

Lemma generateHandler_keeps_bank paperType w :
  questionBank (snd (generateHandler paperType w)) = questionBank w.
Proof.
  unfold generateHandler. destruct (questionBank w) as [bank|] eqn:Hb; [|done].
  case_decide; [|done].
  pose proof (keepsBank_generateQuestions paperType w) as K.
  destruct (generateQuestions paperType w) as [[paper|e] w1]; simpl in K;
    [|simpl; by rewrite K].
  cbv zeta. destruct (firstEmpty _); simpl; by rewrite K.
Qed.

(** X2. Whatever requests were served, the bank is the normalized sheet of
    the last upload that carried a file (accepted or refused), or the
    bank from before if there was none: generate requests and uploads
    without a file never change it. *)
Theorem bank_is_last_sheet f g h rs w :
  questionBank (snd (serve f g h rs w)) = lastSheet f g h rs (questionBank w).
Proof.
  revert w. induction rs as [|r rs IH]; intros w; [done|].
  cbn [serve]. destruct (route f g h r w) as [resp w1] eqn:Hr.
  specialize (IH w1). destruct (serve f g h rs w1) as [resps w2].
  cbn [snd] in *. rewrite IH. clear IH.
  destruct r as [[rows|]|paperType]; cbn [route lastSheet] in *.
  - pose proof (upload_always_stores f g h (Some rows) w) as E.
    rewrite Hr in E. cbn [snd] in E. by subst w1.
  - pose proof (upload_always_stores f g h None w) as E.
    rewrite Hr in E. cbn [snd] in E. by subst w1.
  - pose proof (generateHandler_keeps_bank paperType w) as E.
    rewrite Hr in E. cbn [snd] in E. by rewrite E.
Qed.

Lemma partA_labels_are_1_to_5 paperType labels :
  partALabelsFor paperType = Some labels -> label <$> labels = ["1"; "2"; "3"; "4"; "5"].
Proof.
  unfold partALabelsFor. repeat case_decide; intros E; inversion E; done.
Qed.

(** X3. A 200 answer to a generate request carries five Part A entries
    labelled 1 to 5, all of level '1', and twelve Part B entries, each
    with the unit and label of its slot and none of level '1'; the six
    required paper details are all non-empty. *)
Theorem generate_ok_payload paperType w pa pb details w' :
  generateHandler paperType w = (GenerateOk pa pb details, w') ->
  exists labelsB,
    questionLabelsFor paperType = Some labelsB /\
    o_label <$> pa = ["1"; "2"; "3"; "4"; "5"] /\
    (fun o => (o_unit o, o_label o)) <$> pb = slotKey <$> labelsB /\
    Forall (fun o => o_btLevel o = "1") pa /\
    Forall (fun o => o_btLevel o <> "1") pb /\
    Forall (fun v => v <> "")
      [d_subjectCode details; d_subject details; d_branch details;
       d_regulation details; d_year details; d_semester details].
Proof.
  unfold generateHandler. destruct (questionBank w) as [bank0|]; [|discriminate].
  case_decide; [|discriminate].
  destruct (generateQuestions paperType w) as [[paper|e] w1] eqn:Hgen; [|discriminate].
  cbv zeta. destruct (firstEmpty _) eqn:Hf; [discriminate|].
  intros Hresp. inversion Hresp; subst pa pb details w1. clear Hresp.
  apply generateQuestions_Return in Hgen
    as (bank & lA & lB & sel0 & Hb & _ & HcA & HcB & HP).
  destruct (partB_in_slot_order _ _ _ _ _ _ HcB HP) as [HeqB HkB].
  destruct HP as [(ucA & remA & HA) (ucB & remB & HB) Hsort].
  exists lB. split; [done|]. split; [|split; [|split; [|split]]].
  - rewrite <- list_fmap_compose.
    change (o_label ∘ toOut) with (snd ∘ selKey).
    rewrite list_fmap_compose, (inv_keys _ _ _ _ _ _ HA), <- list_fmap_compose.
    change (snd ∘ slotKey) with label. by eapply partA_labels_are_1_to_5.
  - rewrite <- list_fmap_compose. exact HkB.
  - apply Forall_fmap. eapply Forall_impl; [apply (inv_from _ _ _ _ _ _ HA)|].
    intros s0 [Hs _]. by apply list_elem_of_filter in Hs as [[Hl _] _].
  - apply Forall_fmap. rewrite HeqB.
    eapply Forall_impl; [apply (inv_from _ _ _ _ _ _ HB)|].
    intros s0 [Hs _]. by apply list_elem_of_filter in Hs as [[Hl _] _].
  - apply firstEmpty_None in Hf.
    repeat match goal with
           | H : Forall _ (_ :: _) |- _ => apply Forall_cons in H as [? H]
           end.
    simpl in *. repeat constructor; done.
Qed.

Lemma generate_ok_payload_witness :
  exists pa pb details w',
    generateHandler "mid1" sampleWorld = (GenerateOk pa pb details, w') /\
    o_label <$> pa = ["1"; "2"; "3"; "4"; "5"] /\
    Forall (fun o => o_btLevel o <> "1") pb.
Proof.
  eexists _, _, _, _. split; [vm_compute; reflexivity|].
  edestruct (generate_ok_payload "mid1" sampleWorld) as (lB & _ & Hl & _ & _ & Hb & _);
    [vm_compute; reflexivity|].
  split; [exact Hl | exact Hb].
Defined.

(** ** Which errors come from where *)

Lemma throwsOnly_ret {A} P (a : A) : throwsOnly P (ret a).
Proof. intros w e w' H. discriminate. Qed.

Lemma throwsOnly_throw {A} (P : Error -> Prop) e : P e -> throwsOnly P (@throw A e).
Proof. intros HP w e' w' H. inversion H; by subst. Qed.

Lemma throwsOnly_bind {A B} P (m : M A) (k : A -> M B) :
  throwsOnly P m -> (forall a, throwsOnly P (k a)) -> throwsOnly P (bind m k).
Proof.
  intros Hm Hk w e w' H. apply bind_Throw in H as [H|(a & w1 & _ & H)].
  - by eapply Hm.
  - by eapply Hk.
Qed.

Lemma throwsOnly_randomIndex P n : throwsOnly P (randomIndex n).
Proof.
  intros w e w' H. unfold randomIndex in H. destruct (randomSource w); discriminate.
Qed.

Lemma throwsOnly_forOf {A S} P (xs : list A) (body : A -> S -> M S) s :
  (forall x s, throwsOnly P (body x s)) -> throwsOnly P (forOf xs body s).
Proof.
  intros Hb. revert s. induction xs as [|x xs IH]; intros s; simpl.
  - apply throwsOnly_ret.
  - apply throwsOnly_bind; auto.
Qed.

Ltac throws_only :=
  repeat first
    [ apply throwsOnly_ret | apply throwsOnly_randomIndex
    | apply throwsOnly_throw; exact I
    | apply throwsOnly_bind; [|intros ?]
    | apply throwsOnly_forOf; intros ? ?
    | match goal with
      | |- throwsOnly _ (if ?c then _ else _) => destruct c
      | |- throwsOnly _ (match ?x with _ => _ end) => destruct x
      end ].

Lemma throwsOnly_takeBtl reqs : throwsOnly selectionError (takeBtl reqs).
Proof. induction reqs as [|req rest IH]; simpl; throws_only; exact IH. Qed.

Lemma throwsOnly_select plan : throwsOnly selectionError (select plan).
Proof.
  unfold select, selectPartAQuestions, selectPartBQuestions, fillSlotA, fillSlotB,
    pickQuestionFromUnitA, pickQuestionFromUnitB, neededBtl, unitIsFull,
    validateUnitA, validateUnitB.
  throws_only; apply throwsOnly_takeBtl.
Qed.

Lemma forOf_checkPartA_Throw qs reqs w e w' :
  forOf reqs (checkPartA qs) () w = (Throw e, w') ->
  exists pre req post,
    reqs = pre ++ req :: post /\
    Forall (fun r => pa_count r <= length (filter (unitIs (pa_unit r)) qs))%nat pre /\
    (length (filter (unitIs (pa_unit req)) qs) < pa_count req)%nat /\
    e = EInsufficientL1 (pa_unit req) (length (filter (unitIs (pa_unit req)) qs))
          (pa_count req).
Proof.
  revert w. induction reqs as [|req reqs IH]; intros w H; simpl in H; [discriminate|].
  apply bind_Throw in H as [H|([] & w1 & Hok & H)].
  - unfold checkPartA in H. case_decide as Hlt; [|discriminate].
    inversion H; subst. exists [], req, reqs. by repeat split.
  - unfold checkPartA in Hok. case_decide as Hlt; [discriminate|].
    destruct (IH _ H) as (pre & r & post & -> & Hpre & Hr & ->).
    exists (req :: pre), r, post. repeat split; try done.
    constructor; [lia | done].
Qed.

Lemma forOf_checkPartB_Throw qs reqs w e w' :
  forOf reqs (checkPartB qs) () w = (Throw e, w') ->
  exists pre req post,
    reqs = pre ++ req :: post /\
    Forall (fun r => minCount r <= length (filter (unitIs (ur_unit r)) qs))%nat pre /\
    (length (filter (unitIs (ur_unit req)) qs) < minCount req)%nat /\
    e = EInsufficientPartB (ur_unit req) (length (filter (unitIs (ur_unit req)) qs))
          (minCount req).
Proof.
  revert w. induction reqs as [|req reqs IH]; intros w H; simpl in H; [discriminate|].
  apply bind_Throw in H as [H|([] & w1 & Hok & H)].
  - unfold checkPartB in H. case_decide as Hlt; [|discriminate].
    inversion H; subst. exists [], req, reqs. by repeat split.
  - unfold checkPartB in Hok. case_decide as Hlt; [discriminate|].
    destruct (IH _ H) as (pre & r & post & -> & Hpre & Hr & ->).
    exists (req :: pre), r, post. repeat split; try done.
    constructor; [lia | done].
Qed.

Lemma catalog_None paperType :
  partAUnitRequirementsFor paperType = None -> paperType ∉ ["mid1"; "mid2"].
Proof.
  unfold partAUnitRequirementsFor. repeat case_decide; try discriminate.
  intros _ Hin. apply elem_of_cons in Hin as [->|Hin]; [done|].
  apply elem_of_cons in Hin as [->|Hin]; [done|]. by apply elem_of_nil in Hin.
Qed.

Lemma prepare_Throw paperType w e w' :
  prepare paperType w = (Throw e, w') -> w' = w /\ Verdict paperType w e.
Proof.
  intros H. split.
  { pose proof (proj1 (drawFree_prepare paperType) w) as E. by rewrite H in E. }
  unfold prepare in H.
  apply bind_Throw in H as [H|(ob & w1 & Hb & H)]; [discriminate|].
  apply ret_Return in Hb as [<- <-].
  destruct (questionBank w) as [bank|] eqn:Hbank.
  2:{ inversion H; subst. by constructor. }
  case_decide as Hsz.
  { inversion H; subst. by econstructor. }
  destruct (partAUnitRequirementsFor paperType) as [reqA|] eqn:EA.
  2:{ inversion H; subst. eapply VPaperType; [done | lia |].
      by apply catalog_None. }
  destruct (unitRequirementsFor paperType) as [reqB|] eqn:EB.
  2:{ inversion H; subst. exfalso. unfold partAUnitRequirementsFor in EA.
      unfold unitRequirementsFor in EB. repeat case_decide; discriminate. }
  apply bind_Throw in H as [H|([] & w2 & HcA & H)].
  { apply forOf_checkPartA_Throw in H as (pre & req & post & -> & Hpre & Hlt & ->).
    eapply VPartA; eauto. lia. }
  apply forOf_checkPartA_Return in HcA.
  apply bind_Throw in H as [H|([] & w3 & HcB & H)].
  { apply forOf_checkPartB_Throw in H as (pre & req & post & -> & Hpre & Hlt & ->).
    eapply VPartB; eauto. lia. }
  apply forOf_checkPartB_Return in HcB.
  assert (enoughFor paperType bank) as Hen by (exists reqA, reqB; done).
  case_decide as Hstep3.
  { inversion H; subst. by eapply VStep3. }
  case_decide as Hlv.
  { inversion H; subst. eapply VNoLevel; eauto. by apply length_zero_iff_nil. }
  assert (btLevelsOf (partBQuestionsOf bank) <> []) as Hne
    by (by rewrite <- length_zero_iff_nil).
  apply bind_Throw in H as [H|(reqs & w4 & _ & H)].
  - unfold btlRequirementsOf in H. repeat case_decide; try discriminate.
    destruct (availableBTLsOf (partBQuestionsOf bank)) as [|only [|]] eqn:Eav;
      try discriminate; inversion H; subst; rewrite <- Eav; by eapply VUnsupported.
  - destruct (questionLabelsFor paperType) as [lbB|] eqn:ELB.
    + destruct (partALabelsFor paperType) as [lbA|] eqn:ELA; [discriminate|].
      exfalso. unfold partAUnitRequirementsFor in EA. unfold partALabelsFor in ELA.
      repeat case_decide; discriminate.
    + exfalso. unfold partAUnitRequirementsFor in EA. unfold questionLabelsFor in ELB.
      repeat case_decide; discriminate.
Qed.

(** ** Levels of an accepted bank *)

Lemma foldl_setAdd_elem (l s : list string) x :
  x ∈ foldl setAdd s l <-> x ∈ s \/ x ∈ l.
Proof.
  revert s. induction l as [|y l IH]; intros s; simpl.
  - split; [by left | intros [H|H]; [done | by apply elem_of_nil in H]].
  - rewrite IH. unfold setAdd. case_decide as Hy.
    + rewrite elem_of_cons. split; [tauto|]. intros [H|[->|H]]; tauto.
    + rewrite elem_of_app, list_elem_of_singleton, elem_of_cons. tauto.
Qed.

Lemma foldl_setAdd_NoDup (l s : list string) : NoDup s -> NoDup (foldl setAdd s l).
Proof.
  revert s. induction l as [|y l IH]; intros s Hs; simpl; [done|].
  apply IH. unfold setAdd. case_decide as Hy; [done|].
  apply NoDup_app. split; [done|]. split; [|apply NoDup_singleton].
  intros x Hx Hx'. apply list_elem_of_singleton in Hx'. by subst.
Qed.

Lemma availableBTLsOf_elem qs x :
  x ∈ availableBTLsOf qs <->
  exists q, q ∈ qs /\ btLevel q = x /\ 1 <= unit q <= 5.
Proof.
  unfold availableBTLsOf. simpl. rewrite !foldl_setAdd_elem.
  rewrite !list_elem_of_fmap. setoid_rewrite list_elem_of_filter. unfold unitIs.
  split.
  - intros [[[[[H|H]|H]|H]|H]|H]; [by apply elem_of_nil in H|..];
      destruct H as (q & -> & Hu & Hq); exists q; (split; [done|]); (split; [done|]); lia.
  - intros (q & Hq & <- & Hu).
    assert (unit q = 1 \/ unit q = 2 \/ unit q = 3 \/ unit q = 4 \/ unit q = 5)
      as [E|[E|[E|[E|E]]]] by lia; eauto 10.
Qed.

Lemma availableBTLsOf_NoDup qs : NoDup (availableBTLsOf qs).
Proof.
  unfold availableBTLsOf. simpl. repeat apply foldl_setAdd_NoDup. constructor.
Qed.

Lemma maxOf_elem xs : xs <> [] -> maxOf xs ∈ xs.
Proof.
  destruct xs as [|x xs]; [done|]. intros _. simpl.
  revert x. induction xs as [|y xs IH]; intros x; simpl; [left|].
  destruct (Z.max_spec x y) as [[_ E]|[_ E]]; rewrite E.
  - specialize (IH y). apply elem_of_cons in IH as [->|IH]; [right; left | by do 2 right].
  - specialize (IH x). apply elem_of_cons in IH as [->|IH]; [left | by do 2 right].
Qed.

Lemma valid_level_parses l :
  l ∈ validBTLevels -> l <> "1" ->
  exists n, JS.parseInt l = Some n /\ 2 <= n <= 6 /\ (n = 2 -> l = "2").
Proof.
  unfold validBTLevels. intros Hin Hne.
  repeat (apply elem_of_cons in Hin as [->|Hin];
          [first [done | eexists; split; [vm_compute; reflexivity|]; split;
                         [lia|]; intros; by (done || lia)]|]).
  by apply elem_of_nil in Hin.
Qed.

Lemma valid_level_not_inherited l : l ∈ validBTLevels -> l ∉ JS.inherited.
Proof.
  unfold validBTLevels. intros Hin.
  repeat (apply elem_of_cons in Hin as [->|Hin];
          [apply (bool_decide_unpack _); vm_compute; exact I|]).
  by apply elem_of_nil in Hin.
Qed.

Lemma accepted_step3 bank :
  Forall (fun q => btLevel q ∈ validBTLevels /\ unit q ∈ validUnits) bank ->
  ~ Exists breaksStep3 (partBQuestionsOf bank).
Proof.
  intros Hv. apply Forall_Exists_neg, Forall_forall. intros q Hq.
  apply list_elem_of_filter in Hq as [_ Hin].
  rewrite Forall_forall in Hv. destruct (Hv q Hin) as [Hvl _].
  by apply valid_level_not_inherited.
Qed.

Lemma accepted_btLevels bank :
  Forall (fun q => btLevel q ∈ validBTLevels /\ unit q ∈ validUnits) bank ->
  forall n, n ∈ btLevelsOf (partBQuestionsOf bank) ->
    2 <= n <= 6 /\ (n = 2 -> "2" ∈ availableBTLsOf (partBQuestionsOf bank)).
Proof.
  intros Hv n Hn. unfold btLevelsOf in Hn.
  apply list_elem_of_filter in Hn as [_ Hn].
  apply list_elem_of_fmap in Hn as (q & -> & Hq).
  pose proof Hq as Hq'. apply list_elem_of_filter in Hq' as [[Hl Hu] Hin].
  rewrite Forall_forall in Hv. destruct (Hv q Hin) as [Hvl _].
  destruct (valid_level_parses _ Hvl Hl) as (m & -> & Hm & H2). simpl.
  split; [done|]. intros E. apply availableBTLsOf_elem. exists q.
  split; [done|]. split; [auto | exact Hu].
Qed.

Lemma accepted_btLevels_length bank :
  Forall (fun q => btLevel q ∈ validBTLevels /\ unit q ∈ validUnits) bank ->
  length (btLevelsOf (partBQuestionsOf bank)) = length (partBQuestionsOf bank).
Proof.
  intros Hv. unfold btLevelsOf.
  assert (Forall (fun q => btLevel q ∈ validBTLevels /\ btLevel q <> "1")
            (partBQuestionsOf bank)) as Hp.
  { apply Forall_forall. intros q Hq. apply list_elem_of_filter in Hq as [[Hl _] Hin].
    rewrite Forall_forall in Hv. by destruct (Hv q Hin). }
  induction Hp as [|q qs [Hvl Hl] _ IH]; [done|].
  rewrite fmap_cons. destruct (valid_level_parses _ Hvl Hl) as (m & E & Hm & _).
  rewrite E. simpl. rewrite filter_cons_True by lia. simpl. by rewrite IH.
Qed.

Lemma forOf_checkPartA_returns qs reqs w :
  Forall (fun r => pa_count r <= length (filter (unitIs (pa_unit r)) qs))%nat reqs ->
  forOf reqs (checkPartA qs) () w = (Return (), w).
Proof.
  induction 1 as [|req reqs Hreq _ IH]; simpl; [done|].
  unfold bind, checkPartA. by rewrite decide_False by lia.
Qed.

Lemma forOf_checkPartB_returns qs reqs w :
  Forall (fun r => minCount r <= length (filter (unitIs (ur_unit r)) qs))%nat reqs ->
  forOf reqs (checkPartB qs) () w = (Return (), w).
Proof.
  induction 1 as [|req reqs Hreq _ IH]; simpl; [done|].
  unfold bind, checkPartB. by rewrite decide_False by lia.
Qed.

(** On a bank with valid levels, enough questions per unit is all that
    Steps 1 to 6 ask. *)
Lemma accepted_prepare paperType w bank :
  questionBank w = Some bank -> AcceptedBank bank -> enoughFor paperType bank ->
  exists plan, prepare paperType w = (Return plan, w).
Proof.
  intros Hb [Hsz Hv _] (reqsA & reqsB & HA & HB & HeA & HeB).
  assert (exists lB lA, questionLabelsFor paperType = Some lB /\
                        partALabelsFor paperType = Some lA) as (lB & lA & HlB & HlA).
  { unfold partAUnitRequirementsFor in HA. unfold questionLabelsFor, partALabelsFor.
    repeat case_decide; try discriminate; by eexists _, _. }
  assert (partBQuestionsOf bank <> []) as HneB.
  { intros E. rewrite E in HeB. unfold unitRequirementsFor in HB.
    repeat case_decide; try discriminate; inversion HB; subst reqsB;
      apply Forall_cons in HeB as [HeB _]; simpl in HeB; lia. }
  assert (btLevelsOf (partBQuestionsOf bank) <> []) as Hlv.
  { intros E. apply HneB. apply length_zero_iff_nil.
    by rewrite <- accepted_btLevels_length, E. }
  destruct (accepted_btLevels bank Hv _ (maxOf_elem _ Hlv)) as [Hm H2].
  unfold prepare, bind, getQuestionBank. rewrite Hb.
  rewrite decide_False by lia. rewrite HA, HB.
  rewrite forOf_checkPartA_returns by done.
  rewrite forOf_checkPartB_returns by done.
  rewrite (decide_False (P := Exists breaksStep3 (partBQuestionsOf bank)))
    by (by apply accepted_step3).
  rewrite decide_False by (by rewrite length_zero_iff_nil).
  unfold btlRequirementsOf.
  set (m := maxOf (btLevelsOf (partBQuestionsOf bank))) in *.
  assert (m = 6 \/ m = 5 \/ m = 4 \/ m = 3 \/ m = 2) as Hcases by lia.
  rewrite HlB, HlA.
  destruct Hcases as [E|[E|[E|[E|E]]]]; rewrite E.
  1-4: by eexists.
  rewrite (decide_False (P := 2 = 6)), (decide_False (P := 2 = 5)),
    (decide_False (P := 2 = 4)), (decide_False (P := 2 = 3)) by lia.
  rewrite decide_True by (split; [done | by apply H2]). by eexists.
Qed.

(** ** From an accepted upload to a paper *)

Lemma upload_ok_accepted f g h file w n w' :
  uploadHandler f g h file w = (UploadOk n, w') ->
  exists bank, questionBank w' = Some bank /\ AcceptedBank bank.
Proof.
  intros H. apply uploadHandler_UploadOk in H
    as (rows & q0 & -> & Hb & -> & Hsz & Hv & _ & _).
  eexists. split; [exact Hb|]. split; [done | done | apply processExcelData_ids].
Qed.

Lemma PlanFor_enough paperType bank plan : PlanFor paperType bank plan -> enoughFor paperType bank.
Proof.
  intros HP. exists (partAUnitRequirements plan), (unitRequirements plan).
  repeat split; apply HP.
Qed.

Lemma accepted_generate_iff paperType w bank :
  questionBank w = Some bank -> AcceptedBank bank ->
  (exists paper w', generateQuestions paperType w = (Return paper, w')) <->
  enoughFor paperType bank.
Proof.
  intros Hb Hacc. split.
  - intros (paper & w' & H). unfold generateQuestions in H.
    apply bind_Return in H as (plan & w1 & Hp & _).
    apply prepare_Return in Hp as [_ (bank' & Hb' & HP)].
    rewrite Hb in Hb'. inversion Hb'; subst bank'. by eapply PlanFor_enough.
  - intros Hen. destruct (accepted_prepare _ _ _ Hb Hacc Hen) as (plan & Hp).
    eapply generate_succeeds; [exact Hb | apply Hacc | exact Hp].
Qed.

Lemma accepted_generate_Throw paperType w bank e w' :
  questionBank w = Some bank -> AcceptedBank bank ->
  generateQuestions paperType w = (Throw e, w') ->
  w' = w /\ Verdict paperType w e /\
  match e with
  | EInvalidPaperType | EInsufficientL1 _ _ _ | EInsufficientPartB _ _ _ => True
  | _ => False
  end.
Proof.
  intros Hb Hacc H.
  assert (forall plan, prepare paperType w = (Return plan, w) -> False) as Hno.
  { intros plan Hp. destruct (generate_succeeds _ _ _ _ Hb (ab_ids _ Hacc) Hp)
      as (paper & w2 & Hret). congruence. }
  unfold generateQuestions in H. apply bind_Throw in H as [H|(plan & w1 & Hp & _)].
  2:{ destruct (prepare_Return _ _ _ _ Hp) as [-> _]. by destruct (Hno plan). }
  destruct (prepare_Throw _ _ _ _ H) as [-> HV]. split; [done|]. split; [done|].
  destruct HV as [Hn|b Hb' Hs|b Hb' Hs Hpt|b pre req post Hb' Hs|
                  b rA pre req post Hb' Hs|b Hb' Hen H3|b Hb' Hen H3 Hl|
                  b Hb' Hen H3 Hl]; try done.
  - congruence.
  - rewrite Hb in Hb'. inversion Hb'; subst b. pose proof (ab_size _ Hacc). lia.
  - rewrite Hb in Hb'. inversion Hb'; subst b.
    destruct (accepted_prepare _ _ _ Hb Hacc Hen) as (plan & Hp). congruence.
  - rewrite Hb in Hb'. inversion Hb'; subst b.
    destruct (accepted_prepare _ _ _ Hb Hacc Hen) as (plan & Hp). congruence.
  - rewrite Hb in Hb'. inversion Hb'; subst b.
    destruct (accepted_prepare _ _ _ Hb Hacc Hen) as (plan & Hp). congruence.
Qed.

(** X4. After an accepted upload, a generate call returns a paper exactly
    when the bank has enough questions per unit for the paper type (level
    '1' for Part A, other levels for Part B), whatever the random source
    yields. *)
Theorem accepted_upload_then_generate f g h file w0 n w1 paperType w :
  uploadHandler f g h file w0 = (UploadOk n, w1) ->
  questionBank w = questionBank w1 ->
  exists bank, questionBank w = Some bank /\
    ((exists paper w', generateQuestions paperType w = (Return paper, w')) <->
     enoughFor paperType bank).
Proof.
  intros Hup Hw. destruct (upload_ok_accepted _ _ _ _ _ _ _ Hup) as (bank & Hb & Hacc).
  rewrite <- Hw in Hb. exists bank. split; [done|]. by apply accepted_generate_iff.
Qed.

Lemma accepted_upload_then_generate_witness :
  exists paper w',
    generateQuestions "mid1"
      {| questionBank := Some samplePool; randomSource := [2; 7; 1; 8]%nat |}
    = (Return paper, w').
Proof.
  edestruct (accepted_upload_then_generate (fun s => s) (fun _ => "") (fun s => s)
               (Some sampleRows) sampleWorld 17%nat
               {| questionBank := Some samplePool; randomSource := randomSource sampleWorld |}
               "mid1"
               {| questionBank := Some samplePool; randomSource := [2; 7; 1; 8]%nat |})
    as (bank & Hb & Hiff); [vm_compute; reflexivity | reflexivity |].
  apply Hiff. injection Hb as <-.
  exists [PA 1 2; PA 2 2; PA 3 1], [UR 1 5 5; UR 2 5 5; UR 3 2 2].
  split; [reflexivity|]. split; [reflexivity|].
  split; apply (bool_decide_unpack _); vm_compute; exact I.
Defined.

(** X5. After an accepted upload, a generate call can fail only for an
    unknown paper type or for too few questions of a unit; it fails before
    any random draw, and the error names the first requirement that is
    short, with the number of questions the bank really has for it. *)
Theorem accepted_upload_generate_errors f g h file w0 n w1 paperType w e w' :
  uploadHandler f g h file w0 = (UploadOk n, w1) ->
  questionBank w = questionBank w1 ->
  generateQuestions paperType w = (Throw e, w') ->
  w' = w /\ Verdict paperType w e /\
  match e with
  | EInvalidPaperType | EInsufficientL1 _ _ _ | EInsufficientPartB _ _ _ => True
  | _ => False
  end.
Proof.
  intros Hup Hw. destruct (upload_ok_accepted _ _ _ _ _ _ _ Hup) as (bank & Hb & Hacc).
  rewrite <- Hw in Hb. by apply accepted_generate_Throw with bank.
Qed.

Lemma accepted_upload_generate_errors_witness :
  generateQuestions "mid2" sampleWorld = (Throw (EInsufficientL1 4 0 2), sampleWorld) /\
  Verdict "mid2" sampleWorld (EInsufficientL1 4 0 2).
Proof.
  edestruct (accepted_upload_generate_errors (fun s => s) (fun _ => "") (fun s => s)
               (Some sampleRows) sampleWorld 17%nat
               {| questionBank := Some samplePool; randomSource := randomSource sampleWorld |}
               "mid2" sampleWorld (EInsufficientL1 4 0 2) sampleWorld)
    as (_ & HV & _); [vm_compute; reflexivity | reflexivity | vm_compute; reflexivity |].
  split; [vm_compute; reflexivity | exact HV].
Defined.

(** ** The wanted level of a Part B slot *)

Lemma takeBtl_Some reqs w :
  Forall ruleOk reqs -> (0 < totalCount reqs)%nat ->
  exists l reqs' w',
    takeBtl reqs w = (Return (Some l, reqs'), w') /\ l <> "" /\
    l ∈ concat (ruleLevels <$> reqs) /\
    ruleLevels <$> reqs' = ruleLevels <$> reqs /\
    totalCount reqs = S (totalCount reqs').
Proof.
  revert w. induction reqs as [|req rest IH]; intros w Hok Hpos;
    [unfold totalCount in Hpos; simpl in Hpos; lia|].
  apply Forall_cons in Hok as [[Hne Hall] Hok]. simpl.
  case_decide as Hc.
  - assert (exists l w', (if decide (level req = "random")
                          then idx <- randomIndex (length (options req)) ;;
                               ret (options req !! idx)
                          else ret (Some (level req))) w = (Return (Some l), w') /\
                         l ∈ ruleLevels req) as (l & w' & Hl & Hin).
    { unfold ruleLevels in *. case_decide as Hr.
      - destruct (randomIndex_returns (length (options req)) w) as (idx & w' & Hidx & Hb).
        destruct (lookup_lt_is_Some_2 (options req) idx) as [l Hl].
        { apply Hb. by rewrite length_zero_iff_nil. }
        exists l, w'. unfold bind. rewrite Hidx, Hl. split; [done|].
        by eapply list_elem_of_lookup_2.
      - exists (level req), w. split; [done | left]. }
    exists l, ({| level := level req; options := options req;
                  count := (count req - 1)%nat |} :: rest), w'.
    unfold bind at 1. rewrite Hl. split; [done|]. split.
    { rewrite Forall_forall in Hall. by apply Hall. }
    split; [rewrite ?fmap_cons; simpl; apply elem_of_app; by left|].
    split; [done|]. unfold totalCount. csimpl. lia.
  - assert (count req = 0)%nat as Hz by lia.
    destruct (IH w Hok) as (l & reqs' & w' & Htake & Hl & Hin & Hlv & Htot).
    { unfold totalCount in *. csimpl in Hpos. lia. }
    exists l, (req :: reqs'), w'. unfold bind. rewrite Htake. simpl.
    split; [done|]. split; [done|].
    split; [rewrite ?fmap_cons; simpl; apply elem_of_app; by right|].
    split; [csimpl; by f_equal|].
    unfold totalCount in *. csimpl. lia.
Qed.

Lemma neededBtl_takeBtl avail reqs w l reqs' w' :
  takeBtl reqs w = (Return (Some l, reqs'), w') -> l <> "" ->
  neededBtl avail reqs w = (Return (Some l, reqs'), w').
Proof.
  intros H Hl. unfold neededBtl, bind. rewrite H. simpl.
  by rewrite bool_decide_eq_false_2.
Qed.

Lemma parseInt_positive s n :
  JS.parseInt s = Some n -> 0 < n -> s <> "" /\ s <> "random".
Proof. intros H Hn. split; intros ->; vm_compute in H; discriminate. Qed.

Lemma btlRequirementsOf_Return maxBTL avail w reqs w' :
  btlRequirementsOf maxBTL avail w = (Return reqs, w') ->
  (forall only, avail = [only] -> only <> "" /\ only <> "random") ->
  Forall ruleOk reqs /\ totalCount reqs = 12%nat.
Proof.
  unfold btlRequirementsOf. intros H Honly.
  repeat case_decide;
    try (apply ret_Return in H as [<- _]; split;
         [repeat constructor; vm_compute; congruence | reflexivity]).
  destruct avail as [|only [|]]; try discriminate.
  apply ret_Return in H as [<- _]. destruct (Honly only eq_refl) as [Hne Hnr].
  split; [|reflexivity]. repeat constructor; unfold ruleLevels, Fixed; simpl;
    rewrite decide_False by done; [done | by repeat constructor].
Qed.

Lemma prepare_btlRequirements paperType w plan w' :
  prepare paperType w = (Return plan, w') ->
  Forall ruleOk (btlRequirements plan) /\ totalCount (btlRequirements plan) = 12%nat.
Proof.
  unfold prepare. intros H.
  apply bind_Return in H as (ob & w1 & Hb & H).
  destruct ob as [bank|]; [|discriminate].
  case_decide as Hsz; [discriminate|].
  destruct (partAUnitRequirementsFor paperType) as [reqA|]; [|discriminate].
  destruct (unitRequirementsFor paperType) as [reqB|]; [|discriminate].
  apply bind_Return in H as ([] & w2 & _ & H).
  apply bind_Return in H as ([] & w3 & _ & H).
  case_decide as Hstep3; [discriminate|].
  case_decide as Hlv; [discriminate|].
  apply bind_Return in H as (reqs & w4 & Hbtl & H).
  destruct (questionLabelsFor paperType) as [lbB|]; [|discriminate].
  destruct (partALabelsFor paperType) as [lbA|]; [|discriminate].
  apply ret_Return in H as [<- _]. simpl.
  eapply btlRequirementsOf_Return; [exact Hbtl|].
  intros only Hav.
  destruct (btLevelsOf (partBQuestionsOf bank)) as [|n ns] eqn:E; [done|].
  assert (n ∈ btLevelsOf (partBQuestionsOf bank)) as Hn by (rewrite E; left).
  unfold btLevelsOf in Hn. apply list_elem_of_filter in Hn as [Hpos Hn].
  apply list_elem_of_fmap in Hn as (q & -> & Hq).
  assert (btLevel q ∈ availableBTLsOf (partBQuestionsOf bank)) as Hin.
  { apply availableBTLsOf_elem. exists q. split; [done|]. split; [done|].
    by apply list_elem_of_filter in Hq as [[_ Hu] _]. }
  rewrite Hav in Hin. apply list_elem_of_singleton in Hin. subst only.
  destruct (JS.parseInt (btLevel q)) as [m|] eqn:Ep; simpl in Hpos; [|lia].
  by eapply parseInt_positive.
Qed.

Lemma fillSlotB_btlReqs unitReqs avail lb st w st' w' :
  fillSlotB unitReqs avail lb st w = (Return st', w') ->
  exists n w1, neededBtl avail (b_btlReqs st) w = (Return n, w1) /\ b_btlReqs st' = snd n.
Proof.
  unfold fillSlotB. intros H.
  apply bind_Return in H as (n & w1 & Hn & H).
  apply bind_Return in H as ([q st1] & w2 & Hpick & H).
  apply ret_Return in H as [<- _]. simpl.
  apply pickQuestionFromUnitB_Return in Hpick as (_ & _ & ->). simpl.
  by exists n, w1.
Qed.

(** While slots are left to cover, the rules in the loop state still
    cover them, with the levels they started with. *)
Lemma partB_loop_rules source unitReqs avail btlReqs pre w0 st w :
  Forall ruleOk btlReqs ->
  forOf pre (fillSlotB unitReqs avail) (initialStateB source btlReqs) w0 = (Return st, w) ->
  (length pre <= totalCount btlReqs)%nat ->
  Forall ruleOk (b_btlReqs st) /\
  ruleLevels <$> b_btlReqs st = ruleLevels <$> btlReqs /\
  (totalCount (b_btlReqs st) + length pre = totalCount btlReqs)%nat.
Proof.
  intros Hok Hloop.
  set (I := fun (pre : list Label) (st : StateB) =>
              (length pre <= totalCount btlReqs)%nat ->
              Forall ruleOk (b_btlReqs st) /\
              ruleLevels <$> b_btlReqs st = ruleLevels <$> btlReqs /\
              (totalCount (b_btlReqs st) + length pre = totalCount btlReqs)%nat).
  assert (I [] (initialStateB source btlReqs)) as Hinit.
  { intros _. simpl. split; [done|]. split; [done|]. lia. }
  refine (forOf_invariant I (fillSlotB unitReqs avail) _ pre [] _ _ _ _ Hinit Hloop).
  intros pre0 lb s w1 s' w2 IH Hfill Hlen. rewrite length_app in Hlen. simpl in Hlen.
  destruct IH as (Hok0 & Hlv0 & Htot0); [lia|].
  destruct (takeBtl_Some (b_btlReqs s) w1 Hok0)
    as (l & reqs' & w3 & Ht & Hl & _ & Hlv & Htot); [lia|].
  apply (neededBtl_takeBtl avail) in Ht; [|done].
  apply fillSlotB_btlReqs in Hfill as (n & w4 & Hn & ->).
  rewrite Ht in Hn. inversion Hn; subst n w4. simpl.
  split.
  { apply Forall_forall. intros r Hr. unfold ruleOk.
    assert (ruleLevels r ∈ ruleLevels <$> reqs') as Hin by (by apply list_elem_of_fmap_2).
    rewrite Hlv in Hin. apply list_elem_of_fmap in Hin as (r0 & -> & Hr0).
    rewrite Forall_forall in Hok0. by apply Hok0. }
  split; [by rewrite Hlv|]. rewrite length_app. simpl. lia.
Qed.

(** X6. In a generate call the wanted level of every Part B slot comes
    from the difficulty rules, which cover exactly the twelve slots: the
    branch that draws a level from [availableBTLs] when no rule has a count
    left is never taken. *)
Theorem wanted_level_from_rules paperType w plan pre lb post w0 st w1 w2 :
  prepare paperType w = (Return plan, w) ->
  questionLabels plan = pre ++ lb :: post ->
  forOf pre (fillSlotB (unitRequirements plan) (availableBTLs plan))
    (initialStateB (partBQuestions plan) (btlRequirements plan)) w0 = (Return st, w1) ->
  totalCount (btlRequirements plan) = length (questionLabels plan) /\
  exists l reqs' w3,
    takeBtl (b_btlReqs st) w2 = (Return (Some l, reqs'), w3) /\
    neededBtl (availableBTLs plan) (b_btlReqs st) w2 = (Return (Some l, reqs'), w3) /\
    l ∈ concat (ruleLevels <$> btlRequirements plan).
Proof.
  intros Hp Hsplit Hloop.
  destruct (prepare_btlRequirements _ _ _ _ Hp) as [Hok Htot].
  destruct (prepare_Return _ _ _ _ Hp) as [_ (bank & _ & HP)].
  destruct (catalog_lengths _ _ _ (pf_labelsA _ _ _ HP) (pf_labelsB _ _ _ HP)) as [_ H12].
  split; [by rewrite Htot, H12|].
  assert (length pre < 12)%nat as Hlen.
  { rewrite Hsplit, length_app in H12. simpl in H12. lia. }
  destruct (partB_loop_rules _ _ _ _ _ _ _ _ Hok Hloop) as (Hok' & Hlv & Hcnt); [lia|].
  destruct (takeBtl_Some (b_btlReqs st) w2 Hok') as (l & reqs' & w3 & Ht & Hl & Hin & _);
    [lia|].
  exists l, reqs', w3. split; [done|]. split; [by apply neededBtl_takeBtl|].
  by rewrite <- Hlv.
Qed.

Lemma wanted_level_from_rules_witness :
  exists plan st w1,
    prepare "mid1" sampleWorld = (Return plan, sampleWorld) /\
    forOf [LB "2a" 1; LB "2b" 1]
      (fillSlotB (unitRequirements plan) (availableBTLs plan))
      (initialStateB (partBQuestions plan) (btlRequirements plan)) sampleWorld =
      (Return st, w1) /\
    exists l reqs' w3,
      neededBtl (availableBTLs plan) (b_btlReqs st) sampleWorld =
      (Return (Some l, reqs'), w3).
Proof.
  eexists _, _, _.
  split; [vm_compute; reflexivity|]. split; [vm_compute; reflexivity|].
  edestruct wanted_level_from_rules
    with (paperType := "mid1") (w := sampleWorld)
         (pre := [LB "2a" 1; LB "2b" 1]) (lb := LB "3a" 1)
         (post := [LB "3b" 1; LB "6b" 1; LB "4a" 2; LB "4b" 2; LB "5a" 2; LB "5b" 2;
                   LB "7b" 2; LB "6a" 3; LB "7a" 3])
         (w0 := sampleWorld) (w2 := sampleWorld)
    as (_ & l & reqs' & w3 & _ & Hn & _);
    [vm_compute; reflexivity | vm_compute; reflexivity | vm_compute; reflexivity |].
  exists l, reqs', w3. exact Hn.
Defined.

(** ** getDirectImageURL *)

Lemma append_nil s : "" +:+ s = s.
Proof. reflexivity. Qed.

Lemma append_cons c a b : String c a +:+ b = String c (a +:+ b).
Proof. reflexivity. Qed.

Lemma startsWith_app p s : Drive.startsWith p (p +:+ s) = Some s.
Proof.
  induction p as [|a p IH]; [done|].
  rewrite append_cons. simpl. by rewrite decide_True.
Qed.

Lemma startsWith_Some p s rest : Drive.startsWith p s = Some rest -> s = p +:+ rest.
Proof.
  revert s. induction p as [|a p IH]; intros s H; simpl in H; [by inversion H|].
  destruct s as [|b s]; [discriminate|]. case_decide; [|discriminate].
  subst b. rewrite append_cons. f_equal. by apply IH.
Qed.

Lemma spanNonSlash_run run rest :
  Drive.hasSlash run = false ->
  Drive.spanNonSlash (run +:+ String "/" rest) = (run, String "/" rest).
Proof.
  induction run as [|c run IH]; intros H.
  - reflexivity.
  - rewrite append_cons. simpl in *. case_decide; [discriminate|]. by rewrite IH.
Qed.

Lemma spanNonSlash_fst s : Drive.hasSlash (Drive.spanNonSlash s).1 = false.
Proof.
  induction s as [|c s IH]; simpl; [done|].
  case_decide as Hc; [done|]. destruct (Drive.spanNonSlash s) as [run rest]. simpl in *.
  by rewrite decide_False.
Qed.

Lemma hasSlash_app a b :
  Drive.hasSlash (a +:+ b) = Drive.hasSlash a || Drive.hasSlash b.
Proof.
  induction a as [|c a IH]; [done|].
  rewrite append_cons. simpl. by case_decide.
Qed.

Lemma matchHere_Some s fileId :
  Drive.matchHere s = Some fileId ->
  fileId <> "" /\ Drive.hasSlash fileId = false /\ Drive.hasSlash s = true.
Proof.
  unfold Drive.matchHere. destruct (Drive.startsWith Drive.sharePrefix s) as [rest|] eqn:E;
    [|discriminate].
  pose proof (spanNonSlash_fst rest) as Hrun.
  destruct (Drive.spanNonSlash rest) as [run after]. simpl in Hrun.
  case_decide as Hne; [discriminate|].
  destruct (Drive.startsWith "/view" after); [|discriminate].
  intros H. inversion H; subst. split; [done|]. split; [done|].
  apply startsWith_Some in E. rewrite E, hasSlash_app. done.
Qed.

Lemma matchDrive_Some s fileId :
  Drive.matchDrive s = Some fileId -> fileId <> "" /\ Drive.hasSlash fileId = false.
Proof.
  induction s as [|c s IH].
  - intros H. vm_compute in H. discriminate.
  - cbn [Drive.matchDrive]. destruct (Drive.matchHere (String c s)) eqn:E; [|exact IH].
    intros H. inversion H; subst. by apply matchHere_Some in E as (? & ? & _).
Qed.

Lemma matchDrive_no_slash s : Drive.hasSlash s = false -> Drive.matchDrive s = None.
Proof.
  induction s as [|c s IH]; intros H.
  - reflexivity.
  - simpl. destruct (Drive.matchHere (String c s)) as [fileId|] eqn:E.
    + apply matchHere_Some in E as (_ & _ & E). congruence.
    + apply IH. simpl in H. by case_decide.
Qed.

Lemma matchDrive_direct fileId :
  Drive.hasSlash fileId = false ->
  Drive.matchDrive (Drive.directPrefix +:+ fileId) = None.
Proof.
  intros H. unfold Drive.directPrefix. rewrite !append_cons, append_nil.
  simpl. by apply matchDrive_no_slash.
Qed.

(** X7. A Drive sharing link, [https://drive.google.com/file/d/ID/view]
    with anything after it, becomes the direct link of the same ID. *)
Theorem sharing_link_to_direct fileId rest :
  fileId <> "" -> Drive.hasSlash fileId = false ->
  Drive.getDirectImageURL (Drive.sharePrefix +:+ fileId +:+ "/view" +:+ rest) =
  Drive.directPrefix +:+ fileId.
Proof.
  intros Hne Hns. unfold Drive.getDirectImageURL.
  assert (Drive.matchHere (Drive.sharePrefix +:+ fileId +:+ "/view" +:+ rest) = Some fileId)
    as Hm.
  { unfold Drive.matchHere. rewrite startsWith_app.
    change ("/view" +:+ rest) with (String "/" ("view" +:+ rest)).
    rewrite spanNonSlash_run by done. rewrite decide_False by done.
    change (String "/" ("view" +:+ rest)) with ("/view" +:+ rest).
    by rewrite startsWith_app. }
  destruct (Drive.sharePrefix +:+ fileId +:+ "/view" +:+ rest) as [|c s].
  - vm_compute in Hm. discriminate.
  - cbn [Drive.matchDrive]. by rewrite Hm.
Qed.

Lemma sharing_link_to_direct_witness :
  Drive.getDirectImageURL "https://drive.google.com/file/d/1AbC_x9/view?usp=sharing" =
  "https://drive.google.com/uc?export=view&id=1AbC_x9".
Proof.
  apply (sharing_link_to_direct "1AbC_x9" "?usp=sharing"); [discriminate | reflexivity].
Defined.

(** X8. Converting twice is converting once: a direct link, like any
    address that is not a sharing link, is left as it is. *)
Theorem getDirectImageURL_idempotent url :
  Drive.getDirectImageURL (Drive.getDirectImageURL url) = Drive.getDirectImageURL url.
Proof.
  unfold Drive.getDirectImageURL at 2 3.
  destruct (Drive.matchDrive url) as [fileId|] eqn:E.
  - apply matchDrive_Some in E as [_ Hns].
    unfold Drive.getDirectImageURL. by rewrite matchDrive_direct.
  - unfold Drive.getDirectImageURL. by rewrite E.
Qed.

(** ** The earlier server: Step 5 *)

Section LegacyFacts.

Import LegacySelection.

Lemma legacy_bind_Ok {A B} (m : R A) (k : A -> R B) rs b rs' :
  bind m k rs = (Ok b, rs') ->
  exists a rs1, m rs = (Ok a, rs1) /\ k a rs1 = (Ok b, rs').
Proof.
  unfold bind. destruct (m rs) as [[a|f] rs1]; intros H; [eauto | discriminate].
Qed.

Lemma legacy_ret_Ok {A} (a b : A) rs rs' : ret a rs = (Ok b, rs') -> b = a /\ rs' = rs.
Proof. intros H. by inversion H. Qed.

Lemma legacy_forOf_invariant {A S} (I : list A -> S -> Prop) (body : A -> S -> R S) :
  (forall pre x s rs s' rs', I pre s -> body x s rs = (Ok s', rs') -> I (pre ++ [x]) s') ->
  forall xs pre s rs s' rs',
    I pre s -> forOf xs body s rs = (Ok s', rs') -> I (pre ++ xs) s'.
Proof.
  intros Hstep xs. induction xs as [|x xs IH]; intros pre s rs s' rs' HI Hrun; simpl in Hrun.
  - apply legacy_ret_Ok in Hrun as [-> _]. by rewrite app_nil_r.
  - apply legacy_bind_Ok in Hrun as (s1 & rs1 & Hx & Hrest).
    replace (pre ++ x :: xs) with ((pre ++ [x]) ++ xs) by (by rewrite <- app_assoc).
    eapply IH; [|exact Hrest]. eapply Hstep; eauto.
Qed.

Lemma pickQuestion_Some unitReqs btl st rs q st' rs' :
  pickQuestion unitReqs btl st rs = (Ok (Some (q, st')), rs') ->
  picks unitReqs (eq btl) st (push q st').
Proof.
  unfold pickQuestion. case_decide as Hlen; [intros H; inversion H|].
  intros H. apply legacy_bind_Ok in H as (idx & rs1 & _ & H).
  destruct (filter (canPick unitReqs (unitCount st) btl) (remainingQuestions st) !! idx)
    as [q'|] eqn:E; [|discriminate].
  inversion H; subst. apply list_elem_of_lookup_2 in E.
  apply list_elem_of_filter in E as [Hcan Hin].
  assert (Legacy.btLevel q = btl) as Hl.
  { unfold canPick in Hcan. destruct (findReq unitReqs (Legacy.unit q)); [|done].
    by destruct Hcan. }
  exists q. subst btl. done.
Qed.

Lemma pickFixed_Ok unitReqs l st rs st' rs' :
  pickFixed unitReqs l st rs = (Ok st', rs') -> picks unitReqs (eq l) st st'.
Proof.
  unfold pickFixed. intros H. apply legacy_bind_Ok in H as (r & rs1 & Hpick & H).
  destruct r as [[q st1]|]; [|discriminate].
  apply legacy_ret_Ok in H as [-> _]. by eapply pickQuestion_Some.
Qed.

Lemma pickRandom_Ok unitReqs randomBTLs st rs st' rs' :
  pickRandom unitReqs randomBTLs st rs = (Ok st', rs') ->
  picks unitReqs (fun l => l ∈ randomBTLs) st st'.
Proof.
  unfold pickRandom. intros H. apply legacy_bind_Ok in H as (i & rs1 & _ & H).
  destruct (randomBTLs !! i) as [btl|] eqn:E; [|discriminate].
  apply legacy_bind_Ok in H as (r & rs2 & Hpick & H).
  destruct r as [[q st1]|]; [|discriminate].
  apply legacy_ret_Ok in H as [-> _].
  apply pickQuestion_Some in Hpick as (q' & Hin & Hcan & Heq & Hst).
  exists q'. split; [done|]. split; [done|]. split; [|done].
  rewrite <- Heq. by eapply list_elem_of_lookup_2.
Qed.

Lemma ofUnit_snoc u sel q :
  ofUnit u (sel ++ [q]) = ofUnit u sel ++ (if decide (Legacy.unit q = u) then [q] else []).
Proof.
  unfold ofUnit. by rewrite filter_app.
Qed.

Lemma picks_inv bank unitReqs P st st' :
  LegacyInv bank unitReqs st -> picks unitReqs P st st' -> LegacyInv bank unitReqs st'.
Proof.
  intros [Hcount Hkeys Hunits Hmax Hfresh Hnodup Hsel Hrem] (q & Hin & Hcan & _ & ->).
  unfold canPick in Hcan.
  destruct (findReq unitReqs (Legacy.unit q)) as [r|] eqn:Hfind; [|done].
  destruct Hcan as [_ Hcan].
  destruct (readCount (unitCount st) (Legacy.unit q)) as [n|] eqn:Hread; [|done].
  pose proof (Hcount _ _ Hread) as Hn.
  split; cbn [selectedQuestions unitCount btlCount remainingQuestions].
  - intros u m. rewrite readCount_increment, ofUnit_snoc, length_app.
    case_decide as Hu.
    + subst u. rewrite Hread. intros [= <-]. simpl. lia.
    + intros Hm. apply Hcount in Hm. simpl. lia.
  - intros u Hu. rewrite readCount_increment. case_decide as Hq.
    + rewrite Hread. by eexists.
    + by apply Hkeys.
  - intros q' Hq'. apply elem_of_app in Hq' as [Hq'|Hq']; [by apply Hunits|].
    apply list_elem_of_singleton in Hq' as ->. rewrite Hfind. by eexists.
  - intros u r' Hr'. rewrite ofUnit_snoc, length_app. case_decide as Hu.
    + subst u. rewrite Hfind in Hr'. injection Hr' as <-. simpl. lia.
    + apply Hmax in Hr'. simpl. lia.
  - intros r' Hr'. apply list_elem_of_filter in Hr' as [Hne Hr'].
    rewrite fmap_app. apply not_elem_of_app. split; [by apply Hfresh|].
    simpl. by intros Heq%list_elem_of_singleton.
  - rewrite fmap_app. apply NoDup_app. split; [done|]. split.
    + intros x Hx. simpl. intros ->%list_elem_of_singleton. by apply (Hfresh q).
    + apply NoDup_singleton.
  - intros q' Hq'. apply elem_of_app in Hq' as [Hq'|Hq']; [by apply Hsel|].
    apply list_elem_of_singleton in Hq' as ->. by apply Hrem.
  - intros q' Hq'. apply list_elem_of_filter in Hq' as [_ Hq']. by apply Hrem.
Qed.

Lemma while_picks bank unitReqs P (body : State -> R State) n st rs st' rs' :
  (forall a rs0 a' rs0', body a rs0 = (Ok a', rs0') -> picks unitReqs P a a') ->
  while n body st rs = (Ok st', rs') ->
  LegacyInv bank unitReqs st ->
  LegacyInv bank unitReqs st' /\
  exists qs, selectedQuestions st' = selectedQuestions st ++ qs /\ length qs = n /\
             Forall (fun q => P (Legacy.btLevel q)) qs.
Proof.
  intros Hbody. revert st rs. induction n as [|n IH]; intros st rs Hrun Hinv; simpl in Hrun.
  - apply legacy_ret_Ok in Hrun as [-> _]. split; [done|]. exists []. by rewrite app_nil_r.
  - apply legacy_bind_Ok in Hrun as (s1 & rs1 & Hstep & Hrest).
    pose proof (Hbody _ _ _ _ Hstep) as Hp.
    pose proof (picks_inv _ _ _ _ _ Hinv Hp) as Hinv1.
    destruct (IH _ _ Hrest Hinv1) as (Hinv' & qs & Hsel & Hlen & Hall).
    split; [done|]. destruct Hp as (q & _ & _ & HP & ->). simpl in Hsel.
    exists (q :: qs). rewrite Hsel, <- app_assoc. split; [done|].
    split; [simpl; lia|]. by constructor.
Qed.

Lemma enforce_Ok bank unitReqs req st rs st' rs' :
  enforce bank unitReqs req st rs = (Ok st', rs') ->
  LegacyInv bank unitReqs st ->
  LegacyInv bank unitReqs st' /\
  exists qs, selectedQuestions st' = selectedQuestions st ++ qs /\
             meetsRule req (Legacy.btLevel <$> qs).
Proof.
  unfold enforce, meetsRule. intros Hrun Hinv. case_decide as Hrandom.
  - destruct (options req) as [|o os] eqn:Hopts; [discriminate|].
    case_decide as Hnone; [discriminate|].
    eapply while_picks in Hrun as (Hinv' & qs & Hsel & Hlen & Hall);
      [| intros; by eapply pickRandom_Ok | done].
    split; [done|]. exists qs. split; [done|]. split; [by rewrite length_fmap|].
    rewrite Forall_fmap. eapply Forall_impl; [exact Hall|]. simpl. intros q Hq.
    by apply list_elem_of_filter in Hq as [_ Hq].
  - case_decide as Hfound; [discriminate|].
    eapply while_picks in Hrun as (Hinv' & qs & Hsel & Hlen & Hall);
      [| intros; by eapply pickFixed_Ok | done].
    split; [done|]. exists qs. split; [done|]. split; [by rewrite length_fmap|].
    rewrite Forall_fmap. eapply Forall_impl; [exact Hall|]. simpl. by intros q <-.
Qed.

Lemma readCount_initial_Some u n : readCount initialUnitCount u = Some n -> n = O.
Proof.
  destruct (decide (1 <= u <= 5)) as [Hu|Hu].
  - rewrite readCount_initial by done. by intros [= <-].
  - unfold readCount, initialUnitCount.
    rewrite !lookup_insert_ne by lia. by rewrite lookup_empty.
Qed.

Lemma LegacyInv_initial bank unitReqs : LegacyInv bank unitReqs (initialState bank).
Proof.
  split; cbn [initialState selectedQuestions unitCount remainingQuestions].
  - intros u n Hn. by apply readCount_initial_Some in Hn.
  - intros u Hu. rewrite readCount_initial by done. by eexists.
  - by intros q Hq%elem_of_nil.
  - intros u r _. simpl. lia.
  - intros r _. apply not_elem_of_nil.
  - apply NoDup_nil_2.
  - by intros q Hq%elem_of_nil.
  - done.
Qed.

Lemma enforce_loop bank unitReqs btlReqs rs st rs' :
  forOf btlReqs (enforce bank unitReqs) (initialState bank) rs = (Ok st, rs') ->
  LegacyInv bank unitReqs st /\
  exists lss, Forall2 meetsRule btlReqs lss /\
              Legacy.btLevel <$> selectedQuestions st = concat lss.
Proof.
  intros Hrun.
  set (I := fun (pre : list BtlReq) (s : State) =>
              LegacyInv bank unitReqs s /\
              exists lss, Forall2 meetsRule pre lss /\
                          Legacy.btLevel <$> selectedQuestions s = concat lss).
  assert (I [] (initialState bank)) as Hinit.
  { split; [apply LegacyInv_initial|]. exists []. split; [constructor|done]. }
  refine (legacy_forOf_invariant I (enforce bank unitReqs) _ btlReqs [] _ _ _ _ Hinit Hrun).
  intros pre req s rs0 s' rs0' [Hinv (lss & Hlss & Hlevels)] Hstep.
  apply enforce_Ok in Hstep as (Hinv' & qs & Hsel & Hmeets); [|done].
  split; [done|]. exists (lss ++ [Legacy.btLevel <$> qs]). split.
  - apply Forall2_app; [done|]. by constructor.
  - rewrite Hsel, fmap_app, Hlevels, concat_app. simpl. by rewrite app_nil_r.
Qed.

Lemma validate_loop unitReqs st rs st' rs' :
  forOf unitReqs validateUnit st rs = (Ok st', rs') ->
  st' = st /\
  Forall (fun req => forall n, readCount (unitCount st) (ur_unit req) = Some n ->
                               (minCount req <= n)%nat) unitReqs.
Proof.
  intros Hrun.
  set (I := fun (pre : list UnitReq) (s : State) =>
              s = st /\
              Forall (fun req => forall n, readCount (unitCount st) (ur_unit req) = Some n ->
                                           (minCount req <= n)%nat) pre).
  assert (I [] st) as Hinit by (by split).
  refine (legacy_forOf_invariant I validateUnit _ unitReqs [] _ _ _ _ Hinit Hrun).
  intros pre req s rs0 s' rs0' [-> Hpre] Hstep. unfold validateUnit in Hstep.
  destruct (readCount (unitCount st) (ur_unit req)) as [n|] eqn:Hread.
  - case_decide as Hlt; [discriminate|]. apply legacy_ret_Ok in Hstep as [-> _].
    split; [done|]. apply Forall_app. split; [done|]. constructor; [|done].
    intros m. rewrite Hread. intros [= <-]. lia.
  - apply legacy_ret_Ok in Hstep as [-> _].
    split; [done|]. apply Forall_app. split; [done|]. constructor; [|done].
    intros m. by rewrite Hread.
Qed.

Lemma ofUnit_units u sel : Forall (fun q => Legacy.unit q = u) (ofUnit u sel).
Proof. apply Forall_forall. intros q Hq. by apply list_elem_of_filter in Hq as [? _]. Qed.

Lemma ofUnit_sublist u sel : sublist (ofUnit u sel) sel.
Proof. apply sublist_filter. Qed.

Lemma ofUnit_lengths sel :
  (length (ofUnit 1 sel) + length (ofUnit 2 sel) + length (ofUnit 3 sel) +
   length (ofUnit 4 sel) + length (ofUnit 5 sel) <= length sel)%nat.
Proof.
  induction sel as [|q sel IH]; [done|].
  unfold ofUnit in *. rewrite !filter_cons.
  repeat case_decide; simpl; try lia; congruence.
Qed.

Lemma ofUnit_three a b c sel :
  a <> b -> a <> c -> b <> c ->
  Forall (fun q => Legacy.unit q ∈ [a; b; c]) sel ->
  sel ≡ₚ ofUnit a sel ++ ofUnit b sel ++ ofUnit c sel.
Proof.
  intros Hab Hac Hbc Hall. induction Hall as [|q sel Hq Hall IH]; [done|].
  unfold ofUnit in *. rewrite !filter_cons.
  repeat (apply elem_of_cons in Hq as [Hq|Hq]); [| | |by apply elem_of_nil in Hq].
  - rewrite decide_True, (decide_False (P := Legacy.unit q = b)),
      (decide_False (P := Legacy.unit q = c)) by congruence.
    simpl. by constructor.
  - rewrite (decide_False (P := Legacy.unit q = a)), decide_True,
      (decide_False (P := Legacy.unit q = c)) by congruence.
    simpl. rewrite <- Permutation_middle. by constructor.
  - rewrite (decide_False (P := Legacy.unit q = a)),
      (decide_False (P := Legacy.unit q = b)), decide_True by congruence.
    rewrite app_assoc, <- Permutation_middle, <- app_assoc. by constructor.
Qed.

Lemma findReq_Some unitReqs u :
  is_Some (findReq unitReqs u) -> u ∈ ur_unit <$> unitReqs.
Proof.
  unfold findReq. intros [r Hr]. apply fmap_Some in Hr as ([i r'] & Hfind & ->).
  apply list_find_Some in Hfind as (Hi & Hu & _). simpl.
  apply list_elem_of_fmap. exists r'. split; [done|]. by eapply list_elem_of_lookup_2.
Qed.

Lemma btlRequirementsOf_total maxBTL availableBTLs reqs :
  Legacy.btlRequirementsOf maxBTL availableBTLs = inr reqs -> totalCount reqs = 6%nat.
Proof.
  unfold Legacy.btlRequirementsOf. repeat case_decide; try (by intros [= <-]).
  destruct availableBTLs as [|only [|]]; by intros [= <-].
Qed.

Lemma requirements_inr bank paperType btlReqs unitReqs :
  Legacy.requirements (Some bank) paperType = inr (btlReqs, unitReqs) ->
  Legacy.unitRequirementsFor paperType = Some unitReqs /\ totalCount btlReqs = 6%nat.
Proof.
  unfold Legacy.requirements. case_decide; [discriminate|]. case_decide; [discriminate|].
  case_decide; [discriminate|].
  destruct (Legacy.btlRequirementsOf _ _) as [e|reqs] eqn:Hreqs; [discriminate|].
  destruct (Legacy.unitRequirementsFor paperType) as [ureqs|]; [|discriminate].
  intros [= <- <-]. split; [done|]. by eapply btlRequirementsOf_total.
Qed.

Lemma meetsRule_total reqs lss :
  Forall2 meetsRule reqs lss -> length (concat lss) = totalCount reqs.
Proof.
  unfold totalCount. induction 1 as [|req ls reqs lss [Hlen _] _ IH]; [done|].
  csimpl. rewrite length_app. lia.
Qed.

Lemma generateQuestions_Ok bank paperType rs paper rs' :
  generateQuestions (Some bank) paperType rs = (Ok paper, rs') ->
  exists btlReqs unitReqs st rs1 rs2,
    Legacy.requirements (Some bank) paperType = inr (btlReqs, unitReqs) /\
    forOf btlReqs (enforce bank unitReqs) (initialState bank) rs = (Ok st, rs1) /\
    forOf unitReqs validateUnit st rs1 = (Ok st, rs2) /\
    arrange paperType (selectedQuestions st) rs2 = (Ok paper, rs').
Proof.
  unfold generateQuestions.
  destruct (Legacy.requirements (Some bank) paperType) as [e|[btlReqs unitReqs]];
    [discriminate|].
  intros Hrun. apply legacy_bind_Ok in Hrun as (selected & rs3 & Hsel & Hrun).
  case_decide as Hsix; [|discriminate]. apply legacy_ret_Ok in Hrun as [-> ->].
  unfold selectQuestions in Hsel.
  apply legacy_bind_Ok in Hsel as (st & rs1 & Hloop & Hsel).
  apply legacy_bind_Ok in Hsel as (st' & rs2 & Hval & Harr).
  pose proof (validate_loop _ _ _ _ _ Hval) as [-> _].
  by exists btlReqs, unitReqs, st, rs1, rs2.
Qed.

Lemma lookup_singleton_inv {A} (x y : A) i : [x] !! i = Some y -> y = x.
Proof. destruct i as [|i]; simpl; [by intros [= ->] | by destruct i]. Qed.

Ltac units_of_lists :=
  repeat match goal with
         | H : Forall _ (_ :: _) |- _ => apply Forall_cons in H as [? H]
         end.

Lemma arrange_mid1 sel rs paper rs' :
  arrange "mid1" sel rs = (Ok paper, rs') ->
  Forall (fun q => Legacy.unit q ∈ [1; 2; 3]) sel -> length sel = 6%nat ->
  (length (ofUnit 1 sel) <= 3)%nat -> (length (ofUnit 2 sel) <= 3)%nat ->
  (length (ofUnit 3 sel) <= 1)%nat ->
  paper ≡ₚ sel /\
  exists u, Legacy.unit <$> paper = [1; 1; 2; 2; 3; u] /\ (u = 1 \/ u = 2).
Proof.
  unfold arrange. rewrite decide_True by done. cbv zeta.
  case_decide as Hd; [discriminate|].
  intros Hrun Hall Hlen H1 H2 H3.
  pose proof (ofUnit_three 1 2 3 sel ltac:(done) ltac:(done) ltac:(done) Hall) as Hperm.
  pose proof (Permutation_length Hperm) as Hsum. rewrite !length_app in Hsum.
  pose proof (ofUnit_units 1 sel) as Hu1.
  pose proof (ofUnit_units 2 sel) as Hu2.
  pose proof (ofUnit_units 3 sel) as Hu3.
  destruct (ofUnit 1 sel) as [|a [|b [|x1 [|? ?]]]]; simpl in *; try (exfalso; lia);
  destruct (ofUnit 2 sel) as [|c [|d [|x2 [|? ?]]]]; simpl in *; try (exfalso; lia);
  destruct (ofUnit 3 sel) as [|e [|? ?]]; simpl in *; try (exfalso; lia);
  unfold firstFive in Hrun; simpl in Hrun;
  apply legacy_bind_Ok in Hrun as (i & rs1 & _ & Hrun);
  match type of Hrun with
  | context [[?x] !! i] => destruct ([x] !! i) as [q|] eqn:Hq; [|discriminate]
  end;
  apply lookup_singleton_inv in Hq as ->; apply legacy_ret_Ok in Hrun as [-> _];
  units_of_lists; (split; [rewrite Hperm|]).
  - do 4 constructor. apply perm_swap.
  - exists 2. simpl. split; [congruence | by right].
  - do 2 constructor. symmetry. apply Permutation_cons_append.
  - exists 1. simpl. split; [congruence | by left].
Qed.

Lemma arrange_mid2 sel rs paper rs' :
  arrange "mid2" sel rs = (Ok paper, rs') ->
  Forall (fun q => Legacy.unit q ∈ [3; 4; 5]) sel -> length sel = 6%nat ->
  (length (ofUnit 3 sel) <= 1)%nat -> (length (ofUnit 4 sel) <= 3)%nat ->
  (length (ofUnit 5 sel) <= 3)%nat ->
  paper ≡ₚ sel /\
  exists u, Legacy.unit <$> paper = [3; 4; 4; 5; 5; u] /\ (u = 4 \/ u = 5).
Proof.
  unfold arrange. rewrite decide_False, decide_True by done. cbv zeta.
  case_decide as Hd; [discriminate|].
  intros Hrun Hall Hlen H3 H4 H5.
  pose proof (ofUnit_three 3 4 5 sel ltac:(done) ltac:(done) ltac:(done) Hall) as Hperm.
  pose proof (Permutation_length Hperm) as Hsum. rewrite !length_app in Hsum.
  pose proof (ofUnit_units 3 sel) as Hu3.
  pose proof (ofUnit_units 4 sel) as Hu4.
  pose proof (ofUnit_units 5 sel) as Hu5.
  destruct (ofUnit 3 sel) as [|a [|? ?]]; simpl in *; try (exfalso; lia);
  destruct (ofUnit 4 sel) as [|b [|c [|x1 [|? ?]]]]; simpl in *; try (exfalso; lia);
  destruct (ofUnit 5 sel) as [|d [|e [|x2 [|? ?]]]]; simpl in *; try (exfalso; lia);
  apply legacy_bind_Ok in Hrun as (i & rs1 & _ & Hrun);
  match type of Hrun with
  | context [[?x] !! i] => destruct ([x] !! i) as [q|] eqn:Hq; [|discriminate]
  end;
  apply lookup_singleton_inv in Hq as ->; apply legacy_ret_Ok in Hrun as [-> _];
  units_of_lists; (split; [rewrite Hperm|]).
  - do 5 constructor. done.
  - exists 5. simpl. split; [congruence | by right].
  - do 3 constructor. symmetry. apply Permutation_cons_append.
  - exists 4. simpl. split; [congruence | by left].
Qed.

Lemma findReq_mid1 :
  findReq [UR 1 2 3; UR 2 2 3; UR 3 1 1] 1 = Some (UR 1 2 3) /\
  findReq [UR 1 2 3; UR 2 2 3; UR 3 1 1] 2 = Some (UR 2 2 3) /\
  findReq [UR 1 2 3; UR 2 2 3; UR 3 1 1] 3 = Some (UR 3 1 1).
Proof. by vm_compute. Qed.

Lemma findReq_mid2 :
  findReq [UR 3 1 1; UR 4 2 3; UR 5 2 3] 3 = Some (UR 3 1 1) /\
  findReq [UR 3 1 1; UR 4 2 3; UR 5 2 3] 4 = Some (UR 4 2 3) /\
  findReq [UR 3 1 1; UR 4 2 3; UR 5 2 3] 5 = Some (UR 5 2 3).
Proof. by vm_compute. Qed.

Lemma legacy_unitRequirements paperType unitReqs :
  Legacy.unitRequirementsFor paperType = Some unitReqs ->
  paperType = "mid1" /\ unitReqs = [UR 1 2 3; UR 2 2 3; UR 3 1 1] \/
  paperType = "mid2" /\ unitReqs = [UR 3 1 1; UR 4 2 3; UR 5 2 3] \/
  paperType = "special" /\
    unitReqs = [UR 1 1 2; UR 2 1 2; UR 3 1 2; UR 4 1 2; UR 5 1 2].
Proof.
  unfold Legacy.unitRequirementsFor. repeat case_decide; intros [= <-]; auto.
Qed.

(** What every run of [generateQuestions] that gets to the ordering has
    in hand. *)
Lemma legacy_selected bank paperType rs paper rs' :
  generateQuestions (Some bank) paperType rs = (Ok paper, rs') ->
  exists btlReqs unitReqs st rs2 lss,
    Legacy.requirements (Some bank) paperType = inr (btlReqs, unitReqs) /\
    Legacy.unitRequirementsFor paperType = Some unitReqs /\
    LegacyInv bank unitReqs st /\
    Forall2 meetsRule btlReqs lss /\
    Legacy.btLevel <$> selectedQuestions st = concat lss /\
    length (selectedQuestions st) = 6%nat /\
    Forall (fun req => (minCount req <=
                        length (ofUnit (ur_unit req) (selectedQuestions st)))%nat) unitReqs /\
    arrange paperType (selectedQuestions st) rs2 = (Ok paper, rs').
Proof.
  intros Hrun.
  apply generateQuestions_Ok in Hrun
    as (btlReqs & unitReqs & st & rs1 & rs2 & Hreq & Hloop & Hval & Harr).
  pose proof (requirements_inr _ _ _ _ Hreq) as [Hunits Htotal].
  pose proof (enforce_loop _ _ _ _ _ _ Hloop) as (Hinv & lss & Hlss & Hlevels).
  pose proof (validate_loop _ _ _ _ _ Hval) as [_ Hmin].
  exists btlReqs, unitReqs, st, rs2, lss. repeat (split; [done|]).
  split; [|split; [|done]].
  - rewrite <- (length_fmap Legacy.btLevel), Hlevels, <- Htotal. by apply meetsRule_total.
  - eapply Forall_impl; [|intros req Hreq'; exact Hreq'].
    apply Forall_forall. intros req Hin.
    assert (1 <= ur_unit req <= 5) as Hrange.
    { destruct (legacy_unitRequirements _ _ Hunits) as [[_ ->]|[[_ ->]|[_ ->]]];
        repeat (apply elem_of_cons in Hin as [->|Hin]; [simpl; lia|]);
        by apply elem_of_nil in Hin. }
    destruct (li_keys _ _ _ Hinv _ Hrange) as [n Hn].
    rewrite Forall_forall in Hmin. specialize (Hmin _ Hin _ Hn).
    apply (li_count _ _ _ Hinv) in Hn. lia.
Qed.

Lemma legacy_special_fails bank rs paper rs' :
  generateQuestions (Some bank) "special" rs = (Ok paper, rs') -> False.
Proof.
  intros Hrun.
  apply legacy_selected in Hrun
    as (btlReqs & unitReqs & st & rs2 & lss & _ & Hunits & _ & _ & _ & Hsix & Hmin & Harr).
  vm_compute in Hunits. injection Hunits as <-.
  units_of_lists. simpl in *.
  unfold arrange in Harr. rewrite !decide_False, decide_True in Harr by done.
  cbv zeta in Harr. case_decide as Hd; [discriminate|].
  pose proof (ofUnit_lengths (selectedQuestions st)). lia.
Qed.

End LegacyFacts.

(** X9. In the earlier server the paper type 'special' never yields a
    paper: six questions are selected, its unit minimums ask for one of
    each of the five units, and its ordering asks for two of unit 1 and
    two of unit 2 besides. Every request ends in an error. *)
Theorem legacy_special_never_returns questionBank rs :
  exists f rs',
    LegacySelection.generateQuestions questionBank "special" rs =
    (LegacySelection.Fail f, rs').
Proof.
  destruct (LegacySelection.generateQuestions questionBank "special" rs)
    as [[paper|f] rs'] eqn:Hrun; [|by eauto].
  destruct questionBank as [bank|]; [|discriminate].
  by apply legacy_special_fails in Hrun.
Qed.

Section LegacyPaper.

Import LegacySelection.

Lemma legacy_paper bank paperType rs paper rs' :
  generateQuestions (Some bank) paperType rs = (Ok paper, rs') ->
  exists btlReqs unitReqs lss sel,
    Legacy.requirements (Some bank) paperType = inr (btlReqs, unitReqs) /\
    Forall2 meetsRule btlReqs lss /\
    Legacy.btLevel <$> sel = concat lss /\
    paper ≡ₚ sel /\ length sel = 6%nat /\
    NoDup (Legacy.id <$> sel) /\ (forall q, q ∈ sel -> q ∈ bank) /\
    (paperType = "mid1" /\
       (exists u, Legacy.unit <$> paper = [1; 1; 2; 2; 3; u] /\ (u = 1 \/ u = 2)) \/
     paperType = "mid2" /\
       (exists u, Legacy.unit <$> paper = [3; 4; 4; 5; 5; u] /\ (u = 4 \/ u = 5))).
Proof.
  intros Hrun. pose proof Hrun as Hsel.
  apply legacy_selected in Hsel
    as (btlReqs & unitReqs & st & rs2 & lss & Hreq & Hunits & Hinv & Hlss & Hlevels &
        Hsix & _ & Harr).
  assert (Forall (fun q => Legacy.unit q ∈ ur_unit <$> unitReqs) (selectedQuestions st))
    as Hallowed.
  { apply Forall_forall. intros q Hq. apply findReq_Some. by eapply li_units. }
  exists btlReqs, unitReqs, lss, (selectedQuestions st).
  destruct (legacy_unitRequirements _ _ Hunits) as [[-> ->]|[[-> ->]|[-> _]]].
  - destruct findReq_mid1 as (F1 & F2 & F3).
    destruct (arrange_mid1 _ _ _ _ Harr Hallowed Hsix) as [Hperm Hpat];
      [exact (li_max _ _ _ Hinv _ _ F1) | exact (li_max _ _ _ Hinv _ _ F2)
      | exact (li_max _ _ _ Hinv _ _ F3) |].
    repeat (split; [done || by eapply li_nodup || by eapply li_selected|]). by left.
  - destruct findReq_mid2 as (F3 & F4 & F5).
    destruct (arrange_mid2 _ _ _ _ Harr Hallowed Hsix) as [Hperm Hpat];
      [exact (li_max _ _ _ Hinv _ _ F3) | exact (li_max _ _ _ Hinv _ _ F4)
      | exact (li_max _ _ _ Hinv _ _ F5) |].
    repeat (split; [done || by eapply li_nodup || by eapply li_selected|]). by right.
  - by apply legacy_special_fails in Hrun.
Qed.

End LegacyPaper.

(** X10. A paper of the earlier server has six questions of the bank, no
    question twice, in the unit order of its type: units 1, 1, 2, 2, 3 and
    then 1 or 2 for 'mid1'; units 3, 4, 4, 5, 5 and then 4 or 5 for
    'mid2'. *)
Theorem legacy_paper_units bank paperType rs paper rs' :
  LegacySelection.generateQuestions (Some bank) paperType rs =
    (LegacySelection.Ok paper, rs') ->
  length paper = 6%nat /\
  NoDup (Legacy.id <$> paper) /\
  Forall (fun q => q ∈ bank) paper /\
  (paperType = "mid1" /\
     (exists u, Legacy.unit <$> paper = [1; 1; 2; 2; 3; u] /\ (u = 1 \/ u = 2)) \/
   paperType = "mid2" /\
     (exists u, Legacy.unit <$> paper = [3; 4; 4; 5; 5; u] /\ (u = 4 \/ u = 5))).
Proof.
  intros Hrun.
  apply legacy_paper in Hrun
    as (btlReqs & unitReqs & lss & sel & _ & _ & _ & Hperm & Hsix & Hnodup & Hbank & Hpat).
  split; [by rewrite Hperm|]. split; [by rewrite Hperm|]. split; [|done].
  apply Forall_forall. intros q Hq. apply Hbank. by rewrite <- Hperm.
Qed.

Lemma legacy_paper_units_witness :
  exists paper,
    LegacySelection.generateQuestions (Some legacyBank) "mid1" [0; 0; 0; 0; 0; 1; 0; 0]%nat =
      (LegacySelection.Ok paper, []) /\
    length paper = 6%nat /\
    NoDup (Legacy.id <$> paper) /\
    Forall (fun q => q ∈ legacyBank) paper /\
    ("mid1" = "mid1" /\
       (exists u, Legacy.unit <$> paper = [1; 1; 2; 2; 3; u] /\ (u = 1 \/ u = 2)) \/
     "mid1" = "mid2" /\
       (exists u, Legacy.unit <$> paper = [3; 4; 4; 5; 5; u] /\ (u = 4 \/ u = 5))).
Proof.
  eexists. split; [vm_compute; reflexivity|].
  eapply (legacy_paper_units legacyBank "mid1" [0; 0; 0; 0; 0; 1; 0; 0]%nat _ []).
  vm_compute. reflexivity.
Defined.

(** X11. The levels of a paper of the earlier server are those of the
    difficulty rules of Step 3, rule by rule: as many questions of a
    rule's level as its count, or of its options for a rule with
    options; the ordering of the paper only permutes them. *)
Theorem legacy_paper_levels bank paperType rs paper rs' :
  LegacySelection.generateQuestions (Some bank) paperType rs =
    (LegacySelection.Ok paper, rs') ->
  exists btlReqs unitReqs lss,
    Legacy.requirements (Some bank) paperType = inr (btlReqs, unitReqs) /\
    Forall2 meetsRule btlReqs lss /\
    Legacy.btLevel <$> paper ≡ₚ concat lss.
Proof.
  intros Hrun.
  apply legacy_paper in Hrun
    as (btlReqs & unitReqs & lss & sel & Hreq & Hlss & Hlevels & Hperm & _).
  exists btlReqs, unitReqs, lss. split; [done|]. split; [done|].
  by rewrite Hperm, Hlevels.
Qed.

Lemma legacy_paper_levels_witness :
  exists paper btlReqs unitReqs lss,
    LegacySelection.generateQuestions (Some legacyBank) "mid1" [0; 0; 0; 0; 0; 1; 0; 0]%nat =
      (LegacySelection.Ok paper, []) /\
    Legacy.requirements (Some legacyBank) "mid1" = inr (btlReqs, unitReqs) /\
    Forall2 meetsRule btlReqs lss /\
    Legacy.btLevel <$> paper ≡ₚ concat lss.
Proof.
  eexists.
  assert (LegacySelection.generateQuestions (Some legacyBank) "mid1"
            [0; 0; 0; 0; 0; 1; 0; 0]%nat = (LegacySelection.Ok _, [])) as Hrun
    by (vm_compute; reflexivity).
  destruct (legacy_paper_levels legacyBank "mid1" _ _ _ Hrun)
    as (btlReqs & unitReqs & lss & Hreq & Hlss & Hperm).
  exists btlReqs, unitReqs, lss. split; [exact Hrun|]. by split.
Defined.

(** ** The two normalizers *)

Lemma toUpperCase_cons s k rest :
  JS.toUpperCase s = String k rest ->
  exists a s', s = String a s' /\ JS.upperChar a = k.
Proof. destruct s as [|a s']; simpl; [discriminate|]. intros [= <- _]. eauto. Qed.

Lemma parseInt_roman a s' :
  JS.upperChar a = "I"%char \/ JS.upperChar a = "V"%char ->
  JS.parseInt (String a s') = None.
Proof.
  destruct a as [[] [] [] [] [] [] [] []]; intros [H|H]; vm_compute in H;
    try discriminate; reflexivity.
Qed.

Lemma roman_not_number c :
  1 <= romanToInt c -> JS.parseInt (toString c) = None.
Proof.
  unfold romanToInt. cbv zeta. intros H.
  repeat case_decide; try lia;
    match goal with
    | E : JS.toUpperCase _ = _ |- _ =>
        apply toUpperCase_cons in E as (a & s' & -> & Ha)
    end;
    apply parseInt_roman; auto.
Qed.

(** X12. The two servers never keep the same row of a sheet: a unit that
    the Part A/Part B server reads as a Roman numeral does not parse as a
    number, and the earlier server gives such a row unit 0 and drops it. *)
Theorem normalizers_keep_different_rows f g h f' h' rows pool q q' :
  Legacy.processExcelData f' h' rows = Some pool ->
  q ∈ processExcelData f g h rows -> q' ∈ pool ->
  id q <> Legacy.id q'.
Proof.
  intros Hpool Hq Hq'.
  apply processExcelData_elem in Hq as (i & row & Hrow & -> & [Hunit _] & _).
  apply (legacy_processExcelData_elem _ _ _ _ _ Hpool) in Hq'
    as (j & row' & Hrow' & Hmk & [Hunit' _] & _).
  unfold Legacy.makeQuestion in Hmk.
  destruct (if truthy (row_ImageUrl row') then _ else _) as [url|]; [|discriminate].
  simpl in Hmk. injection Hmk as <-. simpl in *.
  intros Hid. assert (i = j) as -> by lia.
  rewrite Hrow in Hrow'. injection Hrow' as <-.
  apply roman_not_number in Hunit. rewrite Hunit in Hunit'. simpl in Hunit'. lia.
Qed.

Lemma normalizers_keep_different_rows_witness :
  exists q q' pool,
    Legacy.processExcelData (fun s => s) (fun s => s)
      [sampleRow "I" "L1"; sampleRow "2" "L2"] = Some pool /\
    q ∈ processExcelData (fun s => s) (fun _ => "") (fun s => s)
          [sampleRow "I" "L1"; sampleRow "2" "L2"] /\
    q' ∈ pool /\
    id q <> Legacy.id q'.
Proof.
  eexists _, _, _.
  assert (forall A (x : A), x ∈ [x]) as Hhere by (intros; apply list_elem_of_here).
  split; [vm_compute; reflexivity|].
  split; [vm_compute; apply Hhere|]. split; [apply Hhere|].
  eapply (normalizers_keep_different_rows (fun s => s) (fun _ => "") (fun s => s)
            (fun s => s) (fun s => s) [sampleRow "I" "L1"; sampleRow "2" "L2"]).
  - vm_compute. reflexivity.
  - vm_compute. apply Hhere.
  - apply Hhere.
Defined.
